(** * Collaborative setlist synthesis: a shallow embedding

    This development embeds the core of the setlist engine of the
    AI microservice:

    - [PyStr] and [Re]: the string primitives and the fragment of regular
      expressions that the preference extractor relies on;
    - [Extractor]: [_parse_preference_text] and
      [_extract_setlist_parameters] of [chat_setlist_service.py];
    - [Collector]: the in-memory session store of [ChatSetlistService],
      the aggregation of the group preferences and the duration-bounded
      selection;
    - [Coordinator]: the advisor interface, the three advisors and the
      four-phase pipeline of [multi_agent_coordinator.py];
    - [Sessions]: histories of calls on the session store and the status
      report of [api/chat_setlist.py];
    - [Advice] and [DesignService]: the derived constraints of the
      advisors and the simple design of [setlist_design_service.py].

    Conventions.  A text is a [string] whose characters are code points
    below 256.  Python [int] is [Z].  Python [float] values are exact
    rationals [Q]; the comparisons against [target * 0.9] are carried out
    on integers after scaling by ten.  A dictionary with a fixed set of
    keys is a record, a dictionary used as a store is a [gmap], a
    dictionary whose iteration order matters is an association list. *)

From Stdlib Require Import ZArith QArith String Ascii List Lia Bool Sorted
  Lqa.
From stdpp Require Import base strings gmap sets list.
Import ListNotations.

Open Scope string_scope.
Open Scope Z_scope.

(** ** Python string primitives *)

Module PyStr.

Definition in_range (lo hi : N) (c : ascii) : bool :=
  let n := N_of_ascii c in (N.leb lo n && N.leb n hi)%bool.

Definition is_upper (c : ascii) : bool := in_range 65 90 c.
Definition is_lower_az (c : ascii) : bool := in_range 97 122 c.
Definition is_digit (c : ascii) : bool := in_range 48 57 c.

(** [str.isspace] on one code point below 256; this is also the class
    [\s] of a [str] pattern. *)
Definition isspace (c : ascii) : bool :=
  (in_range 9 13 c || in_range 28 32 c
   || N.eqb (N_of_ascii c) 133 || N.eqb (N_of_ascii c) 160)%bool.

(** [str.lower] on one code point below 256: the letters A-Z and the
    Latin-1 capitals (all of 192..222 but the multiplication sign). *)
Definition lower_char (c : ascii) : ascii :=
  if (is_upper c
      || (in_range 192 222 c && negb (N.eqb (N_of_ascii c) 215)))%bool
  then ascii_of_N (N_of_ascii c + 32) else c.

Definition upper_char (c : ascii) : ascii :=
  if is_lower_az c then ascii_of_N (N_of_ascii c - 32) else c.

Fixpoint lower (s : string) : string :=
  match s with
  | EmptyString => EmptyString
  | String c t => String (lower_char c) (lower t)
  end.

(** [needle in hay] *)
Fixpoint isin (needle hay : string) : bool :=
  (String.prefix needle hay
   || match hay with
      | EmptyString => false
      | String _ t => isin needle t
      end)%bool.

(** [hay.find(needle)], [-1] when the needle does not occur *)
Fixpoint find_from (needle hay : string) (pos : Z) : Z :=
  if String.prefix needle hay then pos
  else match hay with
       | EmptyString => -1
       | String _ t => find_from needle t (pos + 1)
       end.

Definition find (needle hay : string) : Z := find_from needle hay 0.

Definition len (s : string) : Z := Z.of_nat (String.length s).

(** [s[a:b]] for [0 <= a] and [0 <= b] *)
Definition slice (s : string) (a b : Z) : string :=
  String.substring (Z.to_nat a) (Z.to_nat (b - a)) s.

Fixpoint lstrip (s : string) : string :=
  match s with
  | EmptyString => EmptyString
  | String c t => if isspace c then lstrip t else s
  end.

Definition rev_string (s : string) : string :=
  string_of_list_ascii (List.rev (list_ascii_of_string s)).

Definition strip (s : string) : string :=
  rev_string (lstrip (rev_string (lstrip s))).

(** [str.title] on texts of unaccented letters: the first letter of
    every run of letters is capitalised, the others are lowered.  The
    service applies it to its fixed composer names only. *)
Fixpoint title_aux (prev_cased : bool) (s : string) : string :=
  match s with
  | EmptyString => EmptyString
  | String c t =>
      let cased := (is_upper c || is_lower_az c)%bool in
      let c' := if cased
                then (if prev_cased then lower_char c else upper_char c)
                else c in
      String c' (title_aux cased t)
  end.

Definition title (s : string) : string := title_aux false s.

(** [any(w in text for w in words)] *)
Definition any_in (words : list string) (text : string) : bool :=
  existsb (fun w => isin w text) words.

(** [int(digits)] for a non-empty run of decimal digits; the value of a
    digit is its code minus 48, and no other character reaches [int],
    the pattern capturing digits only. *)
Definition digit_val (c : ascii) : Z := Z.of_N (N_of_ascii c - 48).

Fixpoint int_of_digits (acc : Z) (s : string) : Z :=
  match s with
  | EmptyString => acc
  | String c t => int_of_digits (10 * acc + digit_val c) t
  end.

End PyStr.

(** ** The regular-expression fragment used by the extractor

    Every repetition in the service's patterns ranges over a single
    character class ([.*?], [\s+], [\s*], [\d+], [[a-zA-Z\s]+]), so a
    repetition carries the class as a predicate.  Matching is the
    backtracking search of Python's [re]: alternatives in order, greedy
    repetitions longest first, lazy repetitions shortest first. *)

Module Re.

Inductive regex : Type :=
| Lit (s : string)
| Alt (r1 r2 : regex)
| Cat (r1 r2 : regex)
| LazyStar (p : ascii -> bool)
| Star (p : ascii -> bool)
| Plus (p : ascii -> bool)
| Group (r : regex).

(** [.] without the DOTALL flag *)
Definition dot (c : ascii) : bool := negb (Ascii.eqb c "010"%char).

(** [[a-zA-Z\s]] *)
Definition alpha_space (c : ascii) : bool :=
  (PyStr.is_lower_az c || PyStr.is_upper c || PyStr.isspace c)%bool.

Fixpoint alts (first : string) (others : list string) : regex :=
  match others with
  | [] => Lit first
  | o :: os => Alt (Lit first) (alts o os)
  end.

Fixpoint lit_match (l s : string) : option string :=
  match l with
  | EmptyString => Some s
  | String a l' =>
      match s with
      | EmptyString => None
      | String b s' => if Ascii.eqb a b then lit_match l' s' else None
      end
  end.

Section Backtrack.
Context {A : Type}.

Fixpoint lazy_star (p : ascii -> bool) (k : string -> option A)
    (s : string) : option A :=
  match k s with
  | Some a => Some a
  | None =>
      match s with
      | EmptyString => None
      | String c t => if p c then lazy_star p k t else None
      end
  end.

Fixpoint greedy_star (p : ascii -> bool) (k : string -> option A)
    (s : string) : option A :=
  match s with
  | EmptyString => k s
  | String c t =>
      if p c
      then match greedy_star p k t with
           | Some a => Some a
           | None => k s
           end
      else k s
  end.

(** [rmatch r s g k]: match [r] at the head of [s]; [g] is the text of
    the capture group so far; [k] receives the rest of the text. *)
Fixpoint rmatch (r : regex) (s : string) (g : option string)
    (k : string -> option string -> option A) : option A :=
  match r with
  | Lit l =>
      match lit_match l s with
      | Some s' => k s' g
      | None => None
      end
  | Alt r1 r2 =>
      match rmatch r1 s g k with
      | Some a => Some a
      | None => rmatch r2 s g k
      end
  | Cat r1 r2 => rmatch r1 s g (fun s' g' => rmatch r2 s' g' k)
  | LazyStar p => lazy_star p (fun s' => k s' g) s
  | Star p => greedy_star p (fun s' => k s' g) s
  | Plus p =>
      match s with
      | EmptyString => None
      | String c t =>
          if p c then greedy_star p (fun s' => k s' g) t else None
      end
  | Group r1 =>
      rmatch r1 s g
        (fun s' _ =>
           k s' (Some (String.substring 0
                         (String.length s - String.length s') s)))
  end.
End Backtrack.

(** A match at the head of [s]: the number of characters consumed and
    the item [findall] reports (group 1, or the whole match when the
    pattern has no group). *)
Definition match_here (r : regex) (s : string) : option (nat * string) :=
  rmatch r s None
    (fun s' g =>
       let n := (String.length s - String.length s')%nat in
       Some (n, match g with
                | Some x => x
                | None => String.substring 0 n s
                end)).

(** [re.findall]: leftmost non-overlapping matches.  [skip] counts the
    characters still covered by the previous match. *)
Fixpoint findall_aux (r : regex) (s : string) (skip : nat) : list string :=
  match skip with
  | S n =>
      match s with
      | EmptyString => []
      | String _ t => findall_aux r t n
      end
  | O =>
      match match_here r s with
      | Some (n, item) =>
          item :: match s with
                  | EmptyString => []
                  | String _ t => findall_aux r t (Nat.pred n)
                  end
      | None =>
          match s with
          | EmptyString => []
          | String _ t => findall_aux r t 0
          end
      end
  end.

Definition findall (r : regex) (s : string) : list string :=
  findall_aux r s 0.

(** [re.search(r, s)] followed by [.group(1)] *)
Fixpoint search (r : regex) (s : string) : option string :=
  match match_here r s with
  | Some (_, item) => Some item
  | None =>
      match s with
      | EmptyString => None
      | String _ t => search r t
      end
  end.

End Re.

(** ** PreferenceExtractor: [_parse_preference_text] *)

Module Extractor.
Import PyStr Re.

Record preference_record : Type := {
  favorite_genres : list string;
  favorite_composers : list string;
  instruments : list string;
  skill_level : string;
  avoid_genres : list string;
  avoid_composers : list string;
  tempo_preference : option string;
  mood_preference : option string;
  start_preference : option string;
  end_preference : option string;
  specific_genres : list string
}.

(** [for key, keywords in table.items(): if any(kw in text ...): out.append(key)] *)
Definition keyword_hits (table : list (string * list string))
    (text : string) : list string :=
  map fst (List.filter (fun kv => any_in (snd kv) text) table).

Definition genre_keywords : list (string * list string) :=
  [ ("jazz", ["jazz"; "swing"; "bebop"; "fusion"]);
    ("blues", ["blues"; "bluesy"]);
    ("classical", ["classical"; "baroque"; "romantic"; "chamber"]);
    ("rock", ["rock"; "pop"; "alternative"]);
    ("folk", ["folk"; "acoustic"; "traditional"]);
    ("country", ["country"; "bluegrass"]);
    ("electronic", ["electronic"; "edm"; "techno"]);
    ("latin", ["latin"; "salsa"; "bossa nova"; "samba"]) ].

Definition instrument_keywords : list (string * list string) :=
  [ ("piano", ["piano"; "keyboard"; "keys"]);
    ("guitar", ["guitar"; "acoustic guitar"; "electric guitar"]);
    ("violin", ["violin"; "fiddle"]);
    ("cello", ["cello"]);
    ("viola", ["viola"]);
    ("flute", ["flute"]);
    ("clarinet", ["clarinet"]);
    ("saxophone", ["saxophone"; "sax"; "alto sax"; "tenor sax"]);
    ("trumpet", ["trumpet"]);
    ("drums", ["drums"; "drum set"; "percussion"]);
    ("bass", ["bass"; "bass guitar"; "upright bass"]);
    ("voice", ["voice"; "vocal"; "singer"; "singing"]) ].

(** The tail [.*?([a-zA-Z\s]+)] shared by most patterns *)
Definition then_words : regex :=
  Cat (LazyStar dot) (Group (Plus alpha_space)).

Definition person_kind : regex := alts "composer" ["artist"; "musician"].

Definition composer_patterns : list regex :=
  [ Cat (alts "favorite" ["love"; "like"])
      (Cat (LazyStar dot) (Cat person_kind then_words));
    Cat person_kind then_words;
    alts "miles davis"
      ["john coltrane"; "beethoven"; "mozart"; "bach"; "chopin"; "debussy"] ].

Definition dislike_verbs : regex :=
  alts "avoid" ["don't like"; "hate"; "dislike"].

Definition not_into : regex := alts "not into" ["not a fan of"].

Definition avoid_patterns : list regex :=
  [ Cat dislike_verbs
      (Cat (LazyStar dot)
         (Cat (alts "genre" ["music"; "style"]) then_words));
    Cat not_into then_words ].

Definition avoid_composer_patterns : list regex :=
  [ Cat dislike_verbs (Cat (LazyStar dot) (Cat person_kind then_words));
    Cat not_into (Cat (LazyStar dot) (Cat person_kind then_words));
    Cat (alts "no" ["avoid"; "don't want"])
      (Cat (LazyStar dot)
         (alts "miles davis"
            ["john coltrane"; "beethoven"; "mozart"; "bach"; "chopin";
             "debussy"; "herbie hancock"; "thelonious monk"])) ].

(** [out.extend([m.strip() for m in re.findall(p, text) if len(m.strip()) > 2])]
    over the patterns in order *)
Definition stripped_matches (patterns : list regex) (text : string)
    : list string :=
  flat_map
    (fun p =>
       List.filter (fun m => 2 <? len m)
         (map strip (findall p text)))
    patterns.

Definition negative_words : list string :=
  ["no"; "avoid"; "don't"; "hate"; "dislike"; "not"].

Definition composer_names : list string :=
  ["miles davis"; "john coltrane"; "beethoven"; "mozart"; "bach"; "chopin";
   "debussy"; "herbie hancock"; "thelonious monk"].

(** The window of twenty characters on either side of the first
    occurrence of the composer *)
Definition negated_nearby (composer text : string) : bool :=
  let composer_pos := find composer text in
  let context_start := Z.max 0 (composer_pos - 20) in
  let context_end := Z.min (len text) (composer_pos + len composer + 20) in
  any_in negative_words (slice text context_start context_end).

Definition negated_composers (text : string) : list string :=
  map title
    (List.filter
       (fun composer => (isin composer text && negated_nearby composer text)%bool)
       composer_names).

Definition beginner_words : list string :=
  ["beginner"; "starting"; "new to"; "learning"].
Definition advanced_words : list string :=
  ["advanced"; "expert"; "professional"; "experienced"].
Definition professional_words : list string :=
  ["expert"; "master"; "virtuoso"].

Definition extract_skill_level (text : string) : string :=
  if any_in beginner_words text then "beginner"
  else if any_in advanced_words text then "advanced"
  else if any_in professional_words text then "professional"
  else "intermediate".

Definition fast_words : list string := ["fast"; "upbeat"; "energetic"; "quick"].
Definition slow_words : list string := ["slow"; "relaxed"; "calm"; "gentle"].
Definition moderate_words : list string := ["moderate"; "medium"; "balanced"].

Definition extract_tempo (text : string) : option string :=
  if any_in fast_words text then Some "fast"
  else if any_in slow_words text then Some "slow"
  else if any_in moderate_words text then Some "moderate"
  else None.

Definition energetic_words : list string :=
  ["energetic"; "exciting"; "dynamic"; "powerful"].
Definition relaxed_words : list string :=
  ["relaxed"; "calm"; "peaceful"; "serene"].
Definition dramatic_words : list string :=
  ["dramatic"; "intense"; "emotional"; "passionate"].
Definition happy_words : list string :=
  ["happy"; "cheerful"; "uplifting"; "joyful"].

Definition extract_mood (text : string) : option string :=
  if any_in energetic_words text then Some "energetic"
  else if any_in relaxed_words text then Some "relaxed"
  else if any_in dramatic_words text then Some "dramatic"
  else if any_in happy_words text then Some "happy"
  else None.

Definition with_words (anchor : string) : regex :=
  Cat (Lit anchor) (Cat (Plus isspace) (Group (Plus alpha_space))).

Definition start_patterns : list regex :=
  [ with_words "start with"; with_words "begin with"; with_words "open with";
    Cat (Lit "first") then_words ].

Definition end_patterns : list regex :=
  [ with_words "end with"; with_words "finish with"; with_words "close with";
    Cat (Lit "last") then_words ].

(** [for p in patterns: m = re.findall(p, text); if m: pref = m[0].strip(); break] *)
Fixpoint first_hint (patterns : list regex) (text : string) : option string :=
  match patterns with
  | [] => None
  | p :: ps =>
      match findall p text with
      | m :: _ => Some (strip m)
      | [] => first_hint ps text
      end
  end.

Definition specific_genre_keywords : list string :=
  ["bebop"; "blues"; "ballad"; "swing"; "fusion"; "hard bop"; "cool jazz";
   "free jazz"].

Definition _parse_preference_text (preference_text : string)
    : preference_record :=
  let text_lower := lower preference_text in
  {| favorite_genres := keyword_hits genre_keywords text_lower;
     favorite_composers :=
       firstn 5 (stripped_matches composer_patterns text_lower);
     instruments := keyword_hits instrument_keywords text_lower;
     skill_level := extract_skill_level text_lower;
     avoid_genres := firstn 3 (stripped_matches avoid_patterns text_lower);
     avoid_composers :=
       firstn 3 (stripped_matches avoid_composer_patterns text_lower
                 ++ negated_composers text_lower);
     tempo_preference := extract_tempo text_lower;
     mood_preference := extract_mood text_lower;
     start_preference := first_hint start_patterns text_lower;
     end_preference := first_hint end_patterns text_lower;
     specific_genres :=
       List.filter (fun g => isin g text_lower) specific_genre_keywords |}.

(** The record of the documented defaults *)
Definition default_record : preference_record :=
  {| favorite_genres := []; favorite_composers := []; instruments := [];
     skill_level := "intermediate"; avoid_genres := [];
     avoid_composers := []; tempo_preference := None;
     mood_preference := None; start_preference := None;
     end_preference := None; specific_genres := [] |}.

(** *** [_extract_setlist_parameters] *)

Definition duration_pattern : regex :=
  Cat (Group (Plus is_digit))
    (Cat (Star isspace) (alts "minute" ["min"; "hour"; "hr"])).

Definition extract_duration (user_lower : string) : Z :=
  match search duration_pattern user_lower with
  | Some digits =>
      let duration_value := int_of_digits 0 digits in
      if (isin "hour" user_lower || isin "hr" user_lower)%bool
      then duration_value * 60
      else duration_value
  | None => 60
  end.

Definition extract_concert_type (user_lower : string) : string :=
  if any_in ["jazz"; "blues"; "swing"; "bebop"] user_lower
  then "jazz_concert"
  else if any_in ["classical"; "baroque"; "romantic"; "sonata"; "concerto"]
            user_lower
  then "classical_recital"
  else if any_in ["chamber"; "quartet"; "trio"; "ensemble"] user_lower
  then "chamber_music"
  else "jazz_concert".

Record setlist_parameters : Type := {
  param_concert_type : string;
  param_duration_minutes : Z
}.

Definition _extract_setlist_parameters (user_input : string)
    : setlist_parameters :=
  let user_lower := lower user_input in
  {| param_concert_type := extract_concert_type user_lower;
     param_duration_minutes := extract_duration user_lower |}.

End Extractor.

(** ** PreferenceCollector: the session store of [ChatSetlistService]

    The texts of the chat messages, the rationale strings and the time
    stamps are presentation only and are left out of the records.  The
    identifier drawn by [uuid.uuid4] is an argument. *)

Module Collector.
Import PyStr Extractor.

(** An entry of the static catalogue.  Every entry carries the six keys
    below, so the defaults of [piece.get] are never taken.
    [collaborative_score] is the key that [_filter_pieces_by_preferences]
    adds to the dictionary. *)
Record piece : Type := {
  title : string;
  composer : string;
  duration_minutes : Z;
  genre : string;
  style : string;
  difficulty : string;
  collaborative_score : option Z
}.

#[export] Instance piece_eq_dec : EqDecision piece.
Proof. solve_decision. Defined.

Record response : Type := {
  user_id : string;
  username : string;
  preference_text : string;
  preferences : preference_record
}.

Record setlist_data : Type := {
  total_duration : Z;
  pieces : list piece
}.

Inductive request_status : Type :=
| collecting_preferences
| completed.

Record request : Type := {
  group_id : string;
  conversation_id : string;
  organizer_user_id : string;
  group_member_ids : list string;
  req_duration_minutes : Z;
  req_concert_type : string;
  status : request_status;
  responses_received : list string;
  req_setlist_data : option setlist_data
}.

Record service : Type := {
  active_requests : gmap string request;
  group_responses : gmap string (list response)
}.

Definition new_service : service :=
  {| active_requests := ∅; group_responses := ∅ |}.

Inductive action : Type :=
| ask_preferences
| waiting_for_responses
| setlist_complete
| error_not_found
| error_processing
| error_generating.

Record result : Type := {
  success : bool;
  result_action : action;
  result_setlist_id : option string;
  waiting : bool;
  required_responses : list string;
  result_setlist_data : option setlist_data
}.

Definition error_result (a : action) : result :=
  {| success := false; result_action := a; result_setlist_id := None;
     waiting := false; required_responses := [];
     result_setlist_data := None |}.

(** *** [handle_setlist_request] *)

Definition handle_setlist_request (st : service)
    (user_input group_id conversation_id organizer_user_id : string)
    (group_member_ids : list string) (setlist_id : string)
    : service * result :=
  let params := _extract_setlist_parameters user_input in
  let request :=
    {| group_id := group_id;
       conversation_id := conversation_id;
       organizer_user_id := organizer_user_id;
       group_member_ids := group_member_ids;
       req_duration_minutes := param_duration_minutes params;
       req_concert_type := param_concert_type params;
       status := collecting_preferences;
       responses_received := [];
       req_setlist_data := None |} in
  ({| active_requests := <[setlist_id := request]> (active_requests st);
      group_responses := <[setlist_id := []]> (group_responses st) |},
   {| success := true; result_action := ask_preferences;
      result_setlist_id := Some setlist_id; waiting := true;
      required_responses := group_member_ids;
      result_setlist_data := None |}).

(** *** [_analyze_group_preferences] *)

Record group_analysis : Type := {
  common_genres : list string;
  common_composers : list string;
  all_genres : list string;
  all_composers : list string;
  ga_instruments : list string;
  skill_levels : list string;
  ga_avoid_genres : list string;
  ga_avoid_composers : list string;
  start_preferences : list string;
  end_preferences : list string;
  ga_specific_genres : list string;
  compatibility_score : Q;
  group_size : Z
}.

(** [list(set(xs))]; the order of the result is not specified in Python
    either, only membership is used. *)
Definition list_set (xs : list string) : list string :=
  elements (list_to_set xs : gset string).

(** The keys of [Counter(xs)], in order of first occurrence *)
Fixpoint counter_keys (seen xs : list string) : list string :=
  match xs with
  | [] => []
  | x :: t =>
      if bool_decide (x ∈ seen) then counter_keys seen t
      else x :: counter_keys (x :: seen) t
  end.

Definition counter_count (xs : list string) (x : string) : Z :=
  Z.of_nat (length (List.filter (fun y => bool_decide (y = x)) xs)).

(** [[x for x, count in Counter(xs).items() if count > 1]] *)
Definition common (xs : list string) : list string :=
  List.filter (fun x => 1 <? counter_count xs x) (counter_keys [] xs).

(** [if prefs.get(key): out.append(prefs[key])] *)
Definition truthy_hint (h : option string) : list string :=
  match h with
  | Some (String c t) => [String c t]
  | _ => []
  end.

(** [min(0.9, 0.5 + 0.1 * n_genres + 0.1 * n_composers)] *)
Definition compatibility (n_genres n_composers : nat) : Q :=
  let raw := ((1 # 2) + inject_Z (Z.of_nat n_genres) * (1 # 10)
              + inject_Z (Z.of_nat n_composers) * (1 # 10))%Q in
  if Qle_bool (9 # 10) raw then (9 # 10)%Q else raw.

Definition _analyze_group_preferences (responses : list response)
    : group_analysis :=
  let prefs := map preferences responses in
  let all_genres := flat_map favorite_genres prefs in
  let all_composers := flat_map favorite_composers prefs in
  let common_genres := common all_genres in
  let common_composers := common all_composers in
  {| common_genres := common_genres;
     common_composers := common_composers;
     all_genres := list_set all_genres;
     all_composers := list_set all_composers;
     ga_instruments := list_set (flat_map instruments prefs);
     skill_levels := list_set (map skill_level prefs);
     ga_avoid_genres := list_set (flat_map avoid_genres prefs);
     ga_avoid_composers := list_set (flat_map avoid_composers prefs);
     start_preferences :=
       flat_map (fun p => truthy_hint (start_preference p)) prefs;
     end_preferences :=
       flat_map (fun p => truthy_hint (end_preference p)) prefs;
     ga_specific_genres := list_set (flat_map specific_genres prefs);
     compatibility_score :=
       compatibility (length common_genres) (length common_composers);
     group_size := Z.of_nat (length responses) |}.

(** *** The static catalogues *)

Definition entry (t c : string) (d : Z) (g s lvl : string) : piece :=
  {| title := t; composer := c; duration_minutes := d; genre := g;
     style := s; difficulty := lvl; collaborative_score := None |}.

Definition _generate_jazz_setlist : list piece :=
  [ entry "Blue in Green" "Miles Davis" 5 "jazz" "ballad" "intermediate";
    entry "Autumn Leaves" "Joseph Kosma" 4 "jazz" "ballad" "intermediate";
    entry "All the Things You Are" "Jerome Kern" 6 "jazz" "ballad" "advanced";
    entry "Body and Soul" "Johnny Green" 5 "jazz" "ballad" "intermediate";
    entry "Round Midnight" "Thelonious Monk" 6 "jazz" "ballad" "advanced";
    entry "Blue Bossa" "Kenny Dorham" 4 "jazz" "medium" "intermediate";
    entry "Cantaloupe Island" "Herbie Hancock" 5 "jazz" "medium" "intermediate";
    entry "Song for My Father" "Horace Silver" 4 "jazz" "medium" "intermediate";
    entry "Maiden Voyage" "Herbie Hancock" 6 "jazz" "medium" "advanced";
    entry "All Blues" "Miles Davis" 5 "jazz" "up-tempo" "intermediate";
    entry "So What" "Miles Davis" 6 "jazz" "up-tempo" "advanced";
    entry "Giant Steps" "John Coltrane" 5 "jazz" "up-tempo" "advanced";
    entry "Take Five" "Paul Desmond" 5 "jazz" "up-tempo" "intermediate";
    entry "Blue Monk" "Thelonious Monk" 4 "blues" "medium" "intermediate";
    entry "Straight No Chaser" "Thelonious Monk" 5 "blues" "up-tempo"
      "intermediate";
    entry "Blue Train" "John Coltrane" 6 "blues" "up-tempo" "advanced";
    entry "Confirmation" "Charlie Parker" 4 "bebop" "up-tempo" "advanced";
    entry "Donna Lee" "Charlie Parker" 5 "bebop" "up-tempo" "advanced";
    entry "Anthropology" "Charlie Parker" 4 "bebop" "up-tempo" "advanced";
    entry "Hot House" "Tadd Dameron" 5 "bebop" "up-tempo" "advanced";
    entry "Ornithology" "Charlie Parker" 4 "bebop" "up-tempo" "advanced";
    entry "Tenor Madness" "Sonny Rollins" 5 "blues" "medium" "intermediate";
    entry "Blues Walk" "Lou Donaldson" 4 "blues" "medium" "intermediate";
    entry "Blues for Alice" "Charlie Parker" 5 "blues" "medium" "advanced" ].

Definition _generate_classical_setlist : list piece :=
  [ entry "Prelude and Fugue in C Major" "J.S. Bach" 6 "classical" "baroque"
      "advanced";
    entry "Air on the G String" "J.S. Bach" 4 "classical" "baroque"
      "intermediate";
    entry "Sonata in C Major" "Mozart" 8 "classical" "classical" "advanced";
    entry (String "F" (String "252"%char "r Elise")) "Beethoven" 3
      "classical" "classical" "intermediate";
    entry "Nocturne in E-flat Major" "Chopin" 5 "classical" "romantic"
      "advanced";
    entry "Clair de Lune" "Debussy" 5 "classical" "romantic" "advanced" ].

Definition _generate_chamber_setlist : list piece :=
  [ entry "String Quartet No. 14" "Mozart" 8 "chamber" "classical" "advanced";
    entry "Piano Trio No. 1" "Brahms" 10 "chamber" "romantic" "advanced";
    entry "Wind Quintet" "Nielsen" 6 "chamber" "modern" "advanced" ].

Definition catalogue (concert_type : string) : list piece :=
  if String.eqb concert_type "jazz_concert" then _generate_jazz_setlist
  else if String.eqb concert_type "classical_recital"
  then _generate_classical_setlist
  else if String.eqb concert_type "chamber_music"
  then _generate_chamber_setlist
  else _generate_jazz_setlist.

(** *** [_filter_pieces_by_preferences] *)

(** [any(x.lower() in field for x in xs)] *)
Definition any_lower_in (xs : list string) (field : string) : bool :=
  existsb (fun x => isin (lower x) field) xs.

Definition is_avoided (ga : group_analysis) (p : piece) : bool :=
  (any_lower_in (ga_avoid_genres ga) (lower (genre p))
   || any_lower_in (ga_avoid_composers ga) (lower (composer p)))%bool.

(** The analysis never carries the key [preferred_tempo], so
    [group_analysis.get("preferred_tempo", "moderate")] is its default. *)
Definition group_tempo : string := "moderate".

Definition tempo_matches (piece_style : string) : bool :=
  ((String.eqb group_tempo "fast" && String.eqb piece_style "up-tempo")
   || (String.eqb group_tempo "slow" && String.eqb piece_style "ballad")
   || (String.eqb group_tempo "moderate" && String.eqb piece_style "medium"))%bool.

Definition preference_score (ga : group_analysis) (p : piece) : Z :=
  (if any_lower_in (common_genres ga) (lower (genre p)) then 3 else 0)
  + (if any_lower_in (common_composers ga) (lower (composer p))
     then 5 else 0)
  + (if bool_decide (difficulty p ∈ skill_levels ga) then 2 else 0)
  + (if tempo_matches (style p) then 1 else 0).

Definition with_score (ga : group_analysis) (p : piece) : piece :=
  {| title := title p; composer := composer p;
     duration_minutes := duration_minutes p; genre := genre p;
     style := style p; difficulty := difficulty p;
     collaborative_score := Some (preference_score ga p) |}.

(** [x.get("collaborative_score", 0)] *)
Definition score_of (p : piece) : Z := default 0 (collaborative_score p).

(** [list.sort(key=..., reverse=True)]: descending and stable *)
Fixpoint insert_desc (x : piece) (l : list piece) : list piece :=
  match l with
  | [] => [x]
  | y :: t =>
      if score_of x <? score_of y then y :: insert_desc x t else x :: l
  end.

Definition sort_desc (l : list piece) : list piece :=
  foldr insert_desc [] l.

Definition _filter_pieces_by_preferences (pieces : list piece)
    (ga : group_analysis) : list piece :=
  sort_desc
    (map (with_score ga)
       (List.filter (fun p => negb (is_avoided ga p)) pieces)).

(** *** [_select_pieces_for_duration] *)

Definition matches_genre (preference : string) (p : piece) : bool :=
  isin (lower preference) (lower (genre p)).

(** For every hint in order, the first piece of the pool it matches *)
Definition hinted_pieces (hints : list string) (pool : list piece)
    : list piece :=
  flat_map
    (fun preference =>
       match List.find (matches_genre preference) pool with
       | Some p => [p]
       | None => []
       end)
    hints.

(** [list.remove(x)] *)
Fixpoint remove_first (x : piece) (l : list piece) : list piece :=
  match l with
  | [] => []
  | y :: t => if decide (y = x) then t else y :: remove_first x t
  end.

(** [d <= target * 0.9] on integers: the durations and the target are
    integers, and an integer is at most the float [target * 0.9] exactly
    when ten times it is at most nine times the target. *)
Definition within_90 (d target : Z) : bool := 10 * d <=? 9 * target.

(** The loop over the middle pieces, with its [continue] and [break] *)
Fixpoint add_middle (pool end_pieces : list piece) (target : Z)
    (selected : list piece) (current : Z) : list piece * Z :=
  match pool with
  | [] => (selected, current)
  | p :: rest =>
      if bool_decide (p ∈ end_pieces)
      then add_middle rest end_pieces target selected current
      else if within_90 (current + duration_minutes p) target
      then add_middle rest end_pieces target (selected ++ [p])%list
             (current + duration_minutes p)
      else (selected, current)
  end.

Definition add_start (pool start_pieces : list piece) (target : Z)
    : list piece * Z * list piece :=
  match start_pieces with
  | start_piece :: _ =>
      if within_90 (duration_minutes start_piece) target
      then ([start_piece], duration_minutes start_piece,
            remove_first start_piece pool)
      else ([], 0, pool)
  | [] => ([], 0, pool)
  end.

Definition add_end (end_pieces : list piece) (target : Z)
    (selected : list piece) (current : Z) : list piece * Z :=
  match end_pieces with
  | end_piece :: _ =>
      if (10 * current <? 9 * target)
         && within_90 (current + duration_minutes end_piece) target
      then ((selected ++ [end_piece])%list, current + duration_minutes end_piece)
      else (selected, current)
  | [] => (selected, current)
  end.

Definition select_with_total (pool : list piece) (target_duration : Z)
    (ga : group_analysis) : list piece * Z :=
  let start_pieces := hinted_pieces (start_preferences ga) pool in
  let end_pieces := hinted_pieces (end_preferences ga) pool in
  let '(selected, current, pool') :=
    add_start pool start_pieces target_duration in
  let '(selected, current) :=
    add_middle pool' end_pieces target_duration selected current in
  add_end end_pieces target_duration selected current.

Definition _select_pieces_for_duration (pool : list piece)
    (target_duration : Z) (ga : group_analysis) : list piece :=
  fst (select_with_total pool target_duration ga).

Definition _generate_setlist_pieces (ga : group_analysis)
    (duration_minutes : Z) (concert_type : string) : list piece :=
  let filtered_pieces :=
    _filter_pieces_by_preferences (catalogue concert_type) ga in
  _select_pieces_for_duration filtered_pieces duration_minutes ga.

(** [sum(piece.get("duration_minutes", 5) for piece in pieces)]; every
    catalogue entry carries its duration. *)
Definition sum_durations (l : list piece) : Z :=
  foldr (fun p acc => duration_minutes p + acc) 0 l.

(** *** [_generate_collaborative_setlist] and
        [handle_preference_response] *)

Definition _generate_collaborative_setlist (st : service)
    (setlist_id : string) : service * result :=
  match active_requests st !! setlist_id, group_responses st !! setlist_id with
  | Some request, Some responses =>
      let ga := _analyze_group_preferences responses in
      let setlist_pieces :=
        _generate_setlist_pieces ga (req_duration_minutes request)
          (req_concert_type request) in
      let data :=
        {| total_duration := sum_durations setlist_pieces;
           pieces := setlist_pieces |} in
      let request' :=
        {| group_id := group_id request;
           conversation_id := conversation_id request;
           organizer_user_id := organizer_user_id request;
           group_member_ids := group_member_ids request;
           req_duration_minutes := req_duration_minutes request;
           req_concert_type := req_concert_type request;
           status := completed;
           responses_received := responses_received request;
           req_setlist_data := Some data |} in
      ({| active_requests := <[setlist_id := request']> (active_requests st);
          group_responses := group_responses st |},
       {| success := true; result_action := setlist_complete;
          result_setlist_id := Some setlist_id; waiting := false;
          required_responses := []; result_setlist_data := Some data |})
  | _, _ => (st, error_result error_generating)
  end.

Definition remaining_users (request : request) : gset string :=
  list_to_set (group_member_ids request)
  ∖ list_to_set (responses_received request).

Definition handle_preference_response (st : service)
    (setlist_id user_id username preference_text : string)
    : service * result :=
  match active_requests st !! setlist_id with
  | None => (st, error_result error_not_found)
  | Some request =>
      let parsed_preferences := _parse_preference_text preference_text in
      let response_data :=
        {| user_id := user_id; username := username;
           preference_text := preference_text;
           preferences := parsed_preferences |} in
      match group_responses st !! setlist_id with
      | None => (st, error_result error_processing)
      | Some responses =>
          let request' :=
            {| group_id := group_id request;
               conversation_id := conversation_id request;
               organizer_user_id := organizer_user_id request;
               group_member_ids := group_member_ids request;
               req_duration_minutes := req_duration_minutes request;
               req_concert_type := req_concert_type request;
               status := status request;
               responses_received :=
                 (responses_received request ++ [user_id])%list;
               req_setlist_data := req_setlist_data request |} in
          let st' :=
            {| active_requests :=
                 <[setlist_id := request']> (active_requests st);
               group_responses :=
                 <[setlist_id := (responses ++ [response_data])%list]>
                   (group_responses st) |} in
          if decide (remaining_users request' = ∅)
          then _generate_collaborative_setlist st' setlist_id
          else (st',
                {| success := true; result_action := waiting_for_responses;
                   result_setlist_id := Some setlist_id; waiting := true;
                   required_responses := elements (remaining_users request');
                   result_setlist_data := None |})
      end
  end.

(** A submission as it reaches [handle_preference_response] *)
Record submission : Type := {
  sub_user_id : string;
  sub_username : string;
  sub_text : string
}.

Definition submit (setlist_id : string) (st : service) (s : submission)
    : service :=
  fst (handle_preference_response st setlist_id (sub_user_id s)
         (sub_username s) (sub_text s)).

Definition submit_all (setlist_id : string) (st : service)
    (subs : list submission) : service :=
  fold_left (submit setlist_id) subs st.


(** *** Vocabulary of the statements *)


Definition stored_response (s : submission) : response :=
  {| user_id := sub_user_id s; username := sub_username s;
     preference_text := sub_text s;
     preferences := _parse_preference_text (sub_text s) |}.

Definition responses_of (st : service) (setlist_id : string)
    : list response :=
  default [] (group_responses st !! setlist_id).

Definition say (user text : string) : submission :=
  {| sub_user_id := user; sub_username := user; sub_text := text |}.

(** A store holding one fresh session, with identifier "sid" *)
Definition open_session (user_input : string) (members : list string)
    : service :=
  fst (handle_setlist_request new_service user_input "group" "conversation"
         "organizer" members "sid").



(** What the three stages of the selection preserve: the pieces come
    from the pool, the running total is the sum of their durations, and
    the total stays within nine tenths of the target. *)
Definition selection_ok (pool : list piece) (target : Z)
    (selected : list piece) (current : Z) : Prop :=
  (forall p, In p selected -> In p pool)
  /\ sum_durations selected = current
  /\ 10 * current <= 9 * target.

(** The piece reserved for the opening slot *)
Definition reserved_opening (pool : list piece) (ga : group_analysis)
    : option piece :=
  head (hinted_pieces (start_preferences ga) pool).

End Collector.

(** ** Advisors and the Coordinator pipeline

    [Requirements] is the validated request of the design endpoint: the
    request model makes [concert_type], [duration_minutes],
    [instruments] and [skill_level] required fields, so every key the
    advisors index is present.  A piece is a dictionary an advisor
    returns; any of its keys may be missing.  The conversation logs of the
    advisors and the prompt texts are left out: an oracle answers for the
    text-completion service. *)

Module Coordinator.

(** *** Exceptions *)

Inductive outcome (A : Type) : Type :=
| Ok (a : A)
| Raised.
Arguments Ok {A} a.
Arguments Raised {A}.

Definition bind {A B : Type} (m : outcome A) (f : A -> outcome B)
    : outcome B :=
  match m with
  | Ok a => f a
  | Raised => Raised
  end.

Notation "'do' x <- m ; k" := (bind m (fun x => k))
  (at level 10, x name, m at level 100, k at level 200).

(** [try: m  except Exception: handler] *)
Definition try_except {A : Type} (m : outcome A) (handler : A) : A :=
  match m with
  | Ok a => a
  | Raised => handler
  end.

(** *** Data *)

Record requirements : Type := {
  user_id : string;
  concert_type : string;
  duration_minutes : Z;
  instruments : list string;
  skill_level : string
}.

(** What a dictionary holds under ["duration_minutes"]: an integer, or a
    value that is not a number (None, a text). *)
Inductive duration_value : Type :=
| Minutes (n : Z)
| NotNumeric.

Record piece : Type := {
  title : option string;
  composer : option string;
  piece_duration : option duration_value;
  difficulty_level : option string;
  key_signature : option string;
  piece_instruments : option (list string);
  genre : option string;
  reasoning : option string
}.

#[export] Instance duration_value_eq_dec : EqDecision duration_value.
Proof. solve_decision. Defined.

#[export] Instance piece_eq_dec : EqDecision piece.
Proof. solve_decision. Defined.

(** An evaluation; a score field, when present, holds a number. *)
Record evaluation : Type := {
  recommendation : option string;
  confidence : option Q;
  technical_score : option Q;
  flow_score : option Q;
  musical_fit : option Q
}.

Record analysis : Type := {
  curation_notes : list string;
  max_difficulty : option Z;
  recommended_pieces : option Z
}.

Record context : Type := {
  own_analysis : option analysis;
  other_analyses : list (string * option analysis)
}.

(** The capability interface of [BaseSetlistAgent] *)
Record agent : Type := {
  analyze_requirements : requirements -> outcome analysis;
  suggest_pieces : requirements -> context -> outcome (list piece);
  evaluate_piece : piece -> requirements -> outcome evaluation
}.

(** *** The text-completion service, as seen through [call_llm] *)

Inductive llm_request : Type :=
| AskSuggestions (advisor : string)
| AskEvaluation (advisor : string) (piece_title : option string).

(** [None] stands for [{"success": False, ...}] *)
Definition llm : Type := llm_request -> option string.

Definition llm_unavailable : llm := fun _ => None.

(** *** The three advisors *)

Definition make_piece (t c : string) (d : Z) (r : requirements)
    (g why : string) : piece :=
  {| title := Some t; composer := Some c;
     piece_duration := Some (Minutes d);
     difficulty_level := Some (skill_level r);
     key_signature := Some "C major";
     piece_instruments := Some (instruments r);
     genre := Some g; reasoning := Some why |}.

Definition make_evaluation (conf : Q) (technical flow fit : option Q)
    : evaluation :=
  {| recommendation := Some "include"; confidence := Some conf;
     technical_score := technical; flow_score := flow;
     musical_fit := fit |}.

Module Curator.

Definition _generate_curation_notes (r : requirements) : list string :=
  ((if String.eqb (concert_type r) "classical_recital"
    then ["Focus on classical repertoire with appropriate difficulty progression"]
    else if String.eqb (concert_type r) "chamber_music"
    then ["Emphasize ensemble pieces with good balance between instruments"]
    else if String.eqb (concert_type r) "solo_performance"
    then ["Select pieces that showcase individual technique and expression"]
    else [])
   ++ (if String.eqb (skill_level r) "beginner"
       then ["Choose pieces with simple technical demands and clear musical structure"]
       else if String.eqb (skill_level r) "advanced"
       then ["Include challenging pieces that demonstrate virtuosity"]
       else [])
   ++ (if duration_minutes r <? 30
       then ["Select shorter pieces to fit time constraint"]
       else if 90 <? duration_minutes r
       then ["Include longer works and consider intermission placement"]
       else []))%list.

Definition _parse_piece_suggestions (content : string) (r : requirements)
    : list piece :=
  if String.eqb (concert_type r) "classical_recital"
  then [ {| title := Some "Sonata in C Major, K. 545";
            composer := Some "Mozart";
            piece_duration := Some (Minutes 15);
            difficulty_level := Some (skill_level r);
            key_signature := Some "C major";
            piece_instruments := Some (instruments r);
            genre := Some "classical";
            reasoning :=
              Some "Perfect opening piece - accessible yet elegant" |};
         {| title := Some "Nocturne in E-flat Major, Op. 9, No. 2";
            composer := Some "Chopin";
            piece_duration := Some (Minutes 4);
            difficulty_level := Some (skill_level r);
            key_signature := Some "E-flat major";
            piece_instruments := Some (instruments r);
            genre := Some "romantic";
            reasoning := Some "Beautiful lyrical piece for contrast" |} ]
  else [].

Definition _get_fallback_suggestions (r : requirements) : list piece :=
  [ make_piece "Sample Piece 1" "Sample Composer" 5 r "classical"
      "Fallback suggestion" ].

Definition _parse_evaluation (content : string) : evaluation :=
  make_evaluation (8 # 10) (Some (8 # 1)) None (Some (9 # 1)).

Definition _get_default_evaluation (p : piece) : evaluation :=
  make_evaluation (5 # 10) (Some (5 # 1)) None (Some (5 # 1)).

Definition make (service : llm) : agent :=
  {| analyze_requirements := fun r =>
       Ok {| curation_notes := _generate_curation_notes r;
             max_difficulty := None; recommended_pieces := None |};
     suggest_pieces := fun r _ =>
       match service (AskSuggestions "curator") with
       | None => Ok (_get_fallback_suggestions r)
       | Some content => Ok (_parse_piece_suggestions content r)
       end;
     evaluate_piece := fun p r =>
       match service (AskEvaluation "curator" (title p)) with
       | None => Ok (_get_default_evaluation p)
       | Some content => Ok (_parse_evaluation content)
       end |}.

End Curator.

Module Technical.

Definition _get_max_difficulty (level : string) : Z :=
  if String.eqb level "beginner" then 3
  else if String.eqb level "intermediate" then 6
  else if String.eqb level "advanced" then 9
  else if String.eqb level "professional" then 10
  else 5.

Definition _parse_technical_suggestions (content : string)
    (r : requirements) : list piece :=
  [ make_piece "Technical Piece 1" "Technical Composer" 8 r "classical"
      "Technically appropriate for skill level" ].

Definition _get_fallback_technical_suggestions (r : requirements)
    : list piece :=
  [ make_piece "Technical Fallback Piece" "Technical Composer" 5 r
      "classical" "Technically safe choice" ].

(** [technical_difficulty_score] is not among the fields the
    Coordinator reads. *)
Definition _parse_technical_evaluation (content : string) : evaluation :=
  make_evaluation (8 # 10) None None None.

Definition _get_default_technical_evaluation (p : piece) : evaluation :=
  make_evaluation (5 # 10) None None None.

Definition make (service : llm) : agent :=
  {| analyze_requirements := fun r =>
       Ok {| curation_notes := [];
             max_difficulty := Some (_get_max_difficulty (skill_level r));
             recommended_pieces := None |};
     suggest_pieces := fun r _ =>
       match service (AskSuggestions "technical") with
       | None => Ok (_get_fallback_technical_suggestions r)
       | Some content => Ok (_parse_technical_suggestions content r)
       end;
     evaluate_piece := fun p r =>
       match service (AskEvaluation "technical" (title p)) with
       | None => Ok (_get_default_technical_evaluation p)
       | Some content => Ok (_parse_technical_evaluation content)
       end |}.

End Technical.

Module Flow.

Definition _design_program_structure (r : requirements) : Z :=
  if duration_minutes r <? 30 then 4
  else if duration_minutes r <? 60 then 6
  else 8.

Definition _parse_flow_suggestions (content : string) (r : requirements)
    : list piece :=
  [ make_piece "Flow Piece 1" "Flow Composer" 6 r "classical"
      "Perfect opening piece for program flow" ].

Definition _get_fallback_flow_suggestions (r : requirements) : list piece :=
  [ make_piece "Flow Fallback Piece" "Flow Composer" 5 r "classical"
      "Safe choice for program flow" ].

Definition _parse_flow_evaluation (content : string) : evaluation :=
  make_evaluation (8 # 10) None (Some (8 # 1)) None.

Definition _get_default_flow_evaluation (p : piece) : evaluation :=
  make_evaluation (5 # 10) None (Some (5 # 1)) None.

Definition make (service : llm) : agent :=
  {| analyze_requirements := fun r =>
       Ok {| curation_notes := []; max_difficulty := None;
             recommended_pieces := Some (_design_program_structure r) |};
     suggest_pieces := fun r _ =>
       match service (AskSuggestions "flow") with
       | None => Ok (_get_fallback_flow_suggestions r)
       | Some content => Ok (_parse_flow_suggestions content r)
       end;
     evaluate_piece := fun p r =>
       match service (AskEvaluation "flow" (title p)) with
       | None => Ok (_get_default_flow_evaluation p)
       | Some content => Ok (_parse_flow_evaluation content)
       end |}.

End Flow.

(** [self.agents], in the order of the dictionary *)
Definition agents (service : llm) : list (string * agent) :=
  [ ("curator", Curator.make service);
    ("technical", Technical.make service);
    ("flow", Flow.make service) ].

(** *** Phases 1 to 3 *)

Definition assoc {A : Type} (key : string) (table : list (string * A))
    : option A :=
  snd <$> List.find (fun kv => String.eqb (fst kv) key) table.

(** A failed analysis is recorded as [{"error": ...}], here [None]. *)
Definition _phase_analysis (ags : list (string * agent)) (r : requirements)
    : list (string * option analysis) :=
  map (fun na =>
         (fst na,
          match analyze_requirements (snd na) r with
          | Ok a => Some a
          | Raised => None
          end))
    ags.

Definition _phase_suggestions (ags : list (string * agent))
    (r : requirements) (analysis_results : list (string * option analysis))
    : list (string * list piece) :=
  map (fun na =>
         let ctx :=
           {| own_analysis :=
                match assoc (fst na) analysis_results with
                | Some a => a
                | None => None
                end;
              other_analyses :=
                List.filter (fun kv => negb (String.eqb (fst kv) (fst na)))
                  analysis_results |} in
         (fst na, try_except (suggest_pieces (snd na) r ctx) []))
    ags.

(** [title = piece.get("title", ""); if title and title not in seen_titles] *)
Fixpoint collect (seen_titles : gset string) (candidates : list piece)
    : list piece :=
  match candidates with
  | [] => []
  | p :: rest =>
      let t := default "" (title p) in
      if (negb (String.eqb t "") && negb (bool_decide (t ∈ seen_titles)))%bool
      then p :: collect (seen_titles ∪ {[t]}) rest
      else collect seen_titles rest
  end.

Definition _collect_unique_pieces
    (suggestion_results : list (string * list piece)) : list piece :=
  collect ∅ (flat_map snd suggestion_results).

Record eval_data : Type := {
  ed_piece : piece;
  ed_evaluation : evaluation;
  ed_agent : string
}.

Fixpoint evaluate_all (name : string) (a : agent) (all_pieces : list piece)
    (r : requirements) : outcome (list eval_data) :=
  match all_pieces with
  | [] => Ok []
  | p :: rest =>
      do e <- evaluate_piece a p r;
      do others <- evaluate_all name a rest r;
      Ok ({| ed_piece := p; ed_evaluation := e; ed_agent := name |}
          :: others)
  end.

Definition _phase_evaluation (ags : list (string * agent))
    (suggestion_results : list (string * list piece)) (r : requirements)
    : list (string * list eval_data) :=
  let all_pieces := _collect_unique_pieces suggestion_results in
  map (fun na =>
         (fst na,
          try_except (evaluate_all (fst na) (snd na) all_pieces r) []))
    ags.

(** *** Phase 4: scoring *)

Definition first_some (fields : list (option Q)) : option Q :=
  List.fold_right
    (fun f rest => match f with Some q => Some q | None => rest end)
    None fields.

Definition _extract_score_from_evaluation (e : evaluation) : Q :=
  match first_some [confidence e; technical_score e; flow_score e;
                    musical_fit e] with
  | Some q => q
  | None =>
      let r := default "exclude" (recommendation e) in
      if String.eqb r "include" then 8 # 1
      else if String.eqb r "modify" then 5 # 1
      else 2 # 1
  end.

(** An entry of [piece_scores] while the evaluations are added up *)
Record tally : Type := {
  tally_piece : piece;
  scores : list (string * Q);
  total_score : Q;
  evaluation_count : Z
}.

(** [d[key] = value] on a dictionary kept in insertion order *)
Fixpoint set_item {A : Type} (key : string) (value : A)
    (table : list (string * A)) : list (string * A) :=
  match table with
  | [] => [(key, value)]
  | (k, v) :: rest =>
      if String.eqb k key then (k, value) :: rest
      else (k, v) :: set_item key value rest
  end.

Definition new_tally (p : piece) : tally :=
  {| tally_piece := p; scores := []; total_score := 0;
     evaluation_count := 0 |}.

Definition add_score (agent_name : string) (score : Q) (t : tally) : tally :=
  {| tally_piece := tally_piece t;
     scores := set_item agent_name score (scores t);
     total_score := (total_score t + score)%Q;
     evaluation_count := evaluation_count t + 1 |}.

(** [piece.get("title", "unknown")] *)
Definition score_key (p : piece) : string := default "unknown" (title p).

Definition record_evaluation (table : list (string * tally)) (d : eval_data)
    : list (string * tally) :=
  let piece_title := score_key (ed_piece d) in
  let entry := default (new_tally (ed_piece d)) (assoc piece_title table) in
  set_item piece_title
    (add_score (ed_agent d)
       (_extract_score_from_evaluation (ed_evaluation d)) entry)
    table.

Record piece_data : Type := {
  pd_piece : piece;
  pd_scores : list (string * Q);
  pd_total_score : Q;
  pd_evaluation_count : Z;
  average_score : Q
}.

Definition with_average (t : tally) : piece_data :=
  {| pd_piece := tally_piece t;
     pd_scores := scores t;
     pd_total_score := total_score t;
     pd_evaluation_count := evaluation_count t;
     average_score :=
       if 0 <? evaluation_count t
       then (total_score t / inject_Z (evaluation_count t))%Q
       else 0%Q |}.

Definition all_evaluations
    (evaluation_results : list (string * list eval_data)) : list eval_data :=
  flat_map snd evaluation_results.

Definition _score_pieces
    (evaluation_results : list (string * list eval_data))
    : list (string * piece_data) :=
  map (fun kv => (fst kv, with_average (snd kv)))
    (fold_left record_evaluation (all_evaluations evaluation_results) []).

(** *** Phase 4: selection, ordering, metadata *)

Definition Qltb (x y : Q) : bool := negb (Qle_bool y x).

(** [sorted(..., key=average_score, reverse=True)]: descending, stable *)
Fixpoint insert_desc (x : piece_data) (l : list piece_data)
    : list piece_data :=
  match l with
  | [] => [x]
  | y :: t =>
      if Qltb (average_score x) (average_score y)
      then y :: insert_desc x t
      else x :: l
  end.

Definition sort_desc (l : list piece_data) : list piece_data :=
  foldr insert_desc [] l.

(** [piece.get("duration_minutes", 5)] *)
Definition duration_of (p : piece) : duration_value :=
  default (Minutes 5) (piece_duration p).

(** The selection loop; adding a value that is not a number to the
    running total raises. *)
Fixpoint select_loop (sorted_pieces : list piece_data) (target_duration : Z)
    (selected_pieces : list piece) (total_duration : Z)
    : outcome (list piece) :=
  match sorted_pieces with
  | [] => Ok selected_pieces
  | d :: rest =>
      match duration_of (pd_piece d) with
      | NotNumeric => Raised
      | Minutes n =>
          if total_duration + n <=? target_duration + 5
          then
            let selected' := (selected_pieces ++ [pd_piece d])%list in
            if (8 <=? length selected')%nat then Ok selected'
            else select_loop rest target_duration selected'
                   (total_duration + n)
          else select_loop rest target_duration selected_pieces
                 total_duration
      end
  end.

Definition _select_pieces_for_setlist
    (piece_scores : list (string * piece_data)) (r : requirements)
    : outcome (list piece) :=
  select_loop (sort_desc (map snd piece_scores)) (duration_minutes r) [] 0.

Definition is_gentle (p : piece) : bool :=
  match difficulty_level p with
  | Some lvl => (String.eqb lvl "beginner" || String.eqb lvl "intermediate")%bool
  | None => false
  end.

Definition _find_opening_piece (pieces : list piece) : option piece :=
  match List.find is_gentle pieces with
  | Some p => Some p
  | None => head pieces
  end.

(** [list.remove(x)] *)
Fixpoint remove_first (x : piece) (l : list piece) : list piece :=
  match l with
  | [] => []
  | y :: t => if decide (y = x) then t else y :: remove_first x t
  end.

Definition _order_pieces_for_flow (pieces : list piece) : list piece :=
  match _find_opening_piece pieces with
  | Some opening_piece => opening_piece :: remove_first opening_piece pieces
  | None => pieces
  end.

(** [sum(piece.get("duration_minutes", 5) for piece in pieces)] *)
Fixpoint sum_durations (pieces : list piece) : outcome Z :=
  match pieces with
  | [] => Ok 0
  | p :: rest =>
      match duration_of p with
      | NotNumeric => Raised
      | Minutes n => do s <- sum_durations rest; Ok (n + s)
      end
  end.

Record program : Type := {
  program_title : string;
  total_duration : Z;
  pieces : list piece
}.

Definition _generate_setlist_metadata (pieces : list piece)
    (r : requirements) : outcome (string * Z) :=
  do total <- sum_durations pieces;
  let heading := (PyStr.title (concert_type r) ++ " Program")%string in
  Ok (match pieces with
      | first :: _ =>
          (heading ++ " featuring " ++ default "Various" (composer first))%string
      | [] => heading
      end,
      total).

Definition _create_fallback_setlist (r : requirements) : program :=
  {| program_title := (concert_type r ++ " Program")%string;
     total_duration := 30;
     pieces :=
       [ {| title := Some "Sample Piece 1";
            composer := Some "Sample Composer";
            piece_duration := Some (Minutes 5);
            difficulty_level := Some (skill_level r);
            key_signature := Some "C major";
            piece_instruments := Some (instruments r);
            genre := Some "classical";
            reasoning := Some "Fallback suggestion" |} ] |}.

(** The body of the [try] of [_phase_synthesis] *)
Definition synthesize (evaluation_results : list (string * list eval_data))
    (r : requirements) : outcome program :=
  let piece_scores := _score_pieces evaluation_results in
  do selected_pieces <- _select_pieces_for_setlist piece_scores r;
  let ordered_pieces := _order_pieces_for_flow selected_pieces in
  do setlist_metadata <- _generate_setlist_metadata ordered_pieces r;
  Ok {| program_title := fst setlist_metadata;
        total_duration := snd setlist_metadata;
        pieces := ordered_pieces |}.

Definition _phase_synthesis
    (evaluation_results : list (string * list eval_data)) (r : requirements)
    : program :=
  try_except (synthesize evaluation_results r) (_create_fallback_setlist r).

(** [evaluation.get("confidence", 0.5)], averaged *)
Definition _calculate_overall_confidence
    (evaluation_results : list (string * list eval_data)) : Q :=
  let confidences :=
    map (fun d => default (1 # 2)%Q (confidence (ed_evaluation d)))
      (all_evaluations evaluation_results) in
  match confidences with
  | [] => (1 # 2)%Q
  | _ =>
      (List.fold_left Qplus confidences 0
       / inject_Z (Z.of_nat (length confidences)))%Q
  end.

(** *** [design_setlist]

    On these types no step outside the four phases can raise, so the
    outer handler of [design_setlist] is never entered and the result is
    the success record. *)

Record design_result : Type := {
  success : bool;
  setlist : program;
  design_confidence : Q
}.

Definition design_setlist (ags : list (string * agent)) (r : requirements)
    : design_result :=
  let analysis_results := _phase_analysis ags r in
  let suggestion_results := _phase_suggestions ags r analysis_results in
  let evaluation_results := _phase_evaluation ags suggestion_results r in
  let final_setlist := _phase_synthesis evaluation_results r in
  {| success := true;
     setlist := final_setlist;
     design_confidence :=
       _calculate_overall_confidence evaluation_results |}.

(** [design()] with the three advisors of the service *)
Definition design (service : llm) (r : requirements) : design_result :=
  design_setlist (agents service) r.

(** *** Vocabulary of the statements *)

(** The evaluations that reach phase 4 *)
Definition evaluations_of (ags : list (string * agent)) (r : requirements)
    : list (string * list eval_data) :=
  _phase_evaluation ags (_phase_suggestions ags r (_phase_analysis ags r)) r.

(** An advisor whose analysis raises *)
Definition with_failing_analysis (a : agent) : agent :=
  {| analyze_requirements := fun _ => Raised;
     suggest_pieces := suggest_pieces a;
     evaluate_piece := evaluate_piece a |}.

(** The three advisors when every call fails: the analysis raises and
    the text-completion service is unavailable, so proposing and
    evaluating take their fallback branch. *)
Definition failing_agents : list (string * agent) :=
  map (fun na => (fst na, with_failing_analysis (snd na)))
    (agents llm_unavailable).

(** An advisor outside the service whose every capability raises *)
Definition raising_agent : agent :=
  {| analyze_requirements := fun _ => Raised;
     suggest_pieces := fun _ _ => Raised;
     evaluate_piece := fun _ _ => Raised |}.

(** An advisor that proposes a piece whose duration is not a number *)
Definition careless_agent : agent :=
  {| analyze_requirements := fun _ => Raised;
     suggest_pieces := fun r _ =>
       Ok [ {| title := Some "Untimed"; composer := None;
               piece_duration := Some NotNumeric;
               difficulty_level := None; key_signature := None;
               piece_instruments := None; genre := None;
               reasoning := None |} ];
     evaluate_piece := fun p _ => Ok (Curator._get_default_evaluation p) |}.

Definition sample_requirements : requirements :=
  {| user_id := "teacher123"; concert_type := "jazz_concert";
     duration_minutes := 30; instruments := ["piano"];
     skill_level := "beginner" |}.

Definition Qsum (xs : list Q) : Q := fold_right Qplus 0%Q xs.

Definition mean (xs : list Q) : Q :=
  (Qsum xs / inject_Z (Z.of_nat (length xs)))%Q.

(** The scores extracted from the evaluations recorded under a title *)
Definition scores_for (piece_title : string) (evs : list eval_data)
    : list Q :=
  map (fun d => _extract_score_from_evaluation (ed_evaluation d))
    (List.filter (fun d => String.eqb (score_key (ed_piece d)) piece_title)
       evs).

Definition average_ge (a b : piece_data) : Prop :=
  (average_score b <= average_score a)%Q.

Definition is_numeric (p : piece) : Prop := duration_of p <> NotNumeric.

(** What the tallies hold once the evaluations [evs] are recorded *)
Definition tallies_agree (table : list (string * tally))
    (evs : list eval_data) : Prop :=
  forall k,
    match assoc k table with
    | Some t =>
        scores_for k evs <> []
        /\ (total_score t == Qsum (scores_for k evs))%Q
        /\ evaluation_count t = Z.of_nat (length (scores_for k evs))
    | None => scores_for k evs = []
    end.

End Coordinator.

(** ** Sessions over time and the status endpoint

    The calls that reach [ChatSetlistService] from [api/chat_setlist.py],
    as a sequence of operations on the store, and the read-only status
    report of [get_setlist_status]. *)

Module Sessions.
Import Extractor Collector.

Inductive operation : Type :=
| Open (user_input group conversation organizer : string)
    (members : list string) (setlist_id : string)
| Respond (setlist_id user_id username preference_text : string).

Definition perform (st : service) (op : operation) : service :=
  match op with
  | Open user_input group conversation organizer members setlist_id =>
      fst (handle_setlist_request st user_input group conversation organizer
             members setlist_id)
  | Respond setlist_id user_id username preference_text =>
      fst (handle_preference_response st setlist_id user_id username
             preference_text)
  end.

(** The store after a history of calls, from the empty store *)
Definition run (ops : list operation) : service :=
  fold_left perform ops new_service.

(** The request after [request["responses_received"].append(user_id)] *)
Definition with_response (rq : request) (user_id : string) : request :=
  {| group_id := group_id rq;
     conversation_id := conversation_id rq;
     organizer_user_id := organizer_user_id rq;
     group_member_ids := group_member_ids rq;
     req_duration_minutes := req_duration_minutes rq;
     req_concert_type := req_concert_type rq;
     status := status rq;
     responses_received := (responses_received rq ++ [user_id])%list;
     req_setlist_data := req_setlist_data rq |}.

(** The setlist that [_generate_collaborative_setlist] builds *)
Definition generated_data (rq : request) (rs : list response)
    : setlist_data :=
  let setlist_pieces :=
    _generate_setlist_pieces (_analyze_group_preferences rs)
      (req_duration_minutes rq) (req_concert_type rq) in
  {| Collector.total_duration := sum_durations setlist_pieces;
     Collector.pieces := setlist_pieces |}.

(** The request after [_generate_collaborative_setlist] has attached
    the setlist *)
Definition completed_with (rq : request) (data : setlist_data) : request :=
  {| group_id := group_id rq;
     conversation_id := conversation_id rq;
     organizer_user_id := organizer_user_id rq;
     group_member_ids := group_member_ids rq;
     req_duration_minutes := req_duration_minutes rq;
     req_concert_type := req_concert_type rq;
     status := completed;
     responses_received := responses_received rq;
     req_setlist_data := Some data |}.

Definition new_response (user_id username preference_text : string)
    : response :=
  {| user_id := user_id; username := username;
     preference_text := preference_text;
     preferences := _parse_preference_text preference_text |}.

(** What holds of every stored session *)
Record session_ok (rq : request) (rs : list response) : Prop := {
  received_mirror : responses_received rq = map user_id rs;
  duration_nonneg : 0 <= req_duration_minutes rq;
  completed_has_data :
    status rq = completed <-> is_Some (req_setlist_data rq);
  completed_all_in :
    status rq = completed ->
    forall u, In u (group_member_ids rq) -> In u (responses_received rq);
  data_consistent :
    forall d, req_setlist_data rq = Some d ->
      Collector.total_duration d = sum_durations (Collector.pieces d)
      /\ 10 * Collector.total_duration d <= 9 * req_duration_minutes rq
}.

Definition store_ok (st : service) : Prop :=
  forall sid,
    match active_requests st !! sid, group_responses st !! sid with
    | Some rq, Some rs => session_ok rq rs
    | None, None => True
    | _, _ => False
    end.

(** *** [get_setlist_status] of [api/chat_setlist.py] *)

Record status_report : Type := {
  report_status : request_status;
  report_total_members : Z;
  report_responses_received : Z;
  report_remaining_responses : Z;
  report_setlist_data : option setlist_data
}.

(** [None] stands for the 404 answer *)
Definition get_setlist_status (st : service) (setlist_id : string)
    : option status_report :=
  match active_requests st !! setlist_id with
  | None => None
  | Some request =>
      let responses := default [] (group_responses st !! setlist_id) in
      Some {| report_status := status request;
              report_total_members :=
                Z.of_nat (length (group_member_ids request));
              report_responses_received := Z.of_nat (length responses);
              report_remaining_responses :=
                Z.of_nat (length (group_member_ids request))
                - Z.of_nat (length (responses_received request));
              report_setlist_data := req_setlist_data request |}
  end.

End Sessions.

(** ** Helpers of the advisors

    The derived constraints that the Technical Advisor and the Program
    Flow Director compute from the requirements; the descriptive texts
    of the dictionaries are left out. *)

Module Advice.
Import Coordinator.

(** [_assess_duration_limits]: [max_piece_length] and
    [recommended_pieces] *)
Definition _assess_duration_limits (duration_minutes : Z) : Z * Z :=
  if duration_minutes <? 30 then (8, 4)
  else if duration_minutes <? 60 then (15, 6)
  else (25, 8).

Definition warmup_of (instrument : string) : Z :=
  if existsb (String.eqb instrument) ["violin"; "cello"; "viola"; "bass"]
  then 10
  else if String.eqb instrument "piano" then 5
  else 7.

Definition total_warmup (instruments : list string) : Z :=
  fold_left (fun total instrument => total + warmup_of instrument)
    instruments 0.

Definition _estimate_warmup_time (instruments : list string) : Z :=
  Z.min (total_warmup instruments) 20.

Definition _design_tempo_progression (r : requirements) : list string :=
  if duration_minutes r <? 30
  then ["moderate"; "slow"; "fast"; "moderate"]
  else if duration_minutes r <? 60
  then ["moderate"; "slow"; "fast"; "moderate"; "slow"; "fast"]
  else ["moderate"; "slow"; "fast"; "moderate"; "slow"; "fast"; "moderate";
        "fast"].

Definition _design_energy_progression (r : requirements) : list string :=
  if duration_minutes r <? 30
  then ["building"; "sustained"; "peak"; "resolution"]
  else if duration_minutes r <? 60
  then ["building"; "sustained"; "peak"; "resolution"; "building"; "peak"]
  else ["building"; "sustained"; "peak"; "resolution"; "building";
        "sustained"; "peak"; "resolution"].

Definition _estimate_attention_span (duration_minutes : Z) : Z :=
  if duration_minutes <? 30 then 15
  else if duration_minutes <? 60 then 20
  else 25.

End Advice.

(** ** [SetlistDesignService]: the simple design of the endpoint

    [design_setlist] of [setlist_design_service.py] does not run the
    advisors; it fills the target duration from fixed templates. *)

Module DesignService.
Import Coordinator.

Record template : Type := {
  t_title : string;
  t_composer : string;
  t_duration : Z;
  t_key : string;
  t_genre : string
}.

Definition tpl (t c : string) (d : Z) (k g : string) : template :=
  {| t_title := t; t_composer := c; t_duration := d; t_key := k;
     t_genre := g |}.

Definition jazz_templates : list template :=
  [ tpl "Blue Note Blues" "Traditional" 8 "Bb major" "jazz";
    tpl "Autumn Leaves" "Joseph Kosma" 6 "Em" "jazz";
    tpl "All the Things You Are" "Jerome Kern" 7 "Ab major" "jazz";
    tpl "Take Five" "Paul Desmond" 5 "Eb minor" "jazz";
    tpl "So What" "Miles Davis" 9 "Dm" "jazz";
    tpl "Giant Steps" "John Coltrane" 6 "B major" "jazz";
    tpl "Round Midnight" "Thelonious Monk" 8 "Eb minor" "jazz";
    tpl "Blue in Green" "Miles Davis" 5 "Em" "jazz" ].

Definition classical_templates : list template :=
  [ tpl "Sonata in C Major" "Mozart" 12 "C major" "classical";
    tpl "Nocturne in Eb" "Chopin" 8 "Eb major" "classical";
    tpl "Prelude in C# Minor" "Rachmaninoff" 6 "C# minor" "classical";
    tpl "Etude Op. 10 No. 3" "Chopin" 5 "E major" "classical";
    tpl "Sonata Pathetique" "Beethoven" 15 "C minor" "classical";
    tpl "Clair de Lune" "Debussy" 7 "Db major" "classical" ].

Definition chamber_templates : list template :=
  [ tpl "String Quartet No. 14" "Mozart" 25 "G major" "classical";
    tpl "Piano Trio No. 1" "Brahms" 20 "B major" "classical";
    tpl "Wind Quintet" "Nielsen" 18 "A major" "classical" ].

(** [piece_templates.get(concert_type, piece_templates["jazz_concert"])] *)
Definition piece_templates (concert_type : string) : list template :=
  if String.eqb concert_type "jazz_concert" then jazz_templates
  else if String.eqb concert_type "classical_recital"
  then classical_templates
  else if String.eqb concert_type "chamber_music" then chamber_templates
  else jazz_templates.

(** [sep.join(items)] *)
Fixpoint join (sep : string) (items : list string) : string :=
  match items with
  | [] => ""
  | [x] => x
  | x :: rest => (x ++ sep ++ join sep rest)%string
  end.

(** The dictionary of a selected template, with the keys the loop adds *)
Definition to_piece (skill_level : string) (instruments : list string)
    (t : template) : piece :=
  {| title := Some (t_title t);
     composer := Some (t_composer t);
     piece_duration := Some (Minutes (t_duration t));
     difficulty_level := Some skill_level;
     key_signature := Some (t_key t);
     piece_instruments := Some instruments;
     genre := Some (t_genre t);
     reasoning :=
       Some ("Selected for " ++ skill_level ++ " level performance with "
             ++ join ", " instruments)%string |}.

(** The loop of [_generate_simple_setlist]: a template is taken when it
    still fits, and the loop stops once nine tenths of the target are
    reached. *)
Fixpoint fill (available : list template) (duration_minutes : Z)
    (selected : list template) (current_duration : Z) : list template :=
  match available with
  | [] => selected
  | t :: rest =>
      let fits := current_duration + t_duration t <=? duration_minutes in
      let selected' := if fits then (selected ++ [t])%list else selected in
      let current' :=
        if fits then current_duration + t_duration t else current_duration in
      if 9 * duration_minutes <=? 10 * current' then selected'
      else fill rest duration_minutes selected' current'
  end.

Definition chosen_templates (concert_type : string) (duration_minutes : Z)
    : list template :=
  fill (piece_templates concert_type) duration_minutes [] 0.

Definition _generate_simple_setlist (concert_type : string)
    (duration_minutes : Z) (instruments : list string)
    (skill_level : string) : list piece :=
  map (to_piece skill_level instruments)
    (chosen_templates concert_type duration_minutes).

Record simple_design : Type := {
  sd_success : bool;
  sd_total_duration : Z;
  sd_pieces : list piece;
  sd_confidence : Q
}.

(** [design_setlist]; the handler answers with confidence 0.0 *)
Definition design_setlist (r : requirements) : simple_design :=
  let setlist_pieces :=
    _generate_simple_setlist (concert_type r) (duration_minutes r)
      (instruments r) (skill_level r) in
  match sum_durations setlist_pieces with
  | Ok total =>
      {| sd_success := true; sd_total_duration := total;
         sd_pieces := setlist_pieces; sd_confidence := (8 # 10)%Q |}
  | Raised =>
      {| sd_success := false; sd_total_duration := 0; sd_pieces := [];
         sd_confidence := 0%Q |}
  end.


End DesignService.

(** ** Vocabulary of the further properties *)

Module Notions.
Import PyStr Extractor Collector Sessions.

(** Whether a decimal digit occurs in the text *)
Fixpoint has_digit (s : string) : bool :=
  match s with
  | EmptyString => false
  | String c t => (is_digit c || has_digit t)%bool
  end.

(** The stored responses that list the genre among their favourites *)
Definition listing_genre (g : string) (rs : list response) : list response :=
  List.filter (fun r => bool_decide (g ∈ favorite_genres (preferences r)))
    rs.

(** The piece reserved for the closing slot *)
Definition reserved_closing (pool : list piece) (ga : group_analysis)
    : option piece :=
  head (hinted_pieces (end_preferences ga) pool).

(** The opening of the selection: the reserved piece when it fits *)
Definition opening_part (pool : list piece) (target : Z)
    (ga : group_analysis) : list piece :=
  match reserved_opening pool ga with
  | Some start_piece =>
      if within_90 (duration_minutes start_piece) target
      then [start_piece] else []
  | None => []
  end.

(** The candidates of the middle loop, in the order of the pool: the
    opening piece is removed once it is placed, and the pieces reserved
    for the end are passed over. *)
Definition middle_candidates (pool : list piece) (target : Z)
    (ga : group_analysis) : list piece :=
  List.filter
    (fun p =>
       negb (bool_decide (p ∈ hinted_pieces (end_preferences ga) pool)))
    (match opening_part pool target ga with
     | start_piece :: _ => remove_first start_piece pool
     | [] => pool
     end).

(** The attached setlist, if any, is the one generated from the stored
    responses *)
Definition session_current (rq : request) (rs : list response) : Prop :=
  forall d, req_setlist_data rq = Some d -> d = generated_data rq rs.

Definition store_current (st : service) : Prop :=
  forall sid rq rs,
    active_requests st !! sid = Some rq ->
    group_responses st !! sid = Some rs ->
    session_current rq rs.

End Notions.

(** ** Vocabulary of the further properties of the pipeline *)

Module PipelineNotions.
Import Coordinator.

(** Whether the piece carries the title *)
Definition has_title (t : string) (p : piece) : bool :=
  bool_decide (title p = Some t).

(** An advisor outside the service that proposes nothing and whose
    evaluation raises for one title *)
Definition fussy_agent : agent :=
  {| analyze_requirements := fun _ => Raised;
     suggest_pieces := fun _ _ => Ok [];
     evaluate_piece := fun p _ =>
       if has_title "Flow Fallback Piece" p then Raised
       else Ok (Curator._get_default_evaluation p) |}.

(** [evaluation.get("confidence", 0.5)] *)
Definition confidence_of (d : eval_data) : Q :=
  default (1 # 2)%Q (confidence (ed_evaluation d)).

(** The proposals of the three advisors of the service *)
Definition proposals (service : llm) (r : requirements) : list piece :=
  flat_map snd
    (_phase_suggestions (agents service) r
       (_phase_analysis (agents service) r)).

(** A text-completion service that answers every call *)
Definition llm_available : llm := fun _ => Some "text".

(** Whether the evaluation is recorded under the key *)
Definition filed_under (k : string) (d : eval_data) : bool :=
  String.eqb (score_key (ed_piece d)) k.

(** The candidates of the selection, best ranked first *)
Definition ranked_pieces (piece_scores : list (string * piece_data))
    : list piece :=
  map pd_piece (sort_desc (map snd piece_scores)).

End PipelineNotions.

(** ** Vocabulary of the properties of the simple design *)

Module DesignNotions.
Import Coordinator DesignService.


End DesignNotions.

(** * Verified properties *)

(** ** The preference extractor *)

Module ExtractorFacts.
Import PyStr Re Extractor.

Lemma any_in_app (ws1 ws2 : list string) (t : string) :
  any_in (ws1 ++ ws2) t = (any_in ws1 t || any_in ws2 t)%bool.
Proof. unfold any_in. apply existsb_app. Qed.

Lemma any_in_false_elem (ws : list string) (t w : string) :
  any_in ws t = false -> In w ws -> isin w t = false.
Proof.
  unfold any_in. intros Hnone Hw.
  destruct (isin w t) eqn:E; [| reflexivity].
  assert (existsb (fun w0 => isin w0 t) ws = true) as Habs
    by (apply existsb_exists; exists w; auto).
  congruence.
Qed.

Lemma keyword_hits_none (table : list (string * list string)) (t : string) :
  forallb (fun kv => negb (any_in (snd kv) t)) table = true ->
  keyword_hits table t = [].
Proof.
  unfold keyword_hits. induction table as [| kv table IH]; simpl; [easy |].
  intros H. apply andb_prop in H as [Hkv Hrest].
  destruct (any_in (snd kv) t); [discriminate |]. auto.
Qed.

Lemma stripped_matches_none (patterns : list regex) (t : string) :
  (forall p, In p patterns -> findall p t = []) ->
  stripped_matches patterns t = [].
Proof.
  unfold stripped_matches. induction patterns as [| p ps IH]; simpl; [easy |].
  intros H. rewrite (H p) by auto. simpl. apply IH. intros q Hq. apply H. auto.
Qed.

Lemma negated_composers_none (t : string) :
  any_in composer_names t = false -> negated_composers t = [].
Proof.
  intros H. unfold negated_composers.
  assert (forall names, (forall c, In c names -> isin c t = false) ->
            List.filter (fun c => (isin c t && negated_nearby c t)%bool) names
            = []) as Hfilter.
  { induction names as [| c names IH]; simpl; [easy |].
    intros Hn. rewrite (Hn c) by auto. simpl. apply IH. intros; apply Hn; auto. }
  rewrite Hfilter; [reflexivity |].
  intros c Hc. eapply any_in_false_elem; eauto.
Qed.

(** C6.  [_parse_preference_text] is a total function of the text: it
    yields a record for every input and has no failing step.  A field
    that the text does not resolve keeps its default: the skill level is
    "intermediate" when no skill word occurs, the lists of genres and
    instruments are empty when no keyword occurs, the lists of composers,
    avoided genres and avoided composers are empty when no pattern
    matches (and no composer name occurs), tempo and mood are [None]
    when none of their words occurs.  On the empty text every field is
    at its default. *)
Theorem extractor_defaults (text : string) :
  let t := lower text in
  let r := _parse_preference_text text in
  (any_in (beginner_words ++ advanced_words ++ professional_words) t = false ->
   skill_level r = "intermediate")
  /\ (forallb (fun kv => negb (any_in (snd kv) t)) genre_keywords = true ->
      favorite_genres r = [])
  /\ (forallb (fun kv => negb (any_in (snd kv) t)) instrument_keywords = true ->
      instruments r = [])
  /\ ((forall p, In p composer_patterns -> findall p t = []) ->
      favorite_composers r = [])
  /\ ((forall p, In p avoid_patterns -> findall p t = []) ->
      avoid_genres r = [])
  /\ ((forall p, In p avoid_composer_patterns -> findall p t = []) ->
      any_in composer_names t = false ->
      avoid_composers r = [])
  /\ (any_in (fast_words ++ slow_words ++ moderate_words) t = false ->
      tempo_preference r = None)
  /\ (any_in (energetic_words ++ relaxed_words ++ dramatic_words
              ++ happy_words) t = false ->
      mood_preference r = None)
  /\ _parse_preference_text "" = default_record.
Proof.
  cbv zeta. unfold _parse_preference_text. cbn [skill_level favorite_genres
    instruments favorite_composers avoid_genres avoid_composers
    tempo_preference mood_preference].
  repeat split.
  - rewrite !any_in_app. intros H.
    apply orb_false_elim in H as [Hb H]. apply orb_false_elim in H as [Ha Hp].
    unfold extract_skill_level. rewrite Hb, Ha, Hp. reflexivity.
  - apply keyword_hits_none.
  - apply keyword_hits_none.
  - intros H. rewrite stripped_matches_none by exact H. reflexivity.
  - intros H. rewrite stripped_matches_none by exact H. reflexivity.
  - intros H Hnames. rewrite stripped_matches_none by exact H.
    rewrite negated_composers_none by exact Hnames. reflexivity.
  - rewrite !any_in_app. intros H.
    apply orb_false_elim in H as [Hf H]. apply orb_false_elim in H as [Hs Hm].
    unfold extract_tempo. rewrite Hf, Hs, Hm. reflexivity.
  - rewrite !any_in_app. intros H.
    apply orb_false_elim in H as [He H]. apply orb_false_elim in H as [Hr H].
    apply orb_false_elim in H as [Hd Hh].
    unfold extract_mood. rewrite He, Hr, Hd, Hh. reflexivity.
Qed.

(** C10, as stated, fails: a text that mentions "virtuoso" (or "master")
    and none of the words of the two earlier branches is classified as
    "professional". *)
Lemma professional_is_produced :
  ~ (forall text,
       In (skill_level (_parse_preference_text text))
          ["beginner"; "intermediate"; "advanced"]).
Proof.
  intros H. specialize (H "virtuoso"). vm_compute in H.
  intuition discriminate.
Qed.

(** C10, amended.  The extracted skill level is one of "beginner",
    "intermediate", "advanced" and "professional"; it is "professional"
    exactly when the text has no word of the beginner branch, no word of
    the advanced branch, and contains "master" or "virtuoso".  The test
    for "expert" in the third branch never decides, the second branch
    having consumed it. *)
Theorem skill_level_values (text : string) :
  let t := lower text in
  let s := skill_level (_parse_preference_text text) in
  In s ["beginner"; "intermediate"; "advanced"; "professional"]
  /\ (s = "professional" <->
      any_in beginner_words t = false
      /\ any_in advanced_words t = false
      /\ (isin "master" t || isin "virtuoso" t)%bool = true).
Proof.
  cbv zeta. unfold _parse_preference_text. cbn [skill_level].
  unfold extract_skill_level.
  destruct (any_in beginner_words (lower text)) eqn:Hb;
    [ split; [simpl; auto | split; [discriminate | intros [? _]; discriminate]] |].
  destruct (any_in advanced_words (lower text)) eqn:Ha;
    [ split; [simpl; auto |
              split; [discriminate | intros (_ & ? & _); discriminate]] |].
  assert (isin "expert" (lower text) = false) as He
    by (eapply any_in_false_elem; [exact Ha | simpl; auto]).
  assert (any_in professional_words (lower text)
          = (isin "master" (lower text) || isin "virtuoso" (lower text))%bool)
    as Hp.
  { unfold any_in, professional_words. cbn [existsb]. rewrite He.
    rewrite orb_false_r. reflexivity. }
  rewrite Hp.
  destruct (isin "master" (lower text) || isin "virtuoso" (lower text))%bool.
  - split; [simpl; auto 10 | split; auto].
  - split; [simpl; auto |
            split; [discriminate | intros (_ & _ & ?); discriminate]].
Qed.

End ExtractorFacts.

(** ** The preference collector *)

Module CollectorFacts.
Import PyStr Extractor Collector.

Lemma remaining_empty_iff (rq : request) :
  remaining_users rq = ∅
  <-> (forall u, u ∈ group_member_ids rq -> u ∈ responses_received rq).
Proof.
  unfold remaining_users. split.
  - intros H u Hu.
    destruct (decide (u ∈ responses_received rq)) as [Hin | Hout];
      [exact Hin |].
    assert (u ∈ (∅ : gset string)) as Habs.
    { rewrite <- H. apply elem_of_difference.
      rewrite !elem_of_list_to_set. split; assumption. }
    exfalso. exact (not_elem_of_empty (C := gset string) u Habs).
  - intros H. apply set_eq. intros u.
    rewrite elem_of_difference, !elem_of_list_to_set. split.
    + intros [Hu Hn]. exfalso. apply Hn, H, Hu.
    + intros Hu. exfalso. exact (not_elem_of_empty (C := gset string) u Hu).
Qed.

(** One call of [handle_preference_response] on a stored session *)
Lemma submit_step (st : service) (sid : string) (rq : request)
    (rs : list response) (s : submission) :
  active_requests st !! sid = Some rq ->
  group_responses st !! sid = Some rs ->
  exists rq',
    active_requests (submit sid st s) !! sid = Some rq'
    /\ group_responses (submit sid st s) !! sid
       = Some (rs ++ [stored_response s])%list
    /\ group_member_ids rq' = group_member_ids rq
    /\ responses_received rq'
       = (responses_received rq ++ [sub_user_id s])%list
    /\ (status rq' = completed <->
        status rq = completed
        \/ (forall u, u ∈ group_member_ids rq ->
                      u ∈ (responses_received rq ++ [sub_user_id s])%list)).
Proof.
  intros Hrq Hrs. unfold submit, handle_preference_response.
  rewrite Hrq, Hrs. cbv zeta.
  match goal with |- context [decide (remaining_users ?r = ∅)] =>
    set (rq1 := r); destruct (decide (remaining_users rq1 = ∅)) as [He | Hne]
  end.
  - unfold _generate_collaborative_setlist. cbn [active_requests group_responses].
    rewrite !lookup_insert_eq. cbn [fst active_requests group_responses].
    rewrite !lookup_insert_eq.
    eexists. split; [reflexivity |]. split; [reflexivity |].
    cbn. split; [reflexivity |]. split; [reflexivity |].
    split; [| reflexivity]. intros _. right.
    exact (proj1 (remaining_empty_iff rq1) He).
  - cbn [fst active_requests group_responses]. rewrite !lookup_insert_eq.
    eexists. split; [reflexivity |]. split; [reflexivity |].
    cbn. split; [reflexivity |]. split; [reflexivity |].
    split; [auto |]. intros [H | H]; [exact H |].
    exfalso. apply Hne. exact (proj2 (remaining_empty_iff rq1) H).
Qed.





(** *** Submissions are appended *)

Lemma counter_count_app (xs ys : list string) (x : string) :
  counter_count (xs ++ ys) x = counter_count xs x + counter_count ys x.
Proof.
  unfold counter_count. rewrite List.filter_app, length_app. lia.
Qed.

(** C5, as stated, fails: a second submission of the same participant is
    stored next to the first one and counted again.  One participant who
    says "I love jazz" twice makes jazz a common genre of a group of
    two. *)
Lemma resubmission_is_counted :
  let fresh := open_session "30 minute jazz set" ["u1"; "u2"] in
  let once := submit_all "sid" fresh [say "u1" "I love jazz"] in
  let twice :=
    submit_all "sid" fresh [say "u1" "I love jazz"; say "u1" "I love jazz"] in
  responses_of twice "sid" <> responses_of once "sid"
  /\ group_size (_analyze_group_preferences (responses_of twice "sid")) = 2
  /\ group_size (_analyze_group_preferences (responses_of once "sid")) = 1
  /\ common_genres (_analyze_group_preferences (responses_of twice "sid"))
     = ["jazz"]
  /\ common_genres (_analyze_group_preferences (responses_of once "sid"))
     = [].
Proof.
  cbv zeta. split.
  - intros H. apply (f_equal (@length response)) in H. vm_compute in H.
    discriminate.
  - split; [vm_compute; reflexivity |]. split; [vm_compute; reflexivity |].
    split; vm_compute; reflexivity.
Qed.

(** C5, amended.  A call of [handle_preference_response] on a stored
    session appends the parsed record to the list of responses of the
    session; the records stored before, those of the same participant
    included, are kept.  The aggregation runs over every stored record:
    the group size grows by one and the frequency counts of genres and
    composers grow by the counts of the new record. *)
Theorem submissions_are_appended (st : service) (sid : string)
    (s : submission) :
  is_Some (active_requests st !! sid) ->
  is_Some (group_responses st !! sid) ->
  let before := responses_of st sid in
  let after := responses_of (submit sid st s) sid in
  let genres rs := flat_map favorite_genres (map preferences rs) in
  let composers rs := flat_map favorite_composers (map preferences rs) in
  after = (before ++ [stored_response s])%list
  /\ group_size (_analyze_group_preferences after)
     = group_size (_analyze_group_preferences before) + 1
  /\ (forall g,
        counter_count (genres after) g
        = counter_count (genres before) g
          + counter_count (favorite_genres (preferences (stored_response s))) g)
  /\ (forall c,
        counter_count (composers after) c
        = counter_count (composers before) c
          + counter_count
              (favorite_composers (preferences (stored_response s))) c).
Proof.
  intros [rq Hrq] [rs Hrs]. cbv zeta.
  destruct (submit_step st sid rq rs s Hrq Hrs) as (rq' & _ & Hrs' & _).
  unfold responses_of. rewrite Hrs', Hrs. unfold default, from_option, id.
  split; [reflexivity |].
  split.
  { unfold _analyze_group_preferences. cbn [group_size].
    rewrite length_app. cbn [length]. lia. }
  split; intros x; rewrite map_app, flat_map_app, counter_count_app;
    cbn [map flat_map]; rewrite app_nil_r; reflexivity.
Qed.

Lemma submissions_are_appended_witness :
  let st :=
    submit_all "sid" (open_session "30 minute jazz set" ["u1"; "u2"])
      [say "u1" "I love jazz"] in
  is_Some (active_requests st !! "sid")
  /\ is_Some (group_responses st !! "sid")
  /\ responses_of (submit "sid" st (say "u1" "I love jazz")) "sid"
     = (responses_of st "sid" ++ [stored_response (say "u1" "I love jazz")])%list.
Proof.
  cbv zeta.
  assert (is_Some (active_requests
            (submit_all "sid" (open_session "30 minute jazz set" ["u1"; "u2"])
               [say "u1" "I love jazz"]) !! "sid")) as H1
    by (vm_compute; eexists; reflexivity).
  assert (is_Some (group_responses
            (submit_all "sid" (open_session "30 minute jazz set" ["u1"; "u2"])
               [say "u1" "I love jazz"]) !! "sid")) as H2
    by (vm_compute; eexists; reflexivity).
  split; [exact H1 |]. split; [exact H2 |].
  exact (proj1 (submissions_are_appended _ "sid" (say "u1" "I love jazz")
                  H1 H2)).
Defined.

(** *** The filtered pool and the selection *)

Lemma prefix_refl (s : string) : String.prefix s s = true.
Proof.
  induction s as [| c s IH]; [reflexivity |]. cbn.
  destruct (ascii_dec c c) as [_ | Hne]; [exact IH | contradiction].
Qed.

Lemma isin_refl (s : string) : isin s s = true.
Proof.
  pose proof (prefix_refl s) as H.
  destruct s; cbn [isin]; rewrite H; reflexivity.
Qed.

Lemma any_lower_in_self (xs : list string) (x : string) :
  In x xs -> any_lower_in xs (lower x) = true.
Proof.
  intros H. unfold any_lower_in. apply existsb_exists. exists x.
  split; [exact H | apply isin_refl].
Qed.

Lemma list_set_In (xs : list string) (x : string) :
  In x (list_set xs) <-> In x xs.
Proof.
  unfold list_set. rewrite <- !list_elem_of_In.
  rewrite elem_of_elements, elem_of_list_to_set. reflexivity.
Qed.

Lemma insert_desc_In (x y : piece) (l : list piece) :
  In y (insert_desc x l) <-> y = x \/ In y l.
Proof.
  induction l as [| z l IH]; cbn.
  - intuition.
  - destruct (score_of x <? score_of z); cbn; rewrite ?IH; intuition.
Qed.

Lemma sort_desc_In (y : piece) (l : list piece) :
  In y (sort_desc l) <-> In y l.
Proof.
  induction l as [| x l IH]; cbn; [reflexivity |].
  rewrite insert_desc_In, IH. intuition.
Qed.



Lemma hinted_pieces_In (hints : list string) (pool : list piece) (p : piece) :
  In p (hinted_pieces hints pool) ->
  In p pool /\ exists hint, In hint hints
                 /\ List.find (matches_genre hint) pool = Some p.
Proof.
  unfold hinted_pieces. rewrite in_flat_map. intros (hint & Hh & Hp).
  destruct (List.find (matches_genre hint) pool) as [q |] eqn:E;
    [| contradiction].
  destruct Hp as [-> | []]. split; [| exists hint; auto].
  apply List.find_some in E. tauto.
Qed.

Lemma remove_first_In (x y : piece) (l : list piece) :
  In y (remove_first x l) -> In y l.
Proof.
  induction l as [| z l IH]; cbn; [easy |].
  destruct (decide (z = x)); cbn; intuition.
Qed.

Lemma sum_durations_snoc (l : list piece) (p : piece) :
  sum_durations (l ++ [p]) = sum_durations l + duration_minutes p.
Proof.
  unfold sum_durations.
  induction l as [| x l IH]; cbn [app fold_right]; [lia | rewrite IH; lia].
Qed.

Lemma add_middle_ok (pool0 end_pieces : list piece) (target : Z) :
  forall (pool selected : list piece) (current : Z),
    (forall p, In p pool -> In p pool0) ->
    selection_ok pool0 target selected current ->
    selection_ok pool0 target
      (fst (add_middle pool end_pieces target selected current))
      (snd (add_middle pool end_pieces target selected current)).
Proof.
  induction pool as [| p pool IH]; intros selected current Hsub Hok; cbn;
    [exact Hok |].
  destruct (bool_decide (p ∈ end_pieces)).
  - apply IH; [intros; apply Hsub; right; assumption | exact Hok].
  - unfold within_90.
    destruct (10 * (current + duration_minutes p) <=? 9 * target) eqn:E;
      [| exact Hok].
    apply Z.leb_le in E. apply IH; [intros; apply Hsub; right; assumption |].
    destruct Hok as (Hin & Hsum & _). repeat split.
    + intros q Hq. apply in_app_or in Hq as [Hq | [-> | []]];
        [apply Hin, Hq | apply Hsub; left; reflexivity].
    + rewrite sum_durations_snoc, Hsum. reflexivity.
    + exact E.
Qed.

Lemma select_with_total_ok (pool : list piece) (target : Z)
    (ga : group_analysis) :
  0 <= target ->
  selection_ok pool target (fst (select_with_total pool target ga))
    (snd (select_with_total pool target ga)).
Proof.
  intros Htarget. unfold select_with_total.
  set (start_pieces := hinted_pieces (start_preferences ga) pool).
  set (end_pieces := hinted_pieces (end_preferences ga) pool).
  assert (exists sel cur pool',
            add_start pool start_pieces target = (sel, cur, pool')
            /\ selection_ok pool target sel cur
            /\ (forall p, In p pool' -> In p pool))
    as (sel & cur & pool' & -> & Hok & Hsub).
  { unfold add_start. destruct start_pieces as [| sp rest] eqn:Hsp.
    - exists [], 0, pool. repeat split; cbn; auto; try lia; easy.
    - unfold within_90.
      destruct (10 * duration_minutes sp <=? 9 * target) eqn:E.
      + apply Z.leb_le in E.
        exists [sp], (duration_minutes sp), (remove_first sp pool).
        repeat split; cbn; auto; try lia.
        * intros p [<- | []].
          apply (hinted_pieces_In (start_preferences ga) pool sp).
          fold start_pieces. rewrite Hsp. left. reflexivity.
        * intros p. apply remove_first_In.
      + exists [], 0, pool. repeat split; cbn; auto; try lia; easy. }
  pose proof (add_middle_ok pool end_pieces target pool' sel cur Hsub Hok)
    as Hmid.
  destruct (add_middle pool' end_pieces target sel cur) as [sel' cur'].
  cbn [fst snd] in Hmid. unfold add_end.
  destruct end_pieces as [| ep rest] eqn:Hep; [exact Hmid |].
  unfold within_90.
  destruct ((10 * cur' <? 9 * target)
            && (10 * (cur' + duration_minutes ep) <=? 9 * target)) eqn:E;
    [| exact Hmid].
  apply andb_prop in E as [_ E]. apply Z.leb_le in E.
  destruct Hmid as (Hin & Hsum & _). cbn [fst snd]. repeat split.
  - intros q Hq. apply in_app_or in Hq as [Hq | [<- | []]]; [apply Hin, Hq |].
    apply (hinted_pieces_In (end_preferences ga) pool ep).
    fold end_pieces. rewrite Hep. left. reflexivity.
  - rewrite sum_durations_snoc, Hsum. reflexivity.
  - exact E.
Qed.

(** The members of the selection come from the pool, whatever the
    target. *)
Lemma selection_from_pool (pool : list piece) (target : Z)
    (ga : group_analysis) (p : piece) :
  In p (_select_pieces_for_duration pool target ga) -> In p pool.
Proof.
  unfold _select_pieces_for_duration, select_with_total.
  set (start_pieces := hinted_pieces (start_preferences ga) pool).
  set (end_pieces := hinted_pieces (end_preferences ga) pool).
  assert (forall pool1 sel cur,
            (forall q, In q pool1 -> In q pool) ->
            (forall q, In q sel -> In q pool) ->
            forall q, In q (fst (add_middle pool1 end_pieces target sel cur)) ->
                      In q pool) as Hmid.
  { induction pool1 as [| x pool1 IH]; intros sel cur Hp Hs q; cbn; [apply Hs |].
    destruct (bool_decide (x ∈ end_pieces));
      [apply IH; [intros y Hy; apply Hp; right; exact Hy | exact Hs] |].
    destruct (within_90 (cur + duration_minutes x) target); [| apply Hs].
    apply IH; [intros y Hy; apply Hp; right; exact Hy |]. intros y Hy.
    apply in_app_or in Hy as [Hy | [<- | []]];
      [apply Hs, Hy | apply Hp; left; reflexivity]. }
  assert (exists sel cur pool',
            add_start pool start_pieces target = (sel, cur, pool')
            /\ (forall q, In q sel -> In q pool)
            /\ (forall q, In q pool' -> In q pool))
    as (sel & cur & pool' & -> & Hsel & Hsub).
  { unfold add_start. destruct start_pieces as [| sp rest] eqn:Hsp.
    - exists [], 0, pool. repeat split; cbn; auto; easy.
    - destruct (within_90 (duration_minutes sp) target).
      + exists [sp], (duration_minutes sp), (remove_first sp pool).
        repeat split; cbn; auto.
        * intros q [<- | []].
          apply (hinted_pieces_In (start_preferences ga) pool sp).
          fold start_pieces. rewrite Hsp. left. reflexivity.
        * intros q. apply remove_first_In.
      + exists [], 0, pool. repeat split; cbn; auto; easy. }
  specialize (Hmid pool' sel cur Hsub Hsel).
  destruct (add_middle pool' end_pieces target sel cur) as [sel' cur'].
  cbn [fst] in Hmid. unfold add_end.
  destruct end_pieces as [| ep rest] eqn:Hep; [apply Hmid |].
  destruct ((10 * cur' <? 9 * target)
            && within_90 (cur' + duration_minutes ep) target);
    [| apply Hmid].
  cbn [fst]. intros Hq. apply in_app_or in Hq as [Hq | [<- | []]];
    [apply Hmid, Hq |].
  apply (hinted_pieces_In (end_preferences ga) pool ep).
  fold end_pieces. rewrite Hep. left. reflexivity.
Qed.

Lemma filtered_piece_origin (pieces : list piece) (ga : group_analysis)
    (p : piece) :
  In p (_filter_pieces_by_preferences pieces ga) ->
  exists p0, In p0 pieces /\ is_avoided ga p0 = false
             /\ genre p = genre p0 /\ composer p = composer p0.
Proof.
  unfold _filter_pieces_by_preferences. rewrite sort_desc_In, in_map_iff.
  intros (p0 & <- & Hp0). apply filter_In in Hp0 as [Hin Hav].
  exists p0. apply negb_true_iff in Hav. auto.
Qed.

(** C4.  No piece of the collaborative selection has a genre that is in
    the avoid-genre list of any participant, nor a composer that is in
    the avoid-composer list of any participant: the lists of all
    participants are merged, and one participant's entry is enough to
    keep a piece out. *)
Theorem avoided_pieces_are_excluded (responses : list response)
    (duration : Z) (concert_type : string) (p : piece) (r : response) :
  In p (_generate_setlist_pieces (_analyze_group_preferences responses)
          duration concert_type) ->
  In r responses ->
  ~ In (genre p) (avoid_genres (preferences r))
  /\ ~ In (composer p) (avoid_composers (preferences r)).
Proof.
  intros Hp Hr. unfold _generate_setlist_pieces in Hp.
  apply selection_from_pool in Hp.
  apply filtered_piece_origin in Hp as (p0 & _ & Hav & Hg & Hc).
  unfold is_avoided in Hav. apply orb_false_elim in Hav as [Hgen Hcomp].
  rewrite Hg, Hc. split; intros Hin.
  - rewrite any_lower_in_self in Hgen; [discriminate |].
    cbn [_analyze_group_preferences ga_avoid_genres].
    apply list_set_In, in_flat_map. exists (preferences r).
    split; [apply in_map, Hr | exact Hin].
  - rewrite any_lower_in_self in Hcomp; [discriminate |].
    cbn [_analyze_group_preferences ga_avoid_composers].
    apply list_set_In, in_flat_map. exists (preferences r).
    split; [apply in_map, Hr | exact Hin].
Qed.

Lemma avoided_pieces_are_excluded_witness :
  let r := stored_response (say "u1" "I dislike the genre blues") in
  let p := {| title := "Blue Bossa"; composer := "Kenny Dorham";
              duration_minutes := 4; genre := "jazz"; style := "medium";
              difficulty := "intermediate";
              collaborative_score := Some 3 |} in
  avoid_genres (preferences r) = ["blues"]
  /\ In p (_generate_setlist_pieces (_analyze_group_preferences [r]) 30
             "jazz_concert")
  /\ In r [r]
  /\ ~ In (genre p) (avoid_genres (preferences r)).
Proof.
  cbv zeta.
  split; [vm_compute; reflexivity |].
  assert (In {| title := "Blue Bossa"; composer := "Kenny Dorham";
                duration_minutes := 4; genre := "jazz"; style := "medium";
                difficulty := "intermediate";
                collaborative_score := Some 3 |}
            (_generate_setlist_pieces
               (_analyze_group_preferences
                  [stored_response (say "u1" "I dislike the genre blues")])
               30 "jazz_concert")) as Hp
    by (vm_compute; left; reflexivity).
  assert (In (stored_response (say "u1" "I dislike the genre blues"))
            [stored_response (say "u1" "I dislike the genre blues")]) as Hr
    by (left; reflexivity).
  split; [exact Hp |]. split; [exact Hr |].
  exact (proj1 (avoided_pieces_are_excluded _ _ _ _ _ Hp Hr)).
Defined.

(** *** Headroom *)

Lemma int_of_digits_nonneg (s : string) :
  forall acc, 0 <= acc -> 0 <= int_of_digits acc s.
Proof.
  induction s as [| c s IH]; intros acc Hacc; cbn; [exact Hacc |].
  apply IH. unfold digit_val. lia.
Qed.

Lemma extract_duration_nonneg (user_lower : string) :
  0 <= extract_duration user_lower.
Proof.
  unfold extract_duration.
  destruct (Re.search duration_pattern user_lower) as [digits |]; [| lia].
  pose proof (int_of_digits_nonneg digits 0 ltac:(lia)).
  destruct (isin "hour" user_lower || isin "hr" user_lower)%bool; lia.
Qed.

Lemma selection_within_90 (pool : list piece) (target : Z)
    (ga : group_analysis) :
  0 <= target ->
  10 * sum_durations (_select_pieces_for_duration pool target ga)
  <= 9 * target.
Proof.
  intros H. destruct (select_with_total_ok pool target ga H) as (_ & Hsum & Hle).
  unfold _select_pieces_for_duration. rewrite Hsum. exact Hle.
Qed.


(** *** The opening hint *)





End CollectorFacts.

(** ** The coordinator *)

Module CoordinatorFacts.
Import Coordinator.

(** *** Scoring *)

Lemma assoc_set_item {A : Type} (k k' : string) (v : A)
    (table : list (string * A)) :
  assoc k (set_item k' v table)
  = if String.eqb k' k then Some v else assoc k table.
Proof.
  unfold assoc. induction table as [| [k0 v0] table IH]; cbn.
  - destruct (String.eqb k' k); reflexivity.
  - destruct (String.eqb k0 k') eqn:E0; cbn.
    + apply String.eqb_eq in E0. subst k0.
      destruct (String.eqb k' k); reflexivity.
    + destruct (String.eqb k0 k) eqn:E1; cbn.
      * apply String.eqb_eq in E1. subst k0.
        rewrite String.eqb_sym, E0. reflexivity.
      * exact IH.
Qed.

Lemma assoc_map {A B : Type} (f : A -> B) (k : string)
    (table : list (string * A)) :
  assoc k (map (fun kv => (fst kv, f (snd kv))) table) = f <$> assoc k table.
Proof.
  unfold assoc. induction table as [| [k0 v0] table IH]; cbn; [reflexivity |].
  destruct (String.eqb k0 k); [reflexivity | exact IH].
Qed.

Lemma Qsum_snoc (xs : list Q) (x : Q) : (Qsum (xs ++ [x]) == Qsum xs + x)%Q.
Proof.
  unfold Qsum. induction xs as [| y xs IH]; cbn [app fold_right].
  - ring.
  - rewrite IH. ring.
Qed.

Lemma scores_for_snoc (k : string) (evs : list eval_data) (d : eval_data) :
  scores_for k (evs ++ [d])
  = (scores_for k evs
     ++ (if String.eqb (score_key (ed_piece d)) k
         then [_extract_score_from_evaluation (ed_evaluation d)]
         else []))%list.
Proof.
  unfold scores_for. rewrite List.filter_app, map_app. cbn [List.filter].
  destruct (String.eqb (score_key (ed_piece d)) k); reflexivity.
Qed.

Lemma record_evaluation_agrees (table : list (string * tally))
    (evs : list eval_data) (d : eval_data) :
  tallies_agree table evs ->
  tallies_agree (record_evaluation table d) (evs ++ [d]).
Proof.
  intros Hinv k. unfold record_evaluation. rewrite assoc_set_item.
  rewrite scores_for_snoc.
  destruct (String.eqb (score_key (ed_piece d)) k) eqn:E.
  - apply String.eqb_eq in E. subst k.
    specialize (Hinv (score_key (ed_piece d))).
    destruct (assoc (score_key (ed_piece d)) table) as [t |];
      cbn [default from_option id add_score new_tally total_score
           evaluation_count].
    + destruct Hinv as (_ & Hsum & Hcount). split.
      * intros H. apply app_eq_nil in H as [_ H]. discriminate.
      * split; [rewrite Qsum_snoc, Hsum; reflexivity |].
        rewrite Hcount, length_app. cbn [length]. lia.
    + rewrite Hinv. cbn [app]. split; [discriminate |].
      split; [unfold Qsum; cbn; ring | reflexivity].
  - rewrite app_nil_r. apply Hinv.
Qed.

Lemma fold_record_agrees (more : list eval_data) :
  forall (table : list (string * tally)) (evs : list eval_data),
    tallies_agree table evs ->
    tallies_agree (fold_left record_evaluation more table) (evs ++ more).
Proof.
  induction more as [| d more IH]; intros table evs H; cbn [fold_left].
  - rewrite app_nil_r. exact H.
  - replace (evs ++ d :: more)%list with ((evs ++ [d]) ++ more)%list
      by (rewrite <- app_assoc; reflexivity).
    apply IH, record_evaluation_agrees, H.
Qed.

Lemma ranked_insert_In (x y : piece_data) (l : list piece_data) :
  In y (insert_desc x l) <-> y = x \/ In y l.
Proof.
  induction l as [| z l IH]; cbn.
  - intuition.
  - destruct (Qltb (average_score x) (average_score z)); cbn; rewrite ?IH;
      intuition.
Qed.

Lemma ranking_In (y : piece_data) (l : list piece_data) :
  In y (sort_desc l) <-> In y l.
Proof.
  induction l as [| x l IH]; cbn; [reflexivity |].
  rewrite ranked_insert_In, IH. intuition.
Qed.

Lemma Qltb_true (x y : Q) : Qltb x y = true -> (x <= y)%Q.
Proof.
  unfold Qltb. intros H. apply negb_true_iff in H.
  destruct (Qlt_le_dec x y) as [Hlt | Hle]; [apply Qlt_le_weak, Hlt |].
  apply Qle_bool_iff in Hle. congruence.
Qed.

Lemma Qltb_false (x y : Q) : Qltb x y = false -> (y <= x)%Q.
Proof.
  unfold Qltb. intros H. apply negb_false_iff in H.
  apply Qle_bool_iff, H.
Qed.

Lemma ranked_insert_sorted (x : piece_data) (l : list piece_data) :
  StronglySorted average_ge l -> StronglySorted average_ge (insert_desc x l).
Proof.
  induction 1 as [| z l Hl IH Hz]; cbn.
  - constructor; constructor.
  - destruct (Qltb (average_score x) (average_score z)) eqn:E.
    + apply Qltb_true in E. constructor; [exact IH |].
      apply List.Forall_forall. intros y Hy.
      apply ranked_insert_In in Hy as [-> | Hy]; [exact E |].
      rewrite List.Forall_forall in Hz. apply Hz, Hy.
    + apply Qltb_false in E. constructor.
      * constructor; assumption.
      * constructor; [exact E |].
        rewrite List.Forall_forall in Hz |- *. intros y Hy.
        specialize (Hz y Hy). unfold average_ge in *.
        eapply Qle_trans; eassumption.
Qed.

Lemma ranking_sorted (l : list piece_data) :
  StronglySorted average_ge (sort_desc l).
Proof.
  induction l as [| x l IH]; cbn; [constructor |].
  apply ranked_insert_sorted, IH.
Qed.

(** C7, as stated, fails: the score read from an evaluation is its
    confidence, so an advisor whose evaluate call failed contributes
    0.5, not 5.  When the three advisors all fail, every piece has the
    aggregate 0.5. *)
Lemma failed_evaluation_contributes_half :
  let table :=
    _score_pieces (evaluations_of (agents llm_unavailable) sample_requirements) in
  length table = 3%nat
  /\ forall k d, In (k, d) table ->
       (average_score d == 1 # 2)%Q /\ ~ (average_score d == 5 # 1)%Q.
Proof.
  cbv zeta. split; [vm_compute; reflexivity |].
  intros k d H. vm_compute in H.
  destruct H as [H | [H | [H | []]]]; injection H as <- <-;
    (split; [vm_compute; reflexivity | intros E; vm_compute in E; discriminate]).
Qed.

(** C7, amended.  The aggregate of a piece is the arithmetic mean of the
    scores extracted from the evaluations recorded under its title, and
    there is at least one.  The score extracted from an evaluation is
    its confidence when it has one, so the default evaluation that an
    advisor returns when its evaluate call fails contributes 0.5.  The
    pieces are ranked in descending order of the aggregate. *)
Theorem aggregate_is_mean_of_extracted_scores
    (evaluation_results : list (string * list eval_data))
    (piece_title : string) (d : piece_data) :
  assoc piece_title (_score_pieces evaluation_results) = Some d ->
  let xs := scores_for piece_title (all_evaluations evaluation_results) in
  xs <> []
  /\ (average_score d == mean xs)%Q
  /\ StronglySorted average_ge
       (sort_desc (map snd (_score_pieces evaluation_results)))
  /\ (forall p,
        _extract_score_from_evaluation (Curator._get_default_evaluation p)
        = (5 # 10)%Q
        /\ _extract_score_from_evaluation
             (Technical._get_default_technical_evaluation p) = (5 # 10)%Q
        /\ _extract_score_from_evaluation
             (Flow._get_default_flow_evaluation p) = (5 # 10)%Q).
Proof.
  intros Hd. cbv zeta.
  unfold _score_pieces in Hd. rewrite assoc_map in Hd.
  pose proof (fold_record_agrees (all_evaluations evaluation_results) [] []
                ltac:(intros k; reflexivity) piece_title) as Hinv.
  cbn [app] in Hinv.
  destruct (assoc piece_title
              (fold_left record_evaluation
                 (all_evaluations evaluation_results) [])) as [t |];
    [| discriminate].
  cbn in Hd. injection Hd as <-.
  destruct Hinv as (Hne & Hsum & Hcount).
  split; [exact Hne |]. split.
  - unfold with_average, mean. cbn [average_score].
    assert (0 < evaluation_count t) as Hpos.
    { rewrite Hcount.
      destruct (scores_for piece_title (all_evaluations evaluation_results));
        [contradiction | cbn [length]; lia]. }
    apply Z.ltb_lt in Hpos. rewrite Hpos, Hcount, Hsum. reflexivity.
  - split; [apply ranking_sorted |].
    intros p. repeat split.
Qed.

Lemma aggregate_is_mean_of_extracted_scores_witness :
  let ev := evaluations_of (agents llm_unavailable) sample_requirements in
  exists d,
    assoc "Sample Piece 1" (_score_pieces ev) = Some d
    /\ (average_score d
        == mean (scores_for "Sample Piece 1" (all_evaluations ev)))%Q.
Proof.
  cbv zeta.
  destruct (assoc "Sample Piece 1"
              (_score_pieces
                 (evaluations_of (agents llm_unavailable) sample_requirements)))
    as [d |] eqn:E.
  - exists d. split; [reflexivity |].
    exact (proj1 (proj2 (aggregate_is_mean_of_extracted_scores _ _ _ E))).
  - vm_compute in E. discriminate.
Defined.

(** *** Selection *)

Lemma sum_durations_cons_inv (x : piece) (l : list piece) (t : Z) :
  sum_durations (x :: l) = Ok t ->
  exists n s, duration_of x = Minutes n /\ sum_durations l = Ok s
              /\ t = n + s.
Proof.
  cbn [sum_durations]. destruct (duration_of x) as [n |]; [| discriminate].
  destruct (sum_durations l) as [s |]; cbn [bind]; [| discriminate].
  intros H. injection H as <-. eauto.
Qed.

Lemma sum_durations_cons (x : piece) (l : list piece) (n s : Z) :
  duration_of x = Minutes n -> sum_durations l = Ok s ->
  sum_durations (x :: l) = Ok (n + s).
Proof. intros Hx Hl. cbn [sum_durations]. rewrite Hx, Hl. reflexivity. Qed.

Lemma sum_minutes_snoc (l : list piece) (p : piece) (n : Z) :
  duration_of p = Minutes n ->
  forall t, sum_durations l = Ok t -> sum_durations (l ++ [p]) = Ok (t + n).
Proof.
  intros Hp. induction l as [| x l IH]; intros t Ht.
  - cbn in Ht. injection Ht as <-. cbn [app].
    rewrite (sum_durations_cons p [] n 0 Hp eq_refl). f_equal. lia.
  - apply sum_durations_cons_inv in Ht as (m & s & Hx & Hl & ->).
    cbn [app]. rewrite (sum_durations_cons x _ m (s + n) Hx (IH s Hl)).
    f_equal. lia.
Qed.

Lemma select_loop_bounds (target : Z) (sorted : list piece_data) :
  forall (selected : list piece) (total : Z) (result : list piece),
    (length selected < 8)%nat ->
    sum_durations selected = Ok total ->
    total <= target + 5 ->
    select_loop sorted target selected total = Ok result ->
    (length result <= 8)%nat
    /\ exists t, sum_durations result = Ok t /\ t <= target + 5.
Proof.
  induction sorted as [| d sorted IH];
    intros selected total result Hlen Hsum Hle Hres; cbn [select_loop] in Hres.
  - injection Hres as <-. split; [lia | eauto].
  - destruct (duration_of (pd_piece d)) as [n |] eqn:Hd; [| discriminate].
    destruct (total + n <=? target + 5) eqn:E.
    + apply Z.leb_le in E.
      pose proof (sum_minutes_snoc selected (pd_piece d) n Hd total Hsum)
        as Hsum'.
      assert (length (selected ++ [pd_piece d]) = S (length selected)) as Hl
        by (rewrite length_app; cbn; lia).
      destruct (8 <=? length (selected ++ [pd_piece d]))%nat eqn:E8.
      * injection Hres as <-. split; [lia | eauto].
      * apply Nat.leb_gt in E8. eapply IH; eauto.
    + eapply IH; eauto.
Qed.

Lemma select_loop_returns (target : Z) (sorted : list piece_data) :
  Forall (fun d => is_numeric (pd_piece d)) sorted ->
  forall (selected : list piece) (total : Z),
    exists result, select_loop sorted target selected total = Ok result.
Proof.
  induction 1 as [| d sorted Hd _ IH]; intros selected total;
    cbn [select_loop]; [eauto |].
  unfold is_numeric in Hd.
  destruct (duration_of (pd_piece d)) as [n |]; [| contradiction].
  destruct (total + n <=? target + 5); [| apply IH].
  destruct (8 <=? length (selected ++ [pd_piece d]))%nat; [eauto | apply IH].
Qed.

Lemma select_loop_extends (target : Z) (sorted : list piece_data) :
  forall (selected : list piece) (total : Z) (result : list piece),
    select_loop sorted target selected total = Ok result ->
    exists more, result = (selected ++ more)%list.
Proof.
  induction sorted as [| d sorted IH]; intros selected total result Hres;
    cbn [select_loop] in Hres.
  - injection Hres as <-. exists []. rewrite app_nil_r. reflexivity.
  - destruct (duration_of (pd_piece d)) as [n |]; [| discriminate].
    destruct (total + n <=? target + 5); [| eapply IH; eauto].
    destruct (8 <=? length (selected ++ [pd_piece d]))%nat.
    + injection Hres as <-. eauto.
    + apply IH in Hres as [more ->]. exists (pd_piece d :: more).
      rewrite <- app_assoc. reflexivity.
Qed.

Lemma sum_durations_remove_first (x : piece) (l : list piece) :
  In x l ->
  forall t, sum_durations l = Ok t ->
  exists n, duration_of x = Minutes n
            /\ sum_durations (remove_first x l) = Ok (t - n).
Proof.
  induction l as [| y l IH]; intros Hin t Ht; [contradiction |].
  apply sum_durations_cons_inv in Ht as (m & s & Hy & Hl & ->).
  cbn [remove_first]. destruct (decide (y = x)) as [-> | Hne].
  - exists m. split; [exact Hy |]. rewrite Hl. f_equal. lia.
  - destruct Hin as [-> | Hin]; [contradiction |].
    destruct (IH Hin s Hl) as (n & Hx & Hr). exists n. split; [exact Hx |].
    rewrite (sum_durations_cons y _ m (s - n) Hy Hr). f_equal. lia.
Qed.

Lemma length_remove_first (x : piece) (l : list piece) :
  In x l -> S (length (remove_first x l)) = length l.
Proof.
  induction l as [| y l IH]; intros Hin; [contradiction |].
  cbn [remove_first]. destruct (decide (y = x)) as [-> | Hne];
    [reflexivity |].
  destruct Hin as [-> | Hin]; [contradiction |]. cbn [length].
  rewrite IH by exact Hin. reflexivity.
Qed.

Lemma opening_piece_In (l : list piece) (x : piece) :
  _find_opening_piece l = Some x -> In x l.
Proof.
  unfold _find_opening_piece.
  destruct (List.find is_gentle l) as [y |] eqn:E.
  - intros H. injection H as <-. apply List.find_some in E. tauto.
  - destruct l; cbn; [discriminate |]. intros H. injection H as <-. auto.
Qed.

Lemma order_keeps_length (l : list piece) :
  length (_order_pieces_for_flow l) = length l.
Proof.
  unfold _order_pieces_for_flow.
  destruct (_find_opening_piece l) as [x |] eqn:E; [| reflexivity].
  cbn [length]. apply length_remove_first, opening_piece_In, E.
Qed.

Lemma order_keeps_sum (l : list piece) (t : Z) :
  sum_durations l = Ok t -> sum_durations (_order_pieces_for_flow l) = Ok t.
Proof.
  intros Ht. unfold _order_pieces_for_flow.
  destruct (_find_opening_piece l) as [x |] eqn:E; [| exact Ht].
  apply opening_piece_In in E.
  destruct (sum_durations_remove_first x l E t Ht) as (n & Hx & Hr).
  rewrite (sum_durations_cons x _ n (t - n) Hx Hr). f_equal. lia.
Qed.

(** C3.  For a target duration that is not negative, the request model
    admitting 15 to 180 minutes, and for every table of scored pieces:
    the selection returns as soon as every candidate has a numeric
    duration, and whenever it returns, it has at most eight pieces whose
    durations add up to at most the target plus five.  The ordering for
    the flow keeps the pieces, so the program has at most eight pieces
    and the total duration computed by [_generate_setlist_metadata] is
    that sum. *)
Theorem coordinator_selection_bounds
    (piece_scores : list (string * piece_data)) (r : requirements) :
  0 <= duration_minutes r ->
  (Forall (fun kd => is_numeric (pd_piece (snd kd))) piece_scores ->
   exists selected, _select_pieces_for_setlist piece_scores r = Ok selected)
  /\ (forall selected,
        _select_pieces_for_setlist piece_scores r = Ok selected ->
        (length selected <= 8)%nat
        /\ (length (_order_pieces_for_flow selected) <= 8)%nat
        /\ exists total heading,
             sum_durations selected = Ok total
             /\ total <= duration_minutes r + 5
             /\ _generate_setlist_metadata (_order_pieces_for_flow selected) r
                = Ok (heading, total)).
Proof.
  intros Htarget. unfold _select_pieces_for_setlist. split.
  - intros Hnum. apply select_loop_returns.
    apply List.Forall_forall. intros d Hd.
    apply (proj1 (ranking_In _ _)) in Hd.
    apply (proj1 (in_map_iff _ _ _)) in Hd as (kd & <- & Hkd).
    rewrite List.Forall_forall in Hnum. apply Hnum, Hkd.
  - intros selected Hsel.
    destruct (select_loop_bounds (duration_minutes r) _ [] 0 selected
                ltac:(cbn; lia) eq_refl ltac:(lia) Hsel)
      as (Hlen & total & Hsum & Hle).
    split; [exact Hlen |]. split; [rewrite order_keeps_length; exact Hlen |].
    exists total. unfold _generate_setlist_metadata.
    rewrite (order_keeps_sum selected total Hsum). cbn [bind].
    eexists. split; [exact Hsum |]. split; [exact Hle | reflexivity].
Qed.

Lemma coordinator_selection_bounds_witness :
  let table :=
    _score_pieces (evaluations_of (agents llm_unavailable) sample_requirements) in
  0 <= duration_minutes sample_requirements
  /\ exists selected,
       _select_pieces_for_setlist table sample_requirements = Ok selected
       /\ (length selected <= 8)%nat.
Proof.
  cbv zeta.
  assert (0 <= duration_minutes sample_requirements) as H0 by (cbn; lia).
  split; [exact H0 |].
  destruct (coordinator_selection_bounds
              (_score_pieces
                 (evaluations_of (agents llm_unavailable) sample_requirements))
              sample_requirements H0) as [Hret Hbound].
  destruct Hret as [selected Hsel].
  - vm_compute. repeat constructor; discriminate.
  - exists selected. split; [exact Hsel |]. apply (Hbound selected Hsel).
Defined.

(** *** Never empty *)

Lemma synthesis_not_empty (evaluation_results : list (string * list eval_data))
    (r : requirements) :
  0 <= duration_minutes r ->
  (exists d rest n,
     sort_desc (map snd (_score_pieces evaluation_results)) = d :: rest
     /\ duration_of (pd_piece d) = Minutes n /\ n <= 5) ->
  pieces (_phase_synthesis evaluation_results r) <> [].
Proof.
  intros Htarget (d & rest & n & Hsorted & Hd & Hn).
  unfold _phase_synthesis, synthesize, try_except.
  destruct (_select_pieces_for_setlist (_score_pieces evaluation_results) r)
    as [selected |] eqn:Hsel; cbn [bind]; [| discriminate].
  assert (selected <> []) as Hne.
  { unfold _select_pieces_for_setlist in Hsel. rewrite Hsorted in Hsel.
    cbn [select_loop] in Hsel. rewrite Hd in Hsel.
    assert ((0 + n <=? duration_minutes r + 5) = true) as E
      by (apply Z.leb_le; lia).
    rewrite E in Hsel. cbn [app length] in Hsel.
    change (8 <=? 1)%nat with false in Hsel.
    apply select_loop_extends in Hsel as [more ->]. discriminate. }
  assert (_order_pieces_for_flow selected <> []) as Hord.
  { intros H. apply (f_equal (@length piece)) in H.
    rewrite order_keeps_length in H. destruct selected; [contradiction |].
    discriminate. }
  destruct (_generate_setlist_metadata (_order_pieces_for_flow selected) r);
    cbn [bind pieces]; [exact Hord | discriminate].
Qed.

(** C2.  For a target duration that is not negative: when the
    text-completion service is unavailable for every call, and also when
    in addition every analysis raises, [design] succeeds and its program
    has at least one piece.  For any advisors, when the synthesis of
    phase 4 raises, [design] still succeeds and its program is the
    hard-coded placeholder. *)
Theorem design_always_yields_a_program (r : requirements) :
  0 <= duration_minutes r ->
  (success (design llm_unavailable r) = true
   /\ pieces (setlist (design llm_unavailable r)) <> [])
  /\ (success (design_setlist failing_agents r) = true
      /\ pieces (setlist (design_setlist failing_agents r)) <> [])
  /\ (forall ags,
        synthesize (evaluations_of ags r) r = Raised ->
        success (design_setlist ags r) = true
        /\ setlist (design_setlist ags r) = _create_fallback_setlist r).
Proof.
  intros Htarget. split; [| split].
  - split; [reflexivity |].
    apply (synthesis_not_empty (evaluations_of (agents llm_unavailable) r) r
             Htarget).
    destruct r as [u ct d ins lvl]. vm_compute.
    do 3 eexists. split; [reflexivity |]. split; [reflexivity |].
    intros H. discriminate H.
  - split; [reflexivity |].
    apply (synthesis_not_empty (evaluations_of failing_agents r) r Htarget).
    destruct r as [u ct d ins lvl]. vm_compute.
    do 3 eexists. split; [reflexivity |]. split; [reflexivity |].
    intros H. discriminate H.
  - intros ags Hraise. split; [reflexivity |].
    unfold design_setlist. cbn [setlist]. unfold _phase_synthesis.
    fold (evaluations_of ags r). rewrite Hraise. reflexivity.
Qed.

(** The handlers of the Coordinator itself replace a proposal that
    raised by the empty list.  The three advisors of the service never
    raise on a validated request; an advisor that did would leave the
    program without pieces. *)
Remark raising_proposals_give_no_piece (r : requirements) :
  pieces (setlist (design_setlist [("silent", raising_agent)] r)) = [].
Proof. destruct r as [u ct d ins lvl]. reflexivity. Qed.

Lemma design_always_yields_a_program_witness :
  0 <= duration_minutes sample_requirements
  /\ pieces (setlist (design llm_unavailable sample_requirements)) <> []
  /\ synthesize
       (evaluations_of [("careless", careless_agent)] sample_requirements)
       sample_requirements = Raised
  /\ setlist (design_setlist [("careless", careless_agent)]
                sample_requirements)
     = _create_fallback_setlist sample_requirements.
Proof.
  assert (0 <= duration_minutes sample_requirements) as H0 by (cbn; lia).
  assert (synthesize
            (evaluations_of [("careless", careless_agent)] sample_requirements)
            sample_requirements = Raised) as Hraise
    by (vm_compute; reflexivity).
  destruct (design_always_yields_a_program sample_requirements H0)
    as ((_ & Hne) & _ & Hfall).
  split; [exact H0 |]. split; [exact Hne |]. split; [exact Hraise |].
  exact (proj2 (Hfall _ Hraise)).
Defined.

End CoordinatorFacts.

(** ** Sessions over time *)

Module SessionFacts.
Import Extractor Collector Sessions Notions.

Lemma respond_unknown (st : service) (sid u n t : string) :
  active_requests st !! sid = None ->
  handle_preference_response st sid u n t
  = (st, error_result error_not_found).
Proof. intros H. unfold handle_preference_response. rewrite H. reflexivity. Qed.

(** The two outcomes of a response to a stored session *)
Lemma respond_known (st : service) (sid u n t : string) (rq : request)
    (rs : list response) :
  active_requests st !! sid = Some rq ->
  group_responses st !! sid = Some rs ->
  let rq1 := with_response rq u in
  let rs1 := (rs ++ [new_response u n t])%list in
  let data := generated_data rq1 rs1 in
  handle_preference_response st sid u n t
  = if decide (remaining_users rq1 = ∅)
    then ({| active_requests :=
               <[sid := completed_with rq1 data]> (active_requests st);
             group_responses := <[sid := rs1]> (group_responses st) |},
          {| success := true; result_action := setlist_complete;
             result_setlist_id := Some sid; waiting := false;
             required_responses := []; result_setlist_data := Some data |})
    else ({| active_requests := <[sid := rq1]> (active_requests st);
             group_responses := <[sid := rs1]> (group_responses st) |},
          {| success := true; result_action := waiting_for_responses;
             result_setlist_id := Some sid; waiting := true;
             required_responses := elements (remaining_users rq1);
             result_setlist_data := None |}).
Proof.
  intros Hrq Hrs. cbv zeta. unfold handle_preference_response.
  rewrite Hrq, Hrs. cbv zeta.
  change {| group_id := group_id rq;
            conversation_id := conversation_id rq;
            organizer_user_id := organizer_user_id rq;
            group_member_ids := group_member_ids rq;
            req_duration_minutes := req_duration_minutes rq;
            req_concert_type := req_concert_type rq;
            status := status rq;
            responses_received := (responses_received rq ++ [u])%list;
            req_setlist_data := req_setlist_data rq |}
    with (with_response rq u).
  destruct (decide (remaining_users (with_response rq u) = ∅));
    [| reflexivity].
  unfold _generate_collaborative_setlist.
  cbn [active_requests group_responses]. rewrite !lookup_insert_eq.
  rewrite insert_insert_eq. reflexivity.
Qed.

Lemma remaining_empty_In (rq : request) :
  remaining_users rq = ∅
  <-> (forall u, In u (group_member_ids rq) -> In u (responses_received rq)).
Proof.
  rewrite CollectorFacts.remaining_empty_iff. split; intros H u Hu.
  - apply list_elem_of_In, H, list_elem_of_In, Hu.
  - apply list_elem_of_In, H, list_elem_of_In, Hu.
Qed.

Lemma fresh_session_ok (user_input group conversation organizer : string)
    (members : list string) :
  session_ok
    {| group_id := group; conversation_id := conversation;
       organizer_user_id := organizer; group_member_ids := members;
       req_duration_minutes :=
         param_duration_minutes (_extract_setlist_parameters user_input);
       req_concert_type :=
         param_concert_type (_extract_setlist_parameters user_input);
       status := collecting_preferences; responses_received := [];
       req_setlist_data := None |} [].
Proof.
  constructor; cbn.
  - reflexivity.
  - apply CollectorFacts.extract_duration_nonneg.
  - split; [discriminate | intros [d Hd]; discriminate].
  - discriminate.
  - discriminate.
Qed.

Lemma response_keeps_session_ok (rq : request) (rs : list response)
    (u n t : string) :
  session_ok rq rs ->
  session_ok (with_response rq u) (rs ++ [new_response u n t])%list.
Proof.
  intros [Hm Hd Hc Ha Hdata]. constructor; cbn.
  - rewrite Hm, map_app. reflexivity.
  - exact Hd.
  - exact Hc.
  - intros Hs x Hx. apply in_or_app. left. apply Ha; assumption.
  - exact Hdata.
Qed.

Lemma completion_keeps_session_ok (rq : request) (rs : list response) :
  session_ok rq rs ->
  remaining_users rq = ∅ ->
  session_ok (completed_with rq (generated_data rq rs)) rs.
Proof.
  intros [Hm Hd Hc Ha Hdata] Hrem. constructor; cbn.
  - exact Hm.
  - exact Hd.
  - split; [intros _; eexists; reflexivity | reflexivity].
  - intros _. apply remaining_empty_In, Hrem.
  - intros d Hsome. injection Hsome as <-. cbn. split; [reflexivity |].
    apply CollectorFacts.selection_within_90, Hd.
Qed.

Lemma perform_keeps_store_ok (st : service) (op : operation) :
  store_ok st -> store_ok (perform st op).
Proof.
  intros Hok. destruct op as [ui g c o members sid | sid u n t]; cbn [perform].
  - intros sid'. cbn. destruct (decide (sid = sid')) as [<- | Hne].
    + rewrite !lookup_insert_eq. apply fresh_session_ok.
    + rewrite !lookup_insert_ne by exact Hne. apply Hok.
  - pose proof (Hok sid) as Hsid.
    destruct (active_requests st !! sid) as [rq |] eqn:Hrq.
    + destruct (group_responses st !! sid) as [rs |] eqn:Hrs;
        [| contradiction].
      rewrite (respond_known st sid u n t rq rs Hrq Hrs). cbv zeta.
      pose proof (response_keeps_session_ok rq rs u n t Hsid) as Hstep.
      destruct (decide (remaining_users (with_response rq u) = ∅))
        as [Hrem | Hrem]; cbn [fst]; intros sid'; cbn;
        (destruct (decide (sid = sid')) as [<- | Hne];
         [ rewrite !lookup_insert_eq
         | rewrite !lookup_insert_ne by exact Hne; apply Hok ]).
      * apply completion_keeps_session_ok; assumption.
      * exact Hstep.
    + rewrite (respond_unknown st sid u n t Hrq). exact Hok.
Qed.

Lemma run_store_ok (ops : list operation) : store_ok (run ops).
Proof.
  unfold run.
  assert (forall st, store_ok st -> store_ok (fold_left perform ops st)) as H.
  { induction ops as [| op ops IH]; intros st Hst; cbn [fold_left];
      [exact Hst |].
    apply IH, perform_keeps_store_ok, Hst. }
  apply H. intros sid. cbn. rewrite !lookup_empty. exact I.
Qed.

(** X1.  Whatever the history of calls, the two dictionaries of the
    service hold the same session ids, and every stored session is
    consistent: the list of ids that responded mirrors the stored
    responses, the target duration is not negative, the session is
    completed exactly when a setlist is attached, a completed session has
    a response of every required member, and an attached setlist reports
    the sum of its pieces, within nine tenths of the target. *)
Theorem every_session_is_consistent (ops : list operation) (sid : string) :
  (active_requests (run ops) !! sid = None
   <-> group_responses (run ops) !! sid = None)
  /\ (forall rq rs,
        active_requests (run ops) !! sid = Some rq ->
        group_responses (run ops) !! sid = Some rs ->
        session_ok rq rs).
Proof.
  pose proof (run_store_ok ops sid) as H.
  destruct (active_requests (run ops) !! sid) as [rq |],
    (group_responses (run ops) !! sid) as [rs |]; try contradiction.
  - split; [split; discriminate |].
    intros rq' rs' Hrq Hrs. injection Hrq as <-. injection Hrs as <-.
    exact H.
  - split; [tauto | discriminate].
Qed.


(** X3.  A response to one session leaves every other session as it
    was, in any store. *)
Theorem response_leaves_other_sessions (st : service)
    (sid sid' u n t : string) :
  sid <> sid' ->
  let st' := fst (handle_preference_response st sid u n t) in
  active_requests st' !! sid' = active_requests st !! sid'
  /\ group_responses st' !! sid' = group_responses st !! sid'.
Proof.
  intros Hne. cbv zeta.
  destruct (active_requests st !! sid) as [rq |] eqn:Hrq.
  - destruct (group_responses st !! sid) as [rs |] eqn:Hrs.
    + rewrite (respond_known st sid u n t rq rs Hrq Hrs). cbv zeta.
      destruct (decide (remaining_users (with_response rq u) = ∅));
        cbn; rewrite !lookup_insert_ne by exact Hne; auto.
    + unfold handle_preference_response. rewrite Hrq, Hrs. cbn. auto.
  - rewrite (respond_unknown st sid u n t Hrq). cbn. auto.
Qed.

Lemma response_leaves_other_sessions_witness :
  "sid" <> "other"
  /\ active_requests
       (fst (handle_preference_response
               (run [Open "jazz" "g" "c" "o" ["a"] "sid";
                     Open "30 min classical" "g" "c" "o" ["b"] "other"])
               "sid" "a" "A" "I love jazz")) !! "other"
     = active_requests
         (run [Open "jazz" "g" "c" "o" ["a"] "sid";
               Open "30 min classical" "g" "c" "o" ["b"] "other"]) !! "other".
Proof.
  assert ("sid" <> "other") as Hne by discriminate.
  split; [exact Hne |].
  exact (proj1 (response_leaves_other_sessions _ "sid" "other" "a" "A"
                  "I love jazz" Hne)).
Defined.

(** X4.  After any history, when a response completes the setlist, the
    setlist returned to the caller is the one attached to the stored
    session, which is now completed; its total duration is the sum of
    its pieces and at most nine tenths of the target; its pieces are
    the selection made from the responses stored for the session; and
    every required member has responded. *)
Theorem completion_attaches_the_setlist (ops : list operation)
    (sid u n t : string) :
  let outcome := handle_preference_response (run ops) sid u n t in
  result_action (snd outcome) = setlist_complete ->
  exists rq d,
    active_requests (fst outcome) !! sid = Some rq
    /\ status rq = completed
    /\ req_setlist_data rq = Some d
    /\ result_setlist_data (snd outcome) = Some d
    /\ Collector.total_duration d = sum_durations (Collector.pieces d)
    /\ 10 * Collector.total_duration d <= 9 * req_duration_minutes rq
    /\ Collector.pieces d
       = _generate_setlist_pieces
           (_analyze_group_preferences (responses_of (fst outcome) sid))
           (req_duration_minutes rq) (req_concert_type rq)
    /\ (forall m, In m (group_member_ids rq) ->
                  In m (responses_received rq)).
Proof.
  cbv zeta. pose proof (run_store_ok ops sid) as Hsid.
  destruct (active_requests (run ops) !! sid) as [rq |] eqn:Hrq.
  - destruct (group_responses (run ops) !! sid) as [rs |] eqn:Hrs;
      [| contradiction].
    rewrite (respond_known _ sid u n t rq rs Hrq Hrs). cbv zeta.
    destruct (decide (remaining_users (with_response rq u) = ∅))
      as [Hrem | Hrem]; cbn [fst snd result_action]; [| discriminate].
    intros _.
    exists (completed_with (with_response rq u)
              (generated_data (with_response rq u)
                 (rs ++ [new_response u n t])%list)).
    eexists. cbn [active_requests]. rewrite lookup_insert_eq.
    split; [reflexivity |]. split; [reflexivity |]. split; [reflexivity |].
    split; [reflexivity |]. split; [reflexivity |].
    split.
    + apply CollectorFacts.selection_within_90. apply Hsid.
    + split.
      * unfold responses_of. cbn [group_responses].
        rewrite lookup_insert_eq. reflexivity.
      * apply remaining_empty_In, Hrem.
  - rewrite (respond_unknown _ sid u n t Hrq). cbn. discriminate.
Qed.

Lemma completion_attaches_the_setlist_witness :
  let ops := [Open "30 minute jazz set" "g" "c" "o" ["a"; "b"] "sid";
              Respond "sid" "a" "Ann" "I love jazz"] in
  let outcome :=
    handle_preference_response (run ops) "sid" "b" "Bob" "blues please" in
  result_action (snd outcome) = setlist_complete
  /\ exists d,
       result_setlist_data (snd outcome) = Some d
       /\ 10 * Collector.total_duration d <= 9 * 30.
Proof.
  cbv zeta.
  assert (result_action
            (snd (handle_preference_response
                    (run [Open "30 minute jazz set" "g" "c" "o" ["a"; "b"]
                            "sid";
                          Respond "sid" "a" "Ann" "I love jazz"])
                    "sid" "b" "Bob" "blues please")) = setlist_complete)
    as Hdone by (vm_compute; reflexivity).
  split; [exact Hdone |].
  destruct (completion_attaches_the_setlist _ _ _ _ _ Hdone)
    as (rq & d & Hrq & _ & _ & Hres & _ & Hle & _).
  exists d. split; [exact Hres |].
  assert (req_duration_minutes rq = 30) as <-; [| exact Hle].
  vm_compute in Hrq. injection Hrq as <-. reflexivity.
Defined.

(** X5.  In any store, when a response to a stored session leaves the
    session waiting, the answer lists, each once, exactly the required
    members that have not responded yet, the present response counted;
    the list is not empty. *)
Theorem waiting_lists_the_missing_members (st : service)
    (sid u n t : string) (rq : request) :
  active_requests st !! sid = Some rq ->
  is_Some (group_responses st !! sid) ->
  let answer := snd (handle_preference_response st sid u n t) in
  result_action answer = waiting_for_responses ->
  (forall m, m ∈ required_responses answer
             <-> m ∈ group_member_ids rq
                 /\ m ∉ (responses_received rq ++ [u])%list)
  /\ NoDup (required_responses answer)
  /\ required_responses answer <> [].
Proof.
  intros Hrq [rs Hrs]. cbv zeta.
  rewrite (respond_known st sid u n t rq rs Hrq Hrs). cbv zeta.
  destruct (decide (remaining_users (with_response rq u) = ∅))
    as [Hrem | Hrem]; cbn [snd result_action required_responses];
    [discriminate |].
  intros _. split; [| split].
  - intros m. rewrite elem_of_elements. unfold remaining_users.
    rewrite elem_of_difference, !elem_of_list_to_set. reflexivity.
  - apply NoDup_elements.
  - intros Hnil. apply Hrem. apply leibniz_equiv.
    apply elements_empty_iff, Hnil.
Qed.

Lemma waiting_lists_the_missing_members_witness :
  let st := run [Open "30 minute jazz set" "g" "c" "o" ["a"; "b"] "sid"] in
  let answer :=
    snd (handle_preference_response st "sid" "a" "Ann" "I love jazz") in
  result_action answer = waiting_for_responses
  /\ "b" ∈ required_responses answer.
Proof.
  cbv zeta.
  assert (result_action
            (snd (handle_preference_response
                    (run [Open "30 minute jazz set" "g" "c" "o" ["a"; "b"]
                            "sid"]) "sid" "a" "Ann" "I love jazz"))
          = waiting_for_responses) as Hwait by (vm_compute; reflexivity).
  split; [exact Hwait |].
  assert (exists rq,
            active_requests
              (run [Open "30 minute jazz set" "g" "c" "o" ["a"; "b"] "sid"])
              !! "sid" = Some rq) as [rq Hrq]
    by (vm_compute; eexists; reflexivity).
  assert (is_Some
            (group_responses
               (run [Open "30 minute jazz set" "g" "c" "o" ["a"; "b"] "sid"])
               !! "sid")) as Hrs by (vm_compute; eexists; reflexivity).
  destruct (waiting_lists_the_missing_members _ _ "a" "Ann" "I love jazz"
              rq Hrq Hrs Hwait) as (Hlist & _ & _).
  apply (proj2 (Hlist "b")). split.
  - vm_compute in Hrq. injection Hrq as <-. cbn.
    apply elem_of_cons. right. apply elem_of_cons. left. reflexivity.
  - vm_compute in Hrq. injection Hrq as <-. cbn.
    intros H. apply list_elem_of_singleton in H. discriminate H.
Defined.

(** X6.  After any history, the status report of a stored session is
    coherent: the number of responses it reports and the number of
    remaining responses add up to the number of members, although the
    two are computed from different lists; the reported status is
    completed exactly when a setlist is reported; and for a completed
    session with distinct member ids no response remains. *)
Theorem status_report_is_coherent (ops : list operation) (sid : string)
    (report : status_report) :
  get_setlist_status (run ops) sid = Some report ->
  report_responses_received report + report_remaining_responses report
  = report_total_members report
  /\ (report_status report = completed
      <-> is_Some (report_setlist_data report))
  /\ (forall rq,
        active_requests (run ops) !! sid = Some rq ->
        List.NoDup (group_member_ids rq) ->
        report_status report = completed ->
        report_remaining_responses report <= 0).
Proof.
  unfold get_setlist_status. pose proof (run_store_ok ops sid) as Hsid.
  destruct (active_requests (run ops) !! sid) as [rq |] eqn:Hrq;
    [| discriminate].
  destruct (group_responses (run ops) !! sid) as [rs |] eqn:Hrs;
    [| contradiction].
  intros H. injection H as <-. cbn.
  destruct Hsid as [Hm _ Hc Ha _].
  split; [rewrite Hm, length_map; lia |].
  split; [exact Hc |].
  intros rq' Hrq' Hnd Hs. injection Hrq' as <-.
  pose proof (List.NoDup_incl_length Hnd (Ha Hs)). lia.
Qed.

Lemma status_report_is_coherent_witness :
  let ops := [Open "30 minute jazz set" "g" "c" "o" ["a"; "b"] "sid";
              Respond "sid" "a" "Ann" "I love jazz";
              Respond "sid" "a" "Ann" "and blues"] in
  exists report,
    get_setlist_status (run ops) "sid" = Some report
    /\ report_responses_received report + report_remaining_responses report
       = report_total_members report
    /\ report_remaining_responses report = 0
    /\ report_status report = collecting_preferences.
Proof.
  cbv zeta.
  destruct (get_setlist_status
              (run [Open "30 minute jazz set" "g" "c" "o" ["a"; "b"] "sid";
                    Respond "sid" "a" "Ann" "I love jazz";
                    Respond "sid" "a" "Ann" "and blues"]) "sid")
    as [report |] eqn:E.
  - exists report. split; [reflexivity |].
    split; [exact (proj1 (status_report_is_coherent _ _ _ E)) |].
    vm_compute in E. injection E as <-. split; reflexivity.
  - vm_compute in E. discriminate.
Defined.

(** X7.  After any history, a response to a session that is already
    completed, whoever sends it, is stored and completes the session
    again: the setlist is generated anew from all stored responses, the
    late one included, and replaces the one attached before. *)
Theorem late_response_regenerates (ops : list operation)
    (sid u n t : string) (rq : request) :
  active_requests (run ops) !! sid = Some rq ->
  status rq = completed ->
  let outcome := handle_preference_response (run ops) sid u n t in
  let data :=
    generated_data rq (responses_of (run ops) sid ++ [new_response u n t]) in
  result_action (snd outcome) = setlist_complete
  /\ result_setlist_data (snd outcome) = Some data
  /\ (active_requests (fst outcome) !! sid) ≫= req_setlist_data = Some data
  /\ responses_of (fst outcome) sid
     = (responses_of (run ops) sid ++ [new_response u n t])%list.
Proof.
  intros Hrq Hdone. cbv zeta. pose proof (run_store_ok ops sid) as Hsid.
  rewrite Hrq in Hsid.
  destruct (group_responses (run ops) !! sid) as [rs |] eqn:Hrs;
    [| contradiction].
  rewrite (respond_known _ sid u n t rq rs Hrq Hrs). cbv zeta.
  assert (remaining_users (with_response rq u) = ∅) as Hrem.
  { apply remaining_empty_In. intros m Hm. cbn. apply in_or_app. left.
    apply (completed_all_in _ _ Hsid Hdone), Hm. }
  destruct (decide (remaining_users (with_response rq u) = ∅));
    [| contradiction].
  unfold responses_of. rewrite Hrs. cbn.
  rewrite !lookup_insert_eq. cbn. auto.
Qed.

Lemma late_response_regenerates_witness :
  let ops := [Open "30 minute jazz set" "g" "c" "o" ["a"] "sid";
              Respond "sid" "a" "Ann" "I love jazz"] in
  exists rq,
    active_requests (run ops) !! "sid" = Some rq
    /\ status rq = completed
    /\ result_action
         (snd (handle_preference_response (run ops) "sid" "z" "Zed"
                 "I dislike the genre jazz")) = setlist_complete
    /\ result_setlist_data
         (snd (handle_preference_response (run ops) "sid" "z" "Zed"
                 "I dislike the genre jazz"))
       ≫= (fun d => Some (Collector.total_duration d)) = Some 23.
Proof.
  cbv zeta.
  destruct (active_requests
              (run [Open "30 minute jazz set" "g" "c" "o" ["a"] "sid";
                    Respond "sid" "a" "Ann" "I love jazz"]) !! "sid")
    as [rq |] eqn:Hrq; [| vm_compute in Hrq; discriminate].
  assert (status rq = completed) as Hdone
    by (vm_compute in Hrq; injection Hrq as <-; reflexivity).
  exists rq. split; [reflexivity |]. split; [exact Hdone |].
  destruct (late_response_regenerates _ "sid" "z" "Zed"
              "I dislike the genre jazz" rq Hrq Hdone) as (Ha & Hd & _).
  split; [exact Ha |]. rewrite Hd.
  vm_compute in Hrq. injection Hrq as <-. vm_compute. reflexivity.
Defined.

Lemma perform_keeps_store_current (st : service) (op : operation) :
  store_ok st -> store_current st -> store_current (perform st op).
Proof.
  intros Hok Hcur. destruct op as [ui g c o members sid | sid u n t];
    cbn [perform].
  - intros sid' rq rs. cbn. destruct (decide (sid = sid')) as [<- | Hne].
    + rewrite !lookup_insert_eq. intros H _. injection H as <-.
      intros d Hd. discriminate Hd.
    + rewrite !lookup_insert_ne by exact Hne. apply Hcur.
  - pose proof (Hok sid) as Hsid.
    destruct (active_requests st !! sid) as [rq |] eqn:Hrq.
    + destruct (group_responses st !! sid) as [rs |] eqn:Hrs;
        [| contradiction].
      rewrite (respond_known st sid u n t rq rs Hrq Hrs). cbv zeta.
      destruct (decide (remaining_users (with_response rq u) = ∅))
        as [Hrem | Hrem]; cbn [fst]; intros sid' rq' rs'; cbn;
        (destruct (decide (sid = sid')) as [<- | Hne];
         [ rewrite !lookup_insert_eq
         | rewrite !lookup_insert_ne by exact Hne; apply Hcur ]).
      * intros H1 H2. injection H1 as <-. injection H2 as <-.
        intros d Hd. cbn in Hd. injection Hd as <-. reflexivity.
      * intros H1 H2. injection H1 as <-. injection H2 as <-.
        intros d Hd. cbn in Hd. exfalso. apply Hrem.
        apply remaining_empty_In. intros m Hm. cbn. apply in_or_app. left.
        apply (completed_all_in _ _ Hsid); [| exact Hm].
        apply (completed_has_data _ _ Hsid). eauto.
    + rewrite (respond_unknown st sid u n t Hrq). exact Hcur.
Qed.

Lemma run_store_current (ops : list operation) : store_current (run ops).
Proof.
  unfold run.
  assert (forall st, store_ok st -> store_current st ->
                     store_ok (fold_left perform ops st)
                     /\ store_current (fold_left perform ops st)) as H.
  { induction ops as [| op ops IH]; intros st Hok Hcur; cbn [fold_left];
      [auto |].
    apply IH; [apply perform_keeps_store_ok, Hok
              | apply perform_keeps_store_current; assumption]. }
  apply H.
  - intros sid. cbn. rewrite !lookup_empty. exact I.
  - intros sid rq rs Hrq. cbn in Hrq. rewrite lookup_empty in Hrq.
    discriminate.
Qed.

(** X25.  After any history, the setlist attached to a session is
    up to date: it is the selection computed from all the responses
    stored for the session, for the target duration and the concert
    type of the request, and its total is the sum of its pieces. *)
Theorem attached_setlist_is_up_to_date (ops : list operation) (sid : string)
    (rq : request) (d : setlist_data) :
  active_requests (run ops) !! sid = Some rq ->
  req_setlist_data rq = Some d ->
  Collector.pieces d
  = _generate_setlist_pieces
      (_analyze_group_preferences (responses_of (run ops) sid))
      (req_duration_minutes rq) (req_concert_type rq)
  /\ Collector.total_duration d = sum_durations (Collector.pieces d).
Proof.
  intros Hrq Hd. pose proof (run_store_ok ops sid) as Hsid.
  rewrite Hrq in Hsid.
  destruct (group_responses (run ops) !! sid) as [rs |] eqn:Hrs;
    [| contradiction].
  rewrite (run_store_current ops sid rq rs Hrq Hrs d Hd).
  unfold responses_of. rewrite Hrs. cbn. auto.
Qed.

Lemma attached_setlist_is_up_to_date_witness :
  let ops := [Open "30 minute jazz set" "g" "c" "o" ["a"] "sid";
              Respond "sid" "a" "Ann" "I love jazz";
              Respond "sid" "z" "Zed" "I dislike the genre jazz"] in
  exists rq d,
    active_requests (run ops) !! "sid" = Some rq
    /\ req_setlist_data rq = Some d
    /\ Collector.pieces d
       = _generate_setlist_pieces
           (_analyze_group_preferences (responses_of (run ops) "sid"))
           30 "jazz_concert"
    /\ length (responses_of (run ops) "sid") = 2%nat.
Proof.
  cbv zeta.
  destruct (active_requests
              (run [Open "30 minute jazz set" "g" "c" "o" ["a"] "sid";
                    Respond "sid" "a" "Ann" "I love jazz";
                    Respond "sid" "z" "Zed" "I dislike the genre jazz"])
              !! "sid") as [rq |] eqn:Hrq;
    [| vm_compute in Hrq; discriminate].
  destruct (req_setlist_data rq) as [d |] eqn:Hd;
    [| vm_compute in Hrq; injection Hrq as <-; discriminate].
  exists rq, d. split; [reflexivity |]. split; [exact Hd |].
  destruct (attached_setlist_is_up_to_date _ _ rq d Hrq Hd) as [Hp _].
  split; [| vm_compute; reflexivity].
  rewrite Hp. vm_compute in Hrq. injection Hrq as <-. reflexivity.
Defined.

End SessionFacts.

(** ** The extractor, further *)

Module ExtractionFacts.
Import PyStr Re Extractor Notions.

Lemma is_digit_lower_char (c : ascii) : is_digit (lower_char c) = is_digit c.
Proof. destruct c as [[] [] [] [] [] [] [] []]; reflexivity. Qed.

Lemma has_digit_lower (s : string) : has_digit (lower s) = has_digit s.
Proof.
  induction s as [| c s IH]; cbn [lower has_digit]; [reflexivity |].
  rewrite is_digit_lower_char, IH. reflexivity.
Qed.

Lemma search_without_digit (s : string) :
  has_digit s = false -> search duration_pattern s = None.
Proof.
  induction s as [| c s IH]; cbn [has_digit]; intros H; [reflexivity |].
  apply orb_false_elim in H as [Hc Hs].
  unfold duration_pattern. cbn [search match_here rmatch].
  rewrite Hc. apply IH, Hs.
Qed.

(** X8.  The parameters read from the organiser's request: the concert
    type is one of the three known types; the target duration is not
    negative; a text without a decimal digit gets the default of sixty
    minutes; and when "hour" or "hr" occurs anywhere in the text, also
    inside a word, the target is a multiple of sixty, whatever the unit
    written after the number. *)
Theorem request_parameters_are_bounded (user_input : string) :
  let params := _extract_setlist_parameters user_input in
  In (param_concert_type params)
     ["jazz_concert"; "classical_recital"; "chamber_music"]
  /\ 0 <= param_duration_minutes params
  /\ (has_digit user_input = false -> param_duration_minutes params = 60)
  /\ ((isin "hour" (lower user_input) || isin "hr" (lower user_input))%bool
      = true ->
      exists n, 0 <= n /\ param_duration_minutes params = 60 * n).
Proof.
  cbv zeta. cbn [_extract_setlist_parameters param_concert_type
                 param_duration_minutes].
  split; [| split; [| split]].
  - unfold extract_concert_type.
    destruct (any_in _ _); [cbn; auto |].
    destruct (any_in _ _); [cbn; auto |].
    destruct (any_in _ _); cbn; auto.
  - unfold extract_duration.
    destruct (search duration_pattern (lower user_input)) as [digits |];
      [| lia].
    pose proof (CollectorFacts.int_of_digits_nonneg digits 0 ltac:(lia)).
    destruct (isin "hour" _ || isin "hr" _)%bool; lia.
  - intros H. unfold extract_duration.
    rewrite search_without_digit; [reflexivity |].
    rewrite has_digit_lower. exact H.
  - intros H. unfold extract_duration. rewrite H.
    destruct (search duration_pattern (lower user_input)) as [digits |].
    + exists (int_of_digits 0 digits).
      split; [apply CollectorFacts.int_of_digits_nonneg; lia | lia].
    + exists 1. lia.
Qed.

Lemma request_parameters_are_bounded_witness :
  has_digit "A jazz evening" = false
  /\ param_duration_minutes (_extract_setlist_parameters "A jazz evening")
     = 60
  /\ param_duration_minutes
       (_extract_setlist_parameters "30 minute set with three solos")
     = 1800.
Proof.
  assert (has_digit "A jazz evening" = false) as H by reflexivity.
  split; [exact H |].
  split;
    [exact (proj1 (proj2 (proj2
              (request_parameters_are_bounded "A jazz evening"))) H) |].
  vm_compute. reflexivity.
Defined.

Lemma keyword_hits_In (table : list (string * list string)) (text g : string) :
  In g (keyword_hits table text) -> In g (map fst table).
Proof.
  unfold keyword_hits. rewrite !in_map_iff.
  intros (kv & <- & Hkv). apply filter_In in Hkv as [Hkv _]. eauto.
Qed.

Lemma keyword_hits_NoDup (table : list (string * list string))
    (text : string) :
  List.NoDup (map fst table) -> List.NoDup (keyword_hits table text).
Proof.
  unfold keyword_hits.
  induction table as [| kv table IH]; cbn [map List.filter]; intros Hnd;
    [constructor |].
  apply List.NoDup_cons_iff in Hnd as [Hnot Hnd].
  destruct (any_in (snd kv) text); cbn [map]; [| apply IH, Hnd].
  constructor; [| apply IH, Hnd].
  intros Hin. apply Hnot, (keyword_hits_In table text), Hin.
Qed.

Lemma firstn_In {A : Type} (n : nat) (l : list A) (x : A) :
  In x (firstn n l) -> In x l.
Proof.
  intros H. rewrite <- (firstn_skipn n l). apply in_or_app. left. exact H.
Qed.

Lemma stripped_matches_long (patterns : list regex) (text x : string) :
  In x (stripped_matches patterns text) -> 2 < len x.
Proof.
  unfold stripped_matches. rewrite in_flat_map.
  intros (p & _ & Hx). apply filter_In in Hx as [_ Hx].
  apply Z.ltb_lt, Hx.
Qed.

Lemma negated_composers_long (text x : string) :
  In x (negated_composers text) -> 2 < len x.
Proof.
  unfold negated_composers. rewrite in_map_iff.
  intros (c & <- & Hc). apply filter_In in Hc as [Hc _].
  unfold composer_names in Hc. cbn [In] in Hc.
  repeat (destruct Hc as [<- | Hc]; [vm_compute; reflexivity |]).
  contradiction.
Qed.

(** X9.  For every text, the lists that [_parse_preference_text] returns
    are bounded: at most five favourite composers, at most three avoided
    genres and at most three avoided composers, each entry with more
    than two characters; the favourite genres and the instruments are
    drawn from the fixed vocabularies, each at most once. *)
Theorem extracted_lists_are_bounded (text : string) :
  let p := _parse_preference_text text in
  ((length (favorite_composers p) <= 5)%nat
   /\ (length (avoid_genres p) <= 3)%nat
   /\ (length (avoid_composers p) <= 3)%nat)
  /\ (forall x,
        In x (favorite_composers p) \/ In x (avoid_genres p)
        \/ In x (avoid_composers p) ->
        2 < len x)
  /\ (List.NoDup (favorite_genres p)
      /\ forall g, In g (favorite_genres p) ->
                   In g ["jazz"; "blues"; "classical"; "rock"; "folk";
                         "country"; "electronic"; "latin"])
  /\ (List.NoDup (instruments p)
      /\ forall i, In i (instruments p) ->
                   In i ["piano"; "guitar"; "violin"; "cello"; "viola";
                         "flute"; "clarinet"; "saxophone"; "trumpet";
                         "drums"; "bass"; "voice"]).
Proof.
  cbv zeta. cbn [_parse_preference_text favorite_composers avoid_genres
                 avoid_composers favorite_genres instruments].
  split; [| split; [| split]].
  - repeat split; apply List.firstn_le_length.
  - intros x [H | [H | H]]; apply firstn_In in H.
    + apply (stripped_matches_long _ _ _ H).
    + apply (stripped_matches_long _ _ _ H).
    + apply in_app_or in H as [H | H];
        [apply (stripped_matches_long _ _ _ H)
        | apply (negated_composers_long _ _ H)].
  - split.
    + apply keyword_hits_NoDup. vm_compute.
      repeat (constructor; [cbn; intuition discriminate |]). constructor.
    + intros g Hg. apply keyword_hits_In in Hg. exact Hg.
  - split.
    + apply keyword_hits_NoDup. vm_compute.
      repeat (constructor; [cbn; intuition discriminate |]). constructor.
    + intros i Hi. apply keyword_hits_In in Hi. exact Hi.
Qed.

End ExtractionFacts.

(** ** The aggregation of the group preferences, further *)

Module AggregationFacts.
Import PyStr Extractor Collector Notions.

Lemma counter_keys_In (xs : list string) :
  forall seen x, In x (counter_keys seen xs) <-> In x xs /\ ~ In x seen.
Proof.
  induction xs as [| y xs IH]; intros seen x; cbn [counter_keys In];
    [tauto |].
  destruct (bool_decide (y ∈ seen)) eqn:E.
  - apply bool_decide_eq_true in E. apply list_elem_of_In in E.
    rewrite IH. split; [tauto |]. intros [[-> | H] Hn]; tauto.
  - apply bool_decide_eq_false in E. rewrite list_elem_of_In in E.
    cbn [In]. rewrite IH. cbn [In]. split.
    + intros [<- | [H Hn]]; [tauto |]. split; [tauto |]. tauto.
    + intros [[<- | H] Hn]; [tauto |].
      destruct (decide (y = x)) as [-> | Hne]; [tauto |]. right. tauto.
Qed.

Lemma counter_keys_NoDup (xs : list string) :
  forall seen, List.NoDup (counter_keys seen xs).
Proof.
  induction xs as [| y xs IH]; intros seen; cbn [counter_keys];
    [constructor |].
  destruct (bool_decide (y ∈ seen)); [apply IH |].
  constructor; [| apply IH].
  rewrite counter_keys_In. cbn [In]. tauto.
Qed.

Lemma filter_NoDup {A : Type} (f : A -> bool) (l : list A) :
  List.NoDup l -> List.NoDup (List.filter f l).
Proof.
  induction 1 as [| x l Hx _ IH]; cbn [List.filter]; [constructor |].
  destruct (f x); [| exact IH].
  constructor; [| exact IH]. intros H. apply filter_In in H. tauto.
Qed.

Lemma common_In (xs : list string) (x : string) :
  In x (common xs) <-> 1 < counter_count xs x.
Proof.
  unfold common. rewrite filter_In, counter_keys_In, Z.ltb_lt.
  split; [tauto |]. intros H. split; [| exact H]. split; [| tauto].
  unfold counter_count in H.
  destruct (List.filter (fun y => bool_decide (y = x)) xs) as [| y l] eqn:E;
    [cbn in H; lia |].
  assert (In y (List.filter (fun y => bool_decide (y = x)) xs)) as Hy
    by (rewrite E; left; reflexivity).
  apply filter_In in Hy as [Hy Hb]. apply bool_decide_eq_true in Hb.
  subst y. exact Hy.
Qed.

Lemma count_NoDup (xs : list string) (x : string) :
  List.NoDup xs ->
  counter_count xs x = if bool_decide (x ∈ xs) then 1 else 0.
Proof.
  unfold counter_count.
  induction 1 as [| y xs Hy _ IH]; cbn [List.filter].
  - rewrite bool_decide_eq_false_2; [reflexivity |].
    intros H. apply list_elem_of_In in H. contradiction.
  - destruct (bool_decide (y = x)) eqn:E.
    + apply bool_decide_eq_true in E. subst y.
      rewrite (bool_decide_eq_true_2 (x ∈ x :: xs))
        by (apply elem_of_cons; tauto).
      rewrite (bool_decide_eq_false_2 (x ∈ xs)) in IH
        by (rewrite list_elem_of_In; exact Hy).
      cbn [length]. lia.
    + apply bool_decide_eq_false in E. rewrite IH.
      destruct (bool_decide (x ∈ xs)) eqn:E2.
      * apply bool_decide_eq_true in E2.
        rewrite bool_decide_eq_true_2 by (apply elem_of_cons; tauto).
        reflexivity.
      * apply bool_decide_eq_false in E2.
        rewrite bool_decide_eq_false_2; [reflexivity |].
        intros H. apply elem_of_cons in H as [-> | H]; tauto.
Qed.

Lemma count_flat_map (rs : list response) (g : string) :
  (forall r, In r rs -> List.NoDup (favorite_genres (preferences r))) ->
  counter_count (flat_map favorite_genres (map preferences rs)) g
  = Z.of_nat (length (listing_genre g rs)).
Proof.
  induction rs as [| r rs IH]; intros Hnd; [reflexivity |].
  cbn [map flat_map]. rewrite CollectorFacts.counter_count_app.
  rewrite IH by (intros; apply Hnd; right; assumption).
  rewrite count_NoDup by (apply Hnd; left; reflexivity).
  unfold listing_genre. cbn [List.filter].
  destruct (bool_decide (g ∈ favorite_genres (preferences r)));
    cbn [length]; lia.
Qed.

Lemma favorite_genres_NoDup (text : string) :
  List.NoDup (favorite_genres (_parse_preference_text text)).
Proof.
  cbn [_parse_preference_text favorite_genres].
  apply ExtractionFacts.keyword_hits_NoDup.
  apply NoDup_ListNoDup, (bool_decide_unpack _). vm_compute. exact I.
Qed.

(** X10.  For the responses as the service stores them, a genre is a
    common genre exactly when at least two stored responses list it
    among their favourites; two responses of one participant count as
    two.  No common genre and no common composer is listed twice. *)
Theorem common_genre_needs_two_responses (subs : list submission)
    (g : string) :
  let rs := map stored_response subs in
  let ga := _analyze_group_preferences rs in
  (In g (common_genres ga) <-> (2 <= length (listing_genre g rs))%nat)
  /\ List.NoDup (common_genres ga)
  /\ List.NoDup (common_composers ga).
Proof.
  cbv zeta. cbn [_analyze_group_preferences common_genres common_composers].
  split; [| split].
  - rewrite common_In, count_flat_map; [lia |].
    intros r Hr. apply in_map_iff in Hr as (s & <- & _).
    apply favorite_genres_NoDup.
  - apply filter_NoDup, counter_keys_NoDup.
  - apply filter_NoDup, counter_keys_NoDup.
Qed.

Lemma compatibility_value (n m : nat) :
  (compatibility n m
   == if (4 <=? n + m)%nat then 9 # 10
      else (5 + Z.of_nat n + Z.of_nat m) # 10)%Q.
Proof.
  unfold compatibility.
  set (raw := ((1 # 2) + inject_Z (Z.of_nat n) * (1 # 10)
               + inject_Z (Z.of_nat m) * (1 # 10))%Q).
  assert (raw == (5 + Z.of_nat n + Z.of_nat m) # 10)%Q as Hraw.
  { unfold raw, Qeq, Qplus, Qmult, inject_Z. cbn. lia. }
  destruct (Qle_bool (9 # 10) raw) eqn:E.
  - apply Qle_bool_iff in E. rewrite Hraw in E.
    unfold Qle in E. cbn in E.
    destruct (4 <=? n + m)%nat eqn:E4; [reflexivity |].
    apply Nat.leb_gt in E4. lia.
  - assert (~ (9 # 10 <= raw)%Q) as Hn
      by (intros H; apply Qle_bool_iff in H; congruence).
    rewrite Hraw in Hn. unfold Qle in Hn. cbn in Hn.
    destruct (4 <=? n + m)%nat eqn:E4; [| exact Hraw].
    apply Nat.leb_le in E4. lia.
Qed.

(** X11.  The compatibility score of every group lies between one half
    and nine tenths, and it is one half exactly when the group has no
    common genre and no common composer. *)
Theorem compatibility_score_bounds (responses : list response) :
  let ga := _analyze_group_preferences responses in
  (1 # 2 <= compatibility_score ga)%Q
  /\ (compatibility_score ga <= 9 # 10)%Q
  /\ ((compatibility_score ga == 1 # 2)%Q
      <-> common_genres ga = [] /\ common_composers ga = []).
Proof.
  cbv zeta. cbn [_analyze_group_preferences compatibility_score
                 common_genres common_composers].
  set (cg := common (flat_map favorite_genres (map preferences responses))).
  set (cc := common (flat_map favorite_composers (map preferences responses))).
  rewrite (compatibility_value (length cg) (length cc)).
  destruct (4 <=? length cg + length cc)%nat eqn:E4.
  - apply Nat.leb_le in E4. split; [unfold Qle; cbn; lia |].
    split; [unfold Qle; cbn; lia |]. split.
    + intros H. unfold Qeq in H. cbn in H. lia.
    + intros [-> ->]. cbn in E4. lia.
  - apply Nat.leb_gt in E4. split; [unfold Qle; cbn; lia |].
    split; [unfold Qle; cbn; lia |]. split.
    + intros H. unfold Qeq in H. cbn in H.
      destruct cg, cc; cbn in H; try lia. auto.
    + intros [-> ->]. reflexivity.
Qed.

Lemma insert_desc_perm (x : piece) (l : list piece) :
  Permutation (insert_desc x l) (x :: l).
Proof.
  induction l as [| y l IH]; cbn [insert_desc]; [reflexivity |].
  destruct (score_of x <? score_of y); [| reflexivity].
  rewrite IH. apply perm_swap.
Qed.

Lemma sort_desc_perm (l : list piece) : Permutation (sort_desc l) l.
Proof.
  unfold sort_desc. induction l as [| x l IH]; cbn [foldr]; [reflexivity |].
  rewrite insert_desc_perm, IH. reflexivity.
Qed.

Lemma preference_score_range (ga : group_analysis) (p : piece) :
  0 <= preference_score ga p <= 11.
Proof.
  unfold preference_score.
  destruct (any_lower_in (common_genres ga) _),
    (any_lower_in (common_composers ga) _),
    (bool_decide (difficulty p ∈ skill_levels ga)),
    (tempo_matches (style p)); lia.
Qed.

(** X12.  Filtering by the preferences loses and duplicates nothing: the
    pool is a rearrangement of the candidates that are not avoided, each
    carrying its score, and every score lies between 0 and 11. *)
Theorem filter_keeps_the_other_candidates (pieces : list piece)
    (ga : group_analysis) :
  Permutation (_filter_pieces_by_preferences pieces ga)
    (map (with_score ga)
       (List.filter (fun p => negb (is_avoided ga p)) pieces))
  /\ (forall p, In p (_filter_pieces_by_preferences pieces ga) ->
        exists p0 s,
          In p0 pieces /\ is_avoided ga p0 = false
          /\ p = with_score ga p0
          /\ collaborative_score p = Some s /\ 0 <= s <= 11).
Proof.
  unfold _filter_pieces_by_preferences. split; [apply sort_desc_perm |].
  intros p Hp. apply (proj1 (CollectorFacts.sort_desc_In _ _)) in Hp.
  apply in_map_iff in Hp as (p0 & <- & Hp0).
  apply filter_In in Hp0 as [Hin Hav]. apply negb_true_iff in Hav.
  exists p0, (preference_score ga p0).
  repeat split; auto; apply preference_score_range.
Qed.

End AggregationFacts.

(** ** The shape of the collaborative selection *)

Module SelectionFacts.
Import PyStr Extractor Collector Notions.

Lemma add_middle_prefix (ends : list piece) (target : Z) :
  forall (pool selected : list piece) (current : Z),
    let cands :=
      List.filter (fun p => negb (bool_decide (p ∈ ends))) pool in
    exists k,
      add_middle pool ends target selected current
      = ((selected ++ firstn k cands)%list,
         current + sum_durations (firstn k cands))
      /\ (forall p,
            nth_error cands k = Some p ->
            within_90
              (current + sum_durations (firstn k cands) + duration_minutes p)
              target = false).
Proof.
  induction pool as [| p pool IH]; intros selected current; cbv zeta.
  - exists O. cbn. rewrite app_nil_r, Z.add_0_r. split; [reflexivity |].
    discriminate.
  - cbn [add_middle List.filter].
    destruct (bool_decide (p ∈ ends)); cbn [negb]; [apply IH |].
    destruct (within_90 (current + duration_minutes p) target) eqn:E.
    + destruct (IH (selected ++ [p])%list (current + duration_minutes p))
        as (k & Hk & Hmax).
      exists (S k). cbn [firstn nth_error]. split.
      * rewrite Hk, <- app_assoc. cbn [app sum_durations foldr].
        f_equal. fold (sum_durations
                         (firstn k (List.filter
                            (fun p0 => negb (bool_decide (p0 ∈ ends))) pool))).
        lia.
      * intros q Hq. specialize (Hmax q Hq).
        cbn [sum_durations foldr].
        fold (sum_durations
                (firstn k (List.filter
                   (fun p0 => negb (bool_decide (p0 ∈ ends))) pool))).
        rewrite <- Hmax. f_equal. lia.
    + exists O. cbn [firstn nth_error]. rewrite app_nil_r.
      cbn [sum_durations foldr]. rewrite Z.add_0_r. split; [reflexivity |].
      intros q Hq. injection Hq as <-. exact E.
Qed.

Lemma add_start_shape (pool : list piece) (target : Z) (ga : group_analysis) :
  add_start pool (hinted_pieces (start_preferences ga) pool) target
  = (opening_part pool target ga,
     sum_durations (opening_part pool target ga),
     match opening_part pool target ga with
     | start_piece :: _ => remove_first start_piece pool
     | [] => pool
     end).
Proof.
  unfold add_start, opening_part, reserved_opening.
  destruct (hinted_pieces (start_preferences ga) pool) as [| sp rest];
    cbn [head]; [reflexivity |].
  destruct (within_90 (duration_minutes sp) target); [| reflexivity].
  cbn [sum_durations foldr]. rewrite Z.add_0_r. reflexivity.
Qed.

Lemma sum_durations_app (l1 l2 : list piece) :
  sum_durations (l1 ++ l2) = sum_durations l1 + sum_durations l2.
Proof.
  unfold sum_durations.
  induction l1 as [| x l1 IH]; cbn [app foldr]; [lia | rewrite IH; lia].
Qed.

(** The selection, taken apart *)
Lemma selection_shape (pool : list piece) (target : Z) (ga : group_analysis) :
  exists k closing,
    _select_pieces_for_duration pool target ga
    = (opening_part pool target ga
       ++ firstn k (middle_candidates pool target ga) ++ closing)%list
    /\ (forall p,
          nth_error (middle_candidates pool target ga) k = Some p ->
          9 * target
          < 10 * (sum_durations (opening_part pool target ga)
                  + sum_durations
                      (firstn k (middle_candidates pool target ga))
                  + duration_minutes p))
    /\ (closing = []
        \/ exists end_piece,
             reserved_closing pool ga = Some end_piece
             /\ closing = [end_piece]
             /\ 10 * (sum_durations (opening_part pool target ga)
                      + sum_durations
                          (firstn k (middle_candidates pool target ga))
                      + duration_minutes end_piece) <= 9 * target).
Proof.
  unfold _select_pieces_for_duration, select_with_total.
  rewrite add_start_shape.
  destruct (add_middle_prefix (hinted_pieces (end_preferences ga) pool)
              target
              (match opening_part pool target ga with
               | start_piece :: _ => remove_first start_piece pool
               | [] => pool
               end)
              (opening_part pool target ga)
              (sum_durations (opening_part pool target ga)))
    as (k & Hk & Hmax).
  cbv zeta in Hk, Hmax. fold (middle_candidates pool target ga) in Hk, Hmax.
  rewrite Hk. exists k.
  assert (forall p,
            nth_error (middle_candidates pool target ga) k = Some p ->
            9 * target
            < 10 * (sum_durations (opening_part pool target ga)
                    + sum_durations
                        (firstn k (middle_candidates pool target ga))
                    + duration_minutes p)) as Hmax'.
  { intros p Hp. specialize (Hmax p Hp). unfold within_90 in Hmax.
    apply Z.leb_gt in Hmax. lia. }
  unfold add_end, reserved_closing.
  destruct (hinted_pieces (end_preferences ga) pool) as [| ep rest];
    cbn [head].
  - exists []. rewrite app_nil_r. cbn [fst]. auto.
  - destruct ((10 * _ <? 9 * target) && within_90 _ target) eqn:E.
    + exists [ep]. cbn [fst]. rewrite <- app_assoc.
      split; [reflexivity |]. split; [exact Hmax' |]. right. exists ep.
      apply andb_prop in E as [_ E]. unfold within_90 in E.
      apply Z.leb_le in E. auto.
    + exists []. rewrite app_nil_r. cbn [fst]. auto.
Qed.


Lemma remove_first_NoDup (x : piece) (l : list piece) :
  List.NoDup l ->
  List.NoDup (remove_first x l) /\ (In x l -> ~ In x (remove_first x l)).
Proof.
  induction 1 as [| y l Hy Hnd IH]; cbn [remove_first];
    [split; [constructor | tauto] |].
  destruct (decide (y = x)) as [E | Hne].
  - subst y. split; [exact Hnd | tauto].
  - destruct IH as [IH1 IH2]. split.
    + constructor; [| exact IH1]. intros H.
      apply CollectorFacts.remove_first_In in H. contradiction.
    + intros [E | Hin] [E' | H]; try contradiction; try congruence.
      exact (IH2 Hin H).
Qed.

Lemma firstn_NoDup {A : Type} (k : nat) (l : list A) :
  List.NoDup l -> List.NoDup (firstn k l).
Proof.
  intros H. rewrite <- (firstn_skipn k l) in H.
  apply List.NoDup_app_remove_r in H. exact H.
Qed.

Lemma filtered_catalogue_NoDup (concert_type : string) (ga : group_analysis) :
  List.NoDup (_filter_pieces_by_preferences (catalogue concert_type) ga).
Proof.
  apply (List.NoDup_map_inv title).
  apply (Permutation_NoDup
           (Permutation_sym
              (Permutation_map title
                 (AggregationFacts.sort_desc_perm _)))).
  rewrite map_map. cbn [with_score title].
  assert (forall l : list piece,
            List.NoDup (map title l) ->
            List.NoDup
              (map title
                 (List.filter (fun p => negb (is_avoided ga p)) l))) as Hf.
  { induction l as [| p l IH]; cbn [map List.filter]; intros H;
      [constructor |].
    apply List.NoDup_cons_iff in H as [Hp H].
    destruct (negb (is_avoided ga p)); cbn [map]; [| apply IH, H].
    constructor; [| apply IH, H]. intros Hin. apply Hp.
    apply in_map_iff in Hin as (q & <- & Hq). apply filter_In in Hq as [Hq _].
    apply in_map, Hq. }
  apply Hf. unfold catalogue.
  destruct (String.eqb concert_type "jazz_concert");
    [apply NoDup_ListNoDup, (bool_decide_unpack _); vm_compute; exact I |].
  destruct (String.eqb concert_type "classical_recital");
    [apply NoDup_ListNoDup, (bool_decide_unpack _); vm_compute; exact I |].
  destruct (String.eqb concert_type "chamber_music");
    apply NoDup_ListNoDup, (bool_decide_unpack _); vm_compute; exact I.
Qed.

(** X14.  A generated setlist holds a piece twice only when that piece
    is reserved both for the opening and for the closing: whenever the
    two reserved pieces differ, or one of them is missing, the pieces of
    the setlist are pairwise distinct. *)
Theorem no_piece_twice_unless_reserved_twice (ga : group_analysis)
    (duration : Z) (concert_type : string) :
  let pool := _filter_pieces_by_preferences (catalogue concert_type) ga in
  (forall p, reserved_opening pool ga = Some p ->
             reserved_closing pool ga <> Some p) ->
  List.NoDup (_generate_setlist_pieces ga duration concert_type).
Proof.
  cbv zeta. intros Hdiff. unfold _generate_setlist_pieces.
  set (pool := _filter_pieces_by_preferences (catalogue concert_type) ga)
    in *.
  pose proof (filtered_catalogue_NoDup concert_type ga) as Hpool.
  fold pool in Hpool.
  destruct (selection_shape pool duration ga) as (k & closing & -> & _ & Hc).
  set (mid := firstn k (middle_candidates pool duration ga)).
  assert (forall q, In q mid -> In q (middle_candidates pool duration ga))
    as Hmid by (intros q; apply ExtractionFacts.firstn_In).
  assert (List.NoDup mid) as Hmidnd.
  { apply firstn_NoDup. unfold middle_candidates. apply List.NoDup_filter.
    destruct (opening_part pool duration ga);
      [exact Hpool | apply remove_first_NoDup, Hpool]. }
  assert (List.NoDup (mid ++ closing)) as Htail.
  { destruct Hc as [-> | (ep & Hep & -> & _)];
      [rewrite app_nil_r; exact Hmidnd |].
    apply List.NoDup_app; [exact Hmidnd | repeat constructor; cbn; tauto |].
    intros q Hq [<- | []]. apply Hmid in Hq.
    unfold middle_candidates in Hq. apply filter_In in Hq as [_ Hq].
    apply negb_true_iff, bool_decide_eq_false in Hq. apply Hq.
    unfold reserved_closing in Hep.
    destruct (hinted_pieces (end_preferences ga) pool) as [| e rest];
      [discriminate |].
    injection Hep as ->. apply elem_of_cons. left. reflexivity. }
  assert (opening_part pool duration ga = []
          \/ exists sp, reserved_opening pool ga = Some sp
                        /\ opening_part pool duration ga = [sp]) as Hopen.
  { unfold opening_part.
    destruct (reserved_opening pool ga) as [sp |]; [| auto].
    destruct (within_90 (duration_minutes sp) duration); eauto. }
  destruct Hopen as [Ho | (sp & Hsp & Ho)]; rewrite Ho; [exact Htail |].
  cbn [app]. constructor; [| exact Htail].
  intros Hin. apply in_app_or in Hin as [Hin | Hin].
  - apply Hmid in Hin. unfold middle_candidates in Hin. rewrite Ho in Hin.
    apply filter_In in Hin as [Hin _].
    assert (In sp pool) as Hsp_in.
    { unfold reserved_opening in Hsp.
      destruct (hinted_pieces (start_preferences ga) pool) as [| s rest]
        eqn:Hh; [discriminate |].
      injection Hsp as ->.
      apply (CollectorFacts.hinted_pieces_In (start_preferences ga) pool sp).
      rewrite Hh. left. reflexivity. }
    exact (proj2 (remove_first_NoDup sp pool Hpool) Hsp_in Hin).
  - destruct Hc as [-> | (ep & Hep & -> & _)]; [contradiction |].
    destruct Hin as [-> | []]. exact (Hdiff sp Hsp Hep).
Qed.

Lemma no_piece_twice_unless_reserved_twice_witness :
  let ga :=
    _analyze_group_preferences
      [stored_response (say "a" "start with blues");
       stored_response (say "b" "end with bebop")] in
  let pool := _filter_pieces_by_preferences (catalogue "jazz_concert") ga in
  (forall p, reserved_opening pool ga = Some p ->
             reserved_closing pool ga <> Some p)
  /\ List.NoDup (_generate_setlist_pieces ga 30 "jazz_concert").
Proof.
  cbv zeta.
  assert (forall p,
            reserved_opening
              (_filter_pieces_by_preferences (catalogue "jazz_concert")
                 (_analyze_group_preferences
                    [stored_response (say "a" "start with blues");
                     stored_response (say "b" "end with bebop")]))
              (_analyze_group_preferences
                 [stored_response (say "a" "start with blues");
                  stored_response (say "b" "end with bebop")]) = Some p ->
            reserved_closing
              (_filter_pieces_by_preferences (catalogue "jazz_concert")
                 (_analyze_group_preferences
                    [stored_response (say "a" "start with blues");
                     stored_response (say "b" "end with bebop")]))
              (_analyze_group_preferences
                 [stored_response (say "a" "start with blues");
                  stored_response (say "b" "end with bebop")]) <> Some p)
    as Hdiff.
  { intros p H1 H2. vm_compute in H1, H2. rewrite <- H1 in H2.
    discriminate H2. }
  split; [exact Hdiff |].
  exact (no_piece_twice_unless_reserved_twice _ 30 "jazz_concert" Hdiff).
Defined.

(** The hypothesis matters: with "start with blues" from one member and
    "end with blues" from another, a target of 45 minutes gives a setlist
    that opens and closes with the same piece. *)
Remark piece_reserved_twice_is_listed_twice :
  let ga :=
    _analyze_group_preferences
      [stored_response (say "a" "start with blues");
       stored_response (say "b" "end with blues")] in
  let setlist := _generate_setlist_pieces ga 45 "jazz_concert" in
  title <$> head setlist = Some "Blue Monk"
  /\ title <$> last setlist = Some "Blue Monk".
Proof. cbv zeta. split; vm_compute; reflexivity. Qed.

End SelectionFacts.

(** ** The pipeline of the coordinator, further *)

Module PipelineFacts.
Import Coordinator PipelineNotions.

Lemma title_of_default (p : piece) (t : string) :
  default "" (title p) = t -> t <> "" -> title p = Some t.
Proof.
  destruct (title p) as [t0 |]; cbn; intros <- H; [reflexivity |].
  contradiction.
Qed.

Lemma collect_taken (seen : gset string) (p : piece) :
  (negb (String.eqb (default "" (title p)) "")
   && negb (bool_decide (default "" (title p) ∈ seen)))%bool = true
  <-> exists t, title p = Some t /\ t <> "" /\ t ∉ seen.
Proof.
  rewrite andb_true_iff, !negb_true_iff, String.eqb_neq.
  rewrite bool_decide_eq_false. split.
  - intros [H1 H2]. exists (default "" (title p)).
    split; [apply title_of_default; auto | auto].
  - intros (t & Ht & H1 & H2). rewrite Ht. cbn. auto.
Qed.

Lemma collect_sound (candidates : list piece) :
  forall (seen : gset string) (q : piece),
    In q (collect seen candidates) ->
    exists t, title q = Some t /\ t <> "" /\ (t ∉ seen)
              /\ List.find (has_title t) candidates = Some q.
Proof.
  induction candidates as [| p rest IH]; intros seen q Hq; [contradiction |].
  cbn [collect] in Hq. cbv zeta in Hq.
  destruct (negb (String.eqb (default "" (title p)) "")
            && negb (bool_decide (default "" (title p) ∈ seen)))%bool eqn:E.
  - apply collect_taken in E as (t0 & Ht0 & Hne & Hseen).
    rewrite Ht0 in Hq. cbn [default from_option id] in Hq.
    destruct Hq as [<- | Hq].
    + exists t0. repeat split; auto. cbn [List.find]. unfold has_title.
      rewrite bool_decide_eq_true_2 by exact Ht0. reflexivity.
    + apply IH in Hq as (t & Ht & Hn & Hs & Hf).
      rewrite elem_of_union, elem_of_singleton in Hs.
      exists t. repeat split; auto. cbn [List.find]. unfold has_title at 1.
      rewrite bool_decide_eq_false_2; [exact Hf |].
      rewrite Ht0. intros H. injection H as ->. tauto.
  - apply IH in Hq as (t & Ht & Hn & Hs & Hf).
    exists t. repeat split; auto. cbn [List.find]. unfold has_title at 1.
    rewrite bool_decide_eq_false_2; [exact Hf |].
    intros H. assert (exists t, title p = Some t /\ t <> "" /\ t ∉ seen) as Hc
      by eauto.
    apply collect_taken in Hc. congruence.
Qed.

Lemma collect_complete (candidates : list piece) :
  forall (seen : gset string) (p : piece) (t : string),
    In p candidates -> title p = Some t -> t <> "" -> t ∉ seen ->
    exists q, In q (collect seen candidates) /\ title q = Some t.
Proof.
  induction candidates as [| p0 rest IH]; intros seen p t Hp Ht Hne Hs;
    [contradiction |].
  cbn [collect]. cbv zeta.
  destruct (negb (String.eqb (default "" (title p0)) "")
            && negb (bool_decide (default "" (title p0) ∈ seen)))%bool eqn:E.
  - apply collect_taken in E as (t0 & Ht0 & Hne0 & Hseen0).
    destruct (decide (t0 = t)) as [-> | Hdiff].
    + exists p0. split; [left; reflexivity | exact Ht0].
    + destruct Hp as [-> | Hp]; [congruence |].
      destruct (IH (seen ∪ {[default "" (title p0)]}) p t Hp Ht Hne)
        as (q & Hq & Hqt).
      { rewrite Ht0. cbn. rewrite elem_of_union, elem_of_singleton.
        intros [H | H]; [contradiction | congruence]. }
      exists q. split; [right; exact Hq | exact Hqt].
  - destruct Hp as [-> | Hp].
    + assert (exists t, title p = Some t /\ t <> "" /\ t ∉ seen) as Hc
        by eauto.
      apply collect_taken in Hc. congruence.
    + apply (IH seen p t Hp Ht Hne Hs).
Qed.

Lemma collect_titles_NoDup (candidates : list piece) :
  forall seen : gset string,
    List.NoDup (map title (collect seen candidates)).
Proof.
  induction candidates as [| p rest IH]; intros seen; cbn [collect];
    [constructor |].
  cbv zeta.
  destruct (negb (String.eqb (default "" (title p)) "")
            && negb (bool_decide (default "" (title p) ∈ seen)))%bool eqn:E;
    [| apply IH].
  cbn [map]. constructor; [| apply IH].
  apply collect_taken in E as (t0 & Ht0 & Hne0 & Hseen0).
  intros Hin. apply in_map_iff in Hin as (q & Hq & Hin).
  apply collect_sound in Hin as (t & Ht & _ & Hs & _).
  rewrite Ht0 in Hs, Hq. cbn in Hs.
  rewrite elem_of_union, elem_of_singleton in Hs.
  rewrite Ht in Hq. injection Hq as ->. tauto.
Qed.

(** X15.  Phase 3 evaluates each title once: the collected pieces have
    pairwise distinct, non-empty titles; each collected piece is the
    first proposal carrying its title, in the order of the advisors; and
    every non-empty title that was proposed is collected. *)
Theorem collected_pieces_are_unique
    (suggestion_results : list (string * list piece)) :
  let proposals := flat_map snd suggestion_results in
  let all_pieces := _collect_unique_pieces suggestion_results in
  List.NoDup (map title all_pieces)
  /\ (forall q, In q all_pieces ->
        exists t, title q = Some t /\ t <> ""
                  /\ List.find (has_title t) proposals = Some q)
  /\ (forall p t, In p proposals -> title p = Some t -> t <> "" ->
        exists q, In q all_pieces /\ title q = Some t).
Proof.
  cbv zeta. unfold _collect_unique_pieces. split; [| split].
  - apply collect_titles_NoDup.
  - intros q Hq. apply collect_sound in Hq as (t & Ht & Hne & _ & Hf). eauto.
  - intros p t Hp Ht Hne.
    apply (collect_complete _ ∅ p t Hp Ht Hne). apply not_elem_of_empty.
Qed.

Lemma first_gentle_split (l : list piece) (p : piece) :
  List.find is_gentle l = Some p ->
  exists before after,
    l = (before ++ p :: after)%list
    /\ Forall (fun q => is_gentle q = false) before
    /\ remove_first p l = (before ++ after)%list.
Proof.
  induction l as [| y l IH]; cbn [List.find]; [discriminate |].
  destruct (is_gentle y) eqn:E.
  - intros H. injection H as <-. exists [], l. cbn [app remove_first].
    rewrite decide_True by reflexivity. auto.
  - intros H. pose proof (List.find_some _ _ H) as [_ Hp].
    destruct (IH H) as (before & after & -> & Hb & Hr).
    exists (y :: before), after. cbn [app remove_first].
    rewrite decide_False by (intros ->; congruence).
    rewrite Hr. auto.
Qed.

(** X16.  Ordering for the flow only moves one piece: the first piece of
    beginner or intermediate difficulty goes to the front and the others
    keep their order; when there is no such piece the order is unchanged.
    No piece is lost or repeated. *)
Theorem ordering_moves_first_gentle_piece (l : list piece) :
  Permutation (_order_pieces_for_flow l) l
  /\ match List.find is_gentle l with
     | Some p =>
         exists before after,
           l = (before ++ p :: after)%list
           /\ Forall (fun q => is_gentle q = false) before
           /\ _order_pieces_for_flow l = p :: (before ++ after)%list
     | None => _order_pieces_for_flow l = l
     end.
Proof.
  unfold _order_pieces_for_flow, _find_opening_piece.
  destruct (List.find is_gentle l) as [p |] eqn:E.
  - destruct (first_gentle_split l p E) as (before & after & -> & Hb & Hr).
    rewrite Hr. split; [apply Permutation_middle |]. eauto.
  - destruct l as [| y l]; cbn [head]; [split; reflexivity |].
    cbn [remove_first]. rewrite decide_True by reflexivity.
    split; reflexivity.
Qed.

Lemma evaluate_all_returns (name : string) (a : agent) (r : requirements)
    (all_pieces : list piece) :
  (forall p, In p all_pieces -> evaluate_piece a p r <> Raised) ->
  exists evs,
    evaluate_all name a all_pieces r = Ok evs
    /\ map ed_piece evs = all_pieces
    /\ Forall (fun d => ed_agent d = name
                        /\ evaluate_piece a (ed_piece d) r
                           = Ok (ed_evaluation d)) evs.
Proof.
  induction all_pieces as [| p rest IH]; intros Hok; cbn [evaluate_all].
  - exists []. auto.
  - destruct (evaluate_piece a p r) as [e |] eqn:E;
      [| exfalso; apply (Hok p); [left; reflexivity | exact E]].
    destruct IH as (evs & -> & Hp & Hall);
      [intros q Hq; apply Hok; right; exact Hq |].
    cbn [bind]. eexists. split; [reflexivity |]. cbn [map ed_piece].
    rewrite Hp. split; [reflexivity |]. constructor; [| exact Hall].
    cbn. auto.
Qed.

Lemma evaluate_all_raises (name : string) (a : agent) (r : requirements)
    (all_pieces : list piece) (p : piece) :
  In p all_pieces -> evaluate_piece a p r = Raised ->
  evaluate_all name a all_pieces r = Raised.
Proof.
  induction all_pieces as [| q rest IH]; intros Hin Hp; [contradiction |].
  cbn [evaluate_all].
  destruct Hin as [-> | Hin]; [rewrite Hp; reflexivity |].
  destruct (evaluate_piece a q r); cbn [bind]; [| reflexivity].
  rewrite (IH Hin Hp). reflexivity.
Qed.

(** X17.  In phase 3 the evaluations of an advisor are kept all or not
    at all: when one of its evaluations raises, the advisor contributes
    no evaluation, those that had succeeded included; otherwise it
    contributes one evaluation for every collected piece, in order and
    under its name.  The other advisors are not affected. *)
Theorem evaluation_is_all_or_nothing (ags : list (string * agent))
    (suggestion_results : list (string * list piece)) (r : requirements)
    (name : string) (a : agent) :
  In (name, a) ags ->
  let all_pieces := _collect_unique_pieces suggestion_results in
  exists evs,
    In (name, evs) (_phase_evaluation ags suggestion_results r)
    /\ ((exists p, In p all_pieces /\ evaluate_piece a p r = Raised) ->
        evs = [])
    /\ ((forall p, In p all_pieces -> evaluate_piece a p r <> Raised) ->
        map ed_piece evs = all_pieces
        /\ Forall (fun d => ed_agent d = name
                            /\ evaluate_piece a (ed_piece d) r
                               = Ok (ed_evaluation d)) evs).
Proof.
  intros Hin. cbv zeta.
  exists (try_except
            (evaluate_all name a (_collect_unique_pieces suggestion_results)
               r) []).
  split; [| split].
  - unfold _phase_evaluation. apply in_map_iff. exists (name, a). auto.
  - intros (p & Hp & Hraise).
    rewrite (evaluate_all_raises name a r _ p Hp Hraise). reflexivity.
  - intros Hok.
    destruct (evaluate_all_returns name a r _ Hok) as (evs & -> & H1 & H2).
    cbn [try_except]. auto.
Qed.

Lemma evaluation_is_all_or_nothing_witness :
  let ags := ("fussy", fussy_agent) :: agents llm_unavailable in
  let suggestion_results :=
    _phase_suggestions ags sample_requirements
      (_phase_analysis ags sample_requirements) in
  In ("fussy", fussy_agent) ags
  /\ In ("fussy", []) (_phase_evaluation ags suggestion_results
                         sample_requirements)
  /\ length (_collect_unique_pieces suggestion_results) = 3%nat.
Proof.
  cbv zeta.
  assert (In ("fussy", fussy_agent)
            (("fussy", fussy_agent) :: agents llm_unavailable)) as Hin
    by (left; reflexivity).
  split; [exact Hin |].
  destruct (evaluation_is_all_or_nothing _
              (_phase_suggestions
                 (("fussy", fussy_agent) :: agents llm_unavailable)
                 sample_requirements
                 (_phase_analysis
                    (("fussy", fussy_agent) :: agents llm_unavailable)
                    sample_requirements))
              sample_requirements "fussy" fussy_agent Hin)
    as (evs & Hevs & Hnone & _).
  split; [| vm_compute; reflexivity].
  rewrite Hnone in Hevs; [exact Hevs |].
  eexists. split.
  - vm_compute. right. right. left. reflexivity.
  - vm_compute. reflexivity.
Defined.

Lemma fold_left_Qplus (l : list Q) :
  forall a, (fold_left Qplus l a == a + Qsum l)%Q.
Proof.
  unfold Qsum. induction l as [| x l IH]; intros a; cbn [fold_left fold_right].
  - ring.
  - rewrite IH. ring.
Qed.

Lemma Qsum_between (lo hi : Q) (l : list Q) :
  (forall x, In x l -> (lo <= x)%Q /\ (x <= hi)%Q) ->
  (lo * inject_Z (Z.of_nat (length l)) <= Qsum l)%Q
  /\ (Qsum l <= hi * inject_Z (Z.of_nat (length l)))%Q.
Proof.
  unfold Qsum. induction l as [| x l IH]; intros H.
  - cbn [length fold_right]. change (inject_Z (Z.of_nat 0)) with 0%Q.
    split; lra.
  - destruct IH as [IH1 IH2]; [intros y Hy; apply H; right; exact Hy |].
    destruct (H x (or_introl eq_refl)) as [H1 H2].
    cbn [length fold_right]. rewrite Nat2Z.inj_succ. unfold Z.succ.
    rewrite inject_Z_plus. change (inject_Z 1) with 1%Q. split; lra.
Qed.

(** X18.  The overall confidence is one half when no evaluation was
    kept; and whenever every confidence reported by an advisor, one
    half standing for a missing one, lies in a range that contains one
    half, the overall confidence lies in that range. *)
Theorem overall_confidence_stays_in_range
    (evaluation_results : list (string * list eval_data)) (lo hi : Q) :
  (lo <= 1 # 2)%Q -> (1 # 2 <= hi)%Q ->
  (forall d, In d (all_evaluations evaluation_results) ->
             (lo <= confidence_of d)%Q /\ (confidence_of d <= hi)%Q) ->
  (all_evaluations evaluation_results = [] ->
   _calculate_overall_confidence evaluation_results = (1 # 2)%Q)
  /\ (lo <= _calculate_overall_confidence evaluation_results)%Q
  /\ (_calculate_overall_confidence evaluation_results <= hi)%Q.
Proof.
  intros Hlo Hhi Hall. unfold _calculate_overall_confidence.
  change (map (fun d => default (1 # 2)%Q (confidence (ed_evaluation d)))
            (all_evaluations evaluation_results))
    with (map confidence_of (all_evaluations evaluation_results)).
  split; [intros ->; reflexivity |].
  destruct (map confidence_of (all_evaluations evaluation_results))
    as [| c cs] eqn:E; [split; assumption |].
  assert (0 < inject_Z (Z.of_nat (length (c :: cs))))%Q as Hpos.
  { cbn [length]. rewrite Nat2Z.inj_succ. unfold Qlt. cbn. lia. }
  destruct (Qsum_between lo hi (c :: cs)) as [H1 H2].
  { intros x Hx. rewrite <- E in Hx.
    apply in_map_iff in Hx as (d & <- & Hd). apply Hall, Hd. }
  rewrite fold_left_Qplus. split.
  - apply Qle_shift_div_l; [exact Hpos | lra].
  - apply Qle_shift_div_r; [exact Hpos | lra].
Qed.

Lemma overall_confidence_stays_in_range_witness :
  let evaluation_results :=
    evaluations_of (agents llm_unavailable) sample_requirements in
  (1 # 2 <= _calculate_overall_confidence evaluation_results)%Q
  /\ (_calculate_overall_confidence evaluation_results <= 4 # 5)%Q.
Proof.
  cbv zeta.
  apply (overall_confidence_stays_in_range
           (evaluations_of (agents llm_unavailable) sample_requirements)
           (1 # 2) (4 # 5)).
  - unfold Qle. cbn. lia.
  - unfold Qle. cbn. lia.
  - intros d Hd. vm_compute in Hd.
    repeat (destruct Hd as [<- | Hd];
            [split; unfold Qle; vm_compute; discriminate |]).
    contradiction.
Defined.

Lemma assoc_In {A : Type} (k : string) (table : list (string * A)) (v : A) :
  assoc k table = Some v -> In (k, v) table.
Proof.
  unfold assoc.
  destruct (List.find (fun kv => String.eqb (fst kv) k) table)
    as [[k0 v0] |] eqn:E; [| discriminate].
  cbn. intros H. injection H as <-.
  apply List.find_some in E as [Hin Hk]. cbn in Hk.
  apply String.eqb_eq in Hk. subst k0. exact Hin.
Qed.

Lemma set_item_In {A : Type} (key : string) (value : A)
    (table : list (string * A)) (k : string) (v : A) :
  In (k, v) (set_item key value table) ->
  (k = key /\ v = value) \/ In (k, v) table.
Proof.
  induction table as [| [k0 v0] table IH]; cbn [set_item].
  - intros [H | []]. injection H as <- <-. auto.
  - destruct (String.eqb k0 key) eqn:E.
    + apply String.eqb_eq in E. subst k0.
      intros [H | H]; [injection H as <- <-; auto | right; right; exact H].
    + intros [H | H]; [right; left; exact H |].
      destruct (IH H) as [? | ?]; [auto | right; right; assumption].
Qed.

Lemma set_item_not_empty {A : Type} (key : string) (value : A)
    (table : list (string * A)) :
  set_item key value table <> [].
Proof.
  destruct table as [| [k0 v0] table]; cbn [set_item]; [discriminate |].
  destruct (String.eqb k0 key); discriminate.
Qed.

Lemma recorded_pieces (known : list piece) (evs : list eval_data) :
  forall table,
    (forall k t, In (k, t) table -> In (tally_piece t) known) ->
    (forall d, In d evs -> In (ed_piece d) known) ->
    forall k t, In (k, t) (fold_left record_evaluation evs table) ->
                In (tally_piece t) known.
Proof.
  induction evs as [| d evs IH]; intros table Htable Hevs; cbn [fold_left];
    [exact Htable |].
  apply IH; [| intros e He; apply Hevs; right; exact He].
  intros k t Hin. unfold record_evaluation in Hin.
  apply set_item_In in Hin as [[_ ->] | Hin]; [| apply (Htable k t Hin)].
  cbn [add_score tally_piece].
  destruct (assoc (score_key (ed_piece d)) table) as [t0 |] eqn:E.
  - cbn. apply assoc_In in E. apply (Htable _ _ E).
  - cbn. apply Hevs. left. reflexivity.
Qed.

Lemma recorded_not_empty (evs : list eval_data) :
  forall table,
    evs <> [] \/ table <> [] ->
    fold_left record_evaluation evs table <> [].
Proof.
  induction evs as [| d evs IH]; intros table H; cbn [fold_left].
  - destruct H as [H | H]; [contradiction | exact H].
  - apply IH. right. apply set_item_not_empty.
Qed.

Lemma evaluate_all_pieces (name : string) (a : agent) (r : requirements)
    (all_pieces : list piece) :
  forall evs,
    evaluate_all name a all_pieces r = Ok evs ->
    map ed_piece evs = all_pieces.
Proof.
  induction all_pieces as [| p rest IH]; intros evs; cbn [evaluate_all].
  - intros H. injection H as <-. reflexivity.
  - destruct (evaluate_piece a p r) as [e |]; cbn [bind]; [| discriminate].
    destruct (evaluate_all name a rest r) as [others |]; cbn [bind];
      [| discriminate].
    intros H. injection H as <-. cbn [map ed_piece].
    rewrite (IH others eq_refl). reflexivity.
Qed.

Lemma evaluated_pieces_are_collected (ags : list (string * agent))
    (suggestion_results : list (string * list piece)) (r : requirements)
    (d : eval_data) :
  In d (all_evaluations (_phase_evaluation ags suggestion_results r)) ->
  In (ed_piece d) (_collect_unique_pieces suggestion_results).
Proof.
  unfold all_evaluations, _phase_evaluation. rewrite in_flat_map.
  intros ([name evs] & Hin & Hd). cbn [snd] in Hd.
  apply in_map_iff in Hin as ([n a] & H & _). cbn [fst snd] in H.
  injection H as _ <-.
  destruct (evaluate_all n a (_collect_unique_pieces suggestion_results) r)
    as [evs |] eqn:E; cbn [try_except] in Hd; [| contradiction].
  rewrite <- (evaluate_all_pieces n a r _ evs E). apply in_map, Hd.
Qed.

Lemma select_loop_In (target : Z) (sorted : list piece_data) :
  forall (selected : list piece) (total : Z) (result : list piece),
    select_loop sorted target selected total = Ok result ->
    forall p, In p result ->
              In p selected \/ In p (map pd_piece sorted).
Proof.
  induction sorted as [| d sorted IH]; intros selected total result Hres p Hp;
    cbn [select_loop] in Hres.
  - injection Hres as <-. auto.
  - destruct (duration_of (pd_piece d)) as [n |]; [| discriminate].
    cbn [map In].
    destruct (total + n <=? target + 5).
    + destruct (8 <=? length (selected ++ [pd_piece d]))%nat.
      * injection Hres as <-.
        apply in_app_or in Hp as [Hp | [<- | []]]; auto.
      * destruct (IH _ _ _ Hres p Hp) as [H | H]; [| auto].
        apply in_app_or in H as [H | [<- | []]]; auto.
    + destruct (IH _ _ _ Hres p Hp) as [H | H]; auto.
Qed.

(** What the synthesis gives when every ranked piece has a numeric
    duration and the best ranked piece fits *)
Lemma synthesis_returns (evaluation_results : list (string * list eval_data))
    (r : requirements) (first : piece_data) (rest : list piece_data)
    (n : Z) :
  0 <= duration_minutes r ->
  sort_desc (map snd (_score_pieces evaluation_results)) = first :: rest ->
  Forall (fun d => is_numeric (pd_piece d)) (first :: rest) ->
  duration_of (pd_piece first) = Minutes n ->
  n <= duration_minutes r + 5 ->
  exists prog,
    synthesize evaluation_results r = Ok prog
    /\ pieces prog <> []
    /\ (length (pieces prog) <= 8)%nat
    /\ (forall p, In p (pieces prog) ->
                  In p (map pd_piece (first :: rest)))
    /\ sum_durations (pieces prog) = Ok (total_duration prog)
    /\ total_duration prog <= duration_minutes r + 5.
Proof.
  intros Htarget Hsorted Hnum Hfirst Hfit.
  unfold synthesize, _select_pieces_for_setlist. rewrite Hsorted.
  destruct (CoordinatorFacts.select_loop_returns (duration_minutes r)
              (first :: rest) Hnum [] 0) as [selected Hsel].
  rewrite Hsel. cbn [bind].
  assert (selected <> []) as Hne.
  { pose proof Hsel as H. cbn [select_loop] in H. rewrite Hfirst in H.
    assert ((0 + n <=? duration_minutes r + 5) = true) as E
      by (apply Z.leb_le; lia).
    rewrite E in H. cbn [app length] in H.
    change (8 <=? 1)%nat with false in H.
    apply CoordinatorFacts.select_loop_extends in H as [more ->].
    discriminate. }
  destruct (CoordinatorFacts.select_loop_bounds (duration_minutes r) _ [] 0
              selected ltac:(cbn; lia) eq_refl ltac:(lia) Hsel)
    as (Hlen & total & Hsum & Hle).
  unfold _generate_setlist_metadata.
  rewrite (CoordinatorFacts.order_keeps_sum selected total Hsum).
  cbn [bind]. eexists. split; [reflexivity |].
  cbn [pieces total_duration snd].
  split.
  { intros H. apply (f_equal (@length piece)) in H.
    rewrite CoordinatorFacts.order_keeps_length in H.
    destruct selected; [contradiction | discriminate]. }
  split; [rewrite CoordinatorFacts.order_keeps_length; exact Hlen |].
  split.
  { intros p Hp.
    assert (In p selected) as Hp'.
    { unfold _order_pieces_for_flow in Hp.
      destruct (_find_opening_piece selected) as [x |] eqn:E; [| exact Hp].
      destruct Hp as [<- | Hp];
        [apply CoordinatorFacts.opening_piece_In, E |].
      clear -Hp. induction selected as [| y l IH]; [contradiction |].
      cbn [remove_first] in Hp.
      destruct (decide (y = x)); [right; exact Hp |].
      destruct Hp as [<- | Hp]; [left; reflexivity | right; apply IH, Hp]. }
    destruct (select_loop_In _ _ _ _ _ Hsel p Hp') as [[] | H]. exact H. }
  split; [apply CoordinatorFacts.order_keeps_sum, Hsum | exact Hle].
Qed.

Lemma service_proposals_are_timed (service : llm) (r : requirements)
    (p : piece) :
  In p (proposals service r) ->
  exists n t, duration_of p = Minutes n /\ 4 <= n <= 15
              /\ title p = Some t /\ t <> "".
Proof.
  unfold proposals, _phase_suggestions, _phase_analysis, agents.
  cbn [map flat_map snd fst suggest_pieces Curator.make Technical.make
       Flow.make try_except app].
  intros H. repeat (apply in_app_or in H as [H | H]).
  - destruct (service (AskSuggestions "curator")); cbn [try_except] in H.
    + unfold Curator._parse_piece_suggestions in H.
      destruct (String.eqb (concert_type r) "classical_recital");
        [| contradiction].
      destruct H as [<- | [<- | []]]; do 2 eexists; cbn;
        (split; [reflexivity |]); (split; [lia |]);
        (split; [reflexivity | discriminate]).
    + destruct H as [<- | []]. do 2 eexists. cbn.
      split; [reflexivity |]. split; [lia |].
      split; [reflexivity | discriminate].
  - destruct (service (AskSuggestions "technical")); cbn [try_except] in H;
      destruct H as [<- | []]; do 2 eexists; cbn;
      (split; [reflexivity |]); (split; [lia |]);
      (split; [reflexivity | discriminate]).
  - destruct (service (AskSuggestions "flow")); cbn [try_except] in H;
      destruct H as [<- | []]; do 2 eexists; cbn;
      (split; [reflexivity |]); (split; [lia |]);
      (split; [reflexivity | discriminate]).
  - contradiction.
Qed.

Lemma service_proposes_a_piece (service : llm) (r : requirements) :
  exists p, In p (proposals service r).
Proof.
  unfold proposals, _phase_suggestions, _phase_analysis, agents.
  cbn [map flat_map snd fst suggest_pieces Curator.make Technical.make
       Flow.make try_except app].
  destruct (service (AskSuggestions "technical")); cbn [try_except];
    eexists; apply in_or_app; right; apply in_or_app; left; left; reflexivity.
Qed.

Lemma service_evaluations (service : llm) (r : requirements) :
  exists evs rest,
    evaluations_of (agents service) r = ("curator", evs) :: rest
    /\ map ed_piece evs
       = _collect_unique_pieces
           (_phase_suggestions (agents service) r
              (_phase_analysis (agents service) r)).
Proof.
  unfold evaluations_of, _phase_evaluation.
  set (all_pieces := _collect_unique_pieces _).
  unfold agents at 1. cbn [map fst snd].
  destruct (evaluate_all_returns "curator" (Curator.make service) r
              all_pieces) as (evs & -> & Hp & _).
  { intros p _. cbn. destruct (service _); discriminate. }
  cbn [try_except]. eauto.
Qed.

(** X19.  For every validated request, fifteen minutes or more, and
    whatever the text-completion service answers to each call, the
    pipeline of the three advisors succeeds without its placeholder:
    the synthesis does not raise, and the program has between one and
    eight pieces, all of them proposals of the advisors, with the total
    duration reported being their sum and at most the target plus
    five. *)
Theorem design_never_needs_the_placeholder (service : llm)
    (r : requirements) :
  15 <= duration_minutes r ->
  let result := design service r in
  success result = true
  /\ synthesize (evaluations_of (agents service) r) r = Ok (setlist result)
  /\ pieces (setlist result) <> []
  /\ (length (pieces (setlist result)) <= 8)%nat
  /\ (forall p, In p (pieces (setlist result)) ->
                In p (proposals service r))
  /\ sum_durations (pieces (setlist result))
     = Ok (total_duration (setlist result))
  /\ total_duration (setlist result) <= duration_minutes r + 5.
Proof.
  intros Hd. cbv zeta. split; [reflexivity |].
  unfold design, design_setlist. cbn [setlist].
  fold (evaluations_of (agents service) r).
  set (er := evaluations_of (agents service) r).
  set (sr := _phase_suggestions (agents service) r
               (_phase_analysis (agents service) r)).
  assert (forall d, In d (sort_desc (map snd (_score_pieces er))) ->
                    In (pd_piece d) (proposals service r)) as Hknown.
  { intros d Hin. apply (proj1 (CoordinatorFacts.ranking_In _ _)) in Hin.
    apply in_map_iff in Hin as ([k pd] & <- & Hin). cbn [snd].
    unfold _score_pieces in Hin.
    apply in_map_iff in Hin as ([k' t] & H & Hin). cbn [fst snd] in H.
    injection H as _ <-. cbn [with_average pd_piece].
    apply (recorded_pieces (proposals service r) (all_evaluations er) []
             ltac:(intros ? ? [])) with (k := k'); [| exact Hin].
    intros e He. apply evaluated_pieces_are_collected in He.
    apply collect_sound in He as (t0 & _ & _ & _ & Hf).
    apply List.find_some in Hf as [Hf _]. exact Hf. }
  assert (sort_desc (map snd (_score_pieces er)) <> []) as Hne.
  { destruct (service_evaluations service r) as (evs & rest & Her & Hp).
    fold er in Her. fold sr in Hp.
    destruct (service_proposes_a_piece service r) as [p Hp0].
    destruct (service_proposals_are_timed service r p Hp0)
      as (n & t & _ & _ & Ht & Hnonempty).
    destruct (collect_complete _ ∅ p t Hp0 Ht Hnonempty
                ltac:(apply not_elem_of_empty)) as (q & Hq & _).
    change (In q (_collect_unique_pieces sr)) in Hq. rewrite <- Hp in Hq.
    assert (all_evaluations er <> []) as Hevs.
    { rewrite Her. unfold all_evaluations. cbn [flat_map snd].
      destruct evs; [contradiction | discriminate]. }
    pose proof (recorded_not_empty (all_evaluations er) []
                  (or_introl Hevs)) as Htable.
    destruct (fold_left record_evaluation (all_evaluations er) [])
      as [| [k t0] table] eqn:E; [contradiction |].
    intros Hnil.
    assert (In (with_average t0) (sort_desc (map snd (_score_pieces er))))
      as Hin.
    { apply CoordinatorFacts.ranking_In. unfold _score_pieces. rewrite E.
      left. reflexivity. }
    rewrite Hnil in Hin. contradiction. }
  destruct (sort_desc (map snd (_score_pieces er))) as [| first rest]
    eqn:Hsorted; [contradiction |].
  destruct (service_proposals_are_timed service r (pd_piece first)
              (Hknown first (or_introl eq_refl)))
    as (n & t & Hn & Hrange & _).
  destruct (synthesis_returns er r first rest n ltac:(lia) Hsorted)
    as (prog & Hprog & H1 & H2 & H3 & H4 & H5); [| exact Hn | lia |].
  { apply List.Forall_forall. intros d Hin.
    destruct (service_proposals_are_timed service r (pd_piece d)
                (Hknown d Hin)) as (m & t' & Hm & _).
    unfold is_numeric. rewrite Hm. discriminate. }
  unfold _phase_synthesis. rewrite Hprog. cbn [try_except].
  split; [reflexivity |]. split; [exact H1 |]. split; [exact H2 |].
  split; [| split; assumption].
  intros p Hp. apply H3 in Hp. apply in_map_iff in Hp as (d & <- & Hin).
  apply Hknown, Hin.
Qed.

Lemma design_never_needs_the_placeholder_witness :
  15 <= duration_minutes sample_requirements
  /\ pieces (setlist (design llm_available sample_requirements)) <> []
  /\ total_duration (setlist (design llm_available sample_requirements))
     <= 35.
Proof.
  assert (15 <= duration_minutes sample_requirements) as H by (cbn; lia).
  split; [exact H |].
  destruct (design_never_needs_the_placeholder llm_available
              sample_requirements H) as (_ & _ & Hne & _ & _ & _ & Hle).
  split; [exact Hne | exact Hle].
Defined.

End PipelineFacts.

(** ** The simple design of the endpoint *)

Module DesignServiceFacts.
Import Coordinator DesignService DesignNotions.










End DesignServiceFacts.

(** ** The derived constraints of the advisors *)

Module AdviceFacts.
Import Coordinator Advice.

(** X22.  The advisors agree on the size of the program: the number of
    pieces that the Technical Advisor recommends is the number that the
    Program Flow Director plans, and the length of its tempo and energy
    progressions; it never exceeds the eight pieces that the Coordinator
    selects at most.  The longest piece that the Technical Advisor
    allows is never longer than the attention span that the Program
    Flow Director estimates. *)
Theorem advisors_agree_on_program_size (r : requirements) :
  let limits := _assess_duration_limits (duration_minutes r) in
  snd limits = Flow._design_program_structure r
  /\ Z.of_nat (length (_design_tempo_progression r)) = snd limits
  /\ Z.of_nat (length (_design_energy_progression r)) = snd limits
  /\ 4 <= snd limits <= 8
  /\ fst limits <= _estimate_attention_span (duration_minutes r).
Proof.
  cbv zeta.
  unfold _assess_duration_limits, Flow._design_program_structure,
    _design_tempo_progression, _design_energy_progression,
    _estimate_attention_span.
  destruct (duration_minutes r <? 30);
    [| destruct (duration_minutes r <? 60)]; cbn; repeat split; lia.
Qed.

Lemma total_warmup_from (instruments : list string) :
  forall start,
    fold_left (fun total instrument => total + warmup_of instrument)
      instruments start
    = start + total_warmup instruments.
Proof.
  unfold total_warmup.
  induction instruments as [| i rest IH]; intros start; cbn [fold_left];
    [lia |].
  rewrite IH, (IH (0 + warmup_of i)). lia.
Qed.

Lemma warmup_of_range (instrument : string) : 5 <= warmup_of instrument <= 10.
Proof.
  unfold warmup_of. destruct (existsb _ _); [lia |].
  destruct (String.eqb instrument "piano"); lia.
Qed.

Lemma total_warmup_range (instruments : list string) :
  5 * Z.of_nat (length instruments) <= total_warmup instruments
  <= 10 * Z.of_nat (length instruments).
Proof.
  induction instruments as [| i rest IH]; [cbn; lia |].
  unfold total_warmup in *. cbn [fold_left length].
  rewrite total_warmup_from. unfold total_warmup.
  pose proof (warmup_of_range i). lia.
Qed.

(** X23.  The warm-up estimate lies between 0 and 20 minutes; it is 0
    only without instruments, it is 20 as soon as there are four
    instruments, and adding instruments never lowers it. *)
Theorem warmup_estimate_is_capped (instruments more : list string) :
  0 <= _estimate_warmup_time instruments <= 20
  /\ (_estimate_warmup_time instruments = 0 <-> instruments = [])
  /\ ((4 <= length instruments)%nat ->
      _estimate_warmup_time instruments = 20)
  /\ _estimate_warmup_time instruments
     <= _estimate_warmup_time (instruments ++ more).
Proof.
  unfold _estimate_warmup_time.
  pose proof (total_warmup_range instruments) as H.
  pose proof (total_warmup_range more) as Hm.
  assert (total_warmup (instruments ++ more)
          = total_warmup instruments + total_warmup more) as Happ.
  { unfold total_warmup at 1. rewrite fold_left_app.
    fold (total_warmup instruments). apply total_warmup_from. }
  rewrite Happ. split; [lia |]. split; [| split; [| lia]].
  - split.
    + intros H0. destruct instruments; [reflexivity |].
      cbn [length] in H. lia.
    + intros ->. reflexivity.
  - intros H4. lia.
Qed.

End AdviceFacts.

(** ** The table of scores *)

Module TableFacts.
Import Coordinator PipelineNotions PipelineFacts.

Lemma set_item_keys_In {A : Type} (key : string) (value : A)
    (table : list (string * A)) (k : string) :
  In k (map fst (set_item key value table))
  <-> k = key \/ In k (map fst table).
Proof.
  induction table as [| [k0 v0] table IH]; cbn [set_item map fst In].
  - intuition.
  - destruct (String.eqb k0 key) eqn:E; cbn [map fst In].
    + apply String.eqb_eq in E. subst k0. intuition.
    + rewrite IH. intuition.
Qed.

Lemma set_item_keys_NoDup {A : Type} (key : string) (value : A)
    (table : list (string * A)) :
  List.NoDup (map fst table) ->
  List.NoDup (map fst (set_item key value table)).
Proof.
  induction table as [| [k0 v0] table IH]; cbn [set_item map fst];
    intros Hnd.
  - repeat constructor. intros [].
  - apply List.NoDup_cons_iff in Hnd as [Hk0 Hnd].
    destruct (String.eqb k0 key) eqn:E; cbn [map fst].
    + constructor; assumption.
    + constructor; [| apply IH, Hnd].
      rewrite set_item_keys_In. intros [-> | H]; [| contradiction].
      rewrite String.eqb_refl in E. discriminate.
Qed.

Lemma assoc_of_In {A : Type} (k : string) (v : A)
    (table : list (string * A)) :
  List.NoDup (map fst table) -> In (k, v) table -> assoc k table = Some v.
Proof.
  unfold assoc.
  induction table as [| [k0 v0] table IH]; intros Hnd Hin; [contradiction |].
  cbn [map fst] in Hnd. apply List.NoDup_cons_iff in Hnd as [Hk0 Hnd].
  cbn [List.find fst]. destruct Hin as [H | Hin].
  - injection H as -> ->. rewrite String.eqb_refl. reflexivity.
  - destruct (String.eqb k0 k) eqn:E; [| apply IH; assumption].
    apply String.eqb_eq in E. subst k0. exfalso. apply Hk0.
    apply in_map_iff. exists (k, v). auto.
Qed.

Lemma find_snoc {A : Type} (f : A -> bool) (l : list A) (x : A) :
  List.find f (l ++ [x])
  = match List.find f l with
    | Some y => Some y
    | None => if f x then Some x else None
    end.
Proof.
  induction l as [| y l IH]; cbn [app List.find]; [reflexivity |].
  destruct (f y); [reflexivity | exact IH].
Qed.

Lemma scores_for_find (k : string) (evs : list eval_data) :
  scores_for k evs = [] <-> List.find (filed_under k) evs = None.
Proof.
  unfold scores_for.
  change (fun d => String.eqb (score_key (ed_piece d)) k)
    with (filed_under k).
  induction evs as [| d evs IH]; cbn [List.filter List.find map];
    [tauto |].
  destruct (filed_under k d); cbn [map]; [| exact IH].
  split; discriminate.
Qed.

Lemma record_keeps_first_piece (table : list (string * tally))
    (evs : list eval_data) (d : eval_data) :
  tallies_agree table evs ->
  (forall k t, assoc k table = Some t ->
     exists d0, List.find (filed_under k) evs = Some d0
                /\ tally_piece t = ed_piece d0) ->
  forall k t, assoc k (record_evaluation table d) = Some t ->
    exists d0, List.find (filed_under k) (evs ++ [d]) = Some d0
               /\ tally_piece t = ed_piece d0.
Proof.
  intros Hagree Hfirst k t. unfold record_evaluation.
  rewrite CoordinatorFacts.assoc_set_item, find_snoc.
  destruct (String.eqb (score_key (ed_piece d)) k) eqn:E.
  - apply String.eqb_eq in E. subst k. intros H. injection H as <-.
    cbn [add_score tally_piece]. specialize (Hagree (score_key (ed_piece d))).
    destruct (assoc (score_key (ed_piece d)) table) as [t1 |] eqn:E1.
    + destruct (Hfirst _ _ E1) as (d0 & -> & Hp). cbn. eauto.
    + apply scores_for_find in Hagree. rewrite Hagree.
      unfold filed_under at 1. rewrite String.eqb_refl. cbn. eauto.
  - intros H. destruct (Hfirst _ _ H) as (d0 & -> & Hp). eauto.
Qed.

Lemma fold_keeps_first_piece (more : list eval_data) :
  forall (table : list (string * tally)) (evs : list eval_data),
    tallies_agree table evs ->
    List.NoDup (map fst table) ->
    (forall k t, assoc k table = Some t ->
       exists d0, List.find (filed_under k) evs = Some d0
                  /\ tally_piece t = ed_piece d0) ->
    tallies_agree (fold_left record_evaluation more table) (evs ++ more)
    /\ List.NoDup (map fst (fold_left record_evaluation more table))
    /\ (forall k t,
          assoc k (fold_left record_evaluation more table) = Some t ->
          exists d0, List.find (filed_under k) (evs ++ more) = Some d0
                     /\ tally_piece t = ed_piece d0).
Proof.
  induction more as [| d more IH]; intros table evs Hagree Hnd Hfirst;
    cbn [fold_left].
  - rewrite app_nil_r. auto.
  - replace (evs ++ d :: more)%list with ((evs ++ [d]) ++ more)%list
      by (rewrite <- app_assoc; reflexivity).
    apply IH.
    + apply CoordinatorFacts.record_evaluation_agrees, Hagree.
    + apply set_item_keys_NoDup, Hnd.
    + apply record_keeps_first_piece; assumption.
Qed.

(** X24.  The table of scores has one entry for each title under which
    an evaluation was recorded, and no other entry; the entry of a title
    counts the evaluations recorded under it, and its piece is the piece
    of the first of them. *)
Theorem score_table_has_one_entry_per_title
    (evaluation_results : list (string * list eval_data)) :
  let table := _score_pieces evaluation_results in
  let evs := all_evaluations evaluation_results in
  List.NoDup (map fst table)
  /\ (forall k, In k (map fst table)
                <-> exists d, In d evs /\ score_key (ed_piece d) = k)
  /\ (forall k entry, In (k, entry) table ->
        pd_evaluation_count entry
        = Z.of_nat (length (List.filter (filed_under k) evs))
        /\ exists d0, List.find (filed_under k) evs = Some d0
                      /\ pd_piece entry = ed_piece d0).
Proof.
  cbv zeta. unfold _score_pieces.
  destruct (fold_keeps_first_piece (all_evaluations evaluation_results) [] [])
    as (Hagree & Hnd & Hfirst).
  { intros k. reflexivity. }
  { constructor. }
  { intros k t H. discriminate H. }
  cbn [app] in Hagree, Hfirst.
  set (table := fold_left record_evaluation
                  (all_evaluations evaluation_results) []) in *.
  assert (map fst (map (fun kv => (fst kv, with_average (snd kv))) table)
          = map fst table) as Hkeys
    by (rewrite map_map; reflexivity).
  rewrite Hkeys. split; [exact Hnd |]. split.
  - intros k. specialize (Hagree k). split.
    + intros Hin. apply in_map_iff in Hin as ([k' t] & <- & Hin).
      cbn [fst] in *. rewrite (assoc_of_In _ _ _ Hnd Hin) in Hagree.
      destruct Hagree as (Hne & _).
      destruct (List.find (filed_under k')
                  (all_evaluations evaluation_results)) as [d |] eqn:E.
      * apply List.find_some in E as [Hd Hk]. exists d. split; [exact Hd |].
        apply String.eqb_eq, Hk.
      * apply scores_for_find in E. contradiction.
    + intros (d & Hd & Hk).
      destruct (assoc k table) as [t |] eqn:E.
      * apply assoc_In in E. apply in_map_iff. exists (k, t). auto.
      * apply scores_for_find in Hagree.
        pose proof (List.find_none _ _ Hagree d Hd) as Hf.
        unfold filed_under in Hf. rewrite Hk, String.eqb_refl in Hf.
        discriminate.
  - intros k entry Hin. apply in_map_iff in Hin as ([k' t] & H & Hin).
    cbn [fst snd] in H. injection H as -> <-.
    pose proof (assoc_of_In _ _ _ Hnd Hin) as Hassoc.
    specialize (Hagree k). rewrite Hassoc in Hagree.
    destruct Hagree as (_ & _ & Hcount).
    cbn [with_average pd_evaluation_count pd_piece]. split.
    + rewrite Hcount. unfold scores_for. rewrite length_map. reflexivity.
    + apply (Hfirst k t Hassoc).
Qed.

End TableFacts.

(** ** The selection of the coordinator, further *)

Module RankFacts.
Import Coordinator PipelineNotions.

Lemma ranked_insert_length (x : piece_data) (l : list piece_data) :
  length (insert_desc x l) = S (length l).
Proof.
  induction l as [| y l IH]; cbn [insert_desc]; [reflexivity |].
  destruct (Qltb (average_score x) (average_score y)); cbn [length];
    [rewrite IH |]; reflexivity.
Qed.

Lemma ranking_length (l : list piece_data) :
  length (sort_desc l) = length l.
Proof.
  unfold sort_desc. induction l as [| x l IH]; cbn [foldr length];
    [reflexivity |].
  rewrite ranked_insert_length, IH. reflexivity.
Qed.

Lemma sum_of_nonnegative (l : list piece) (total : Z) :
  Forall (fun p => exists n, duration_of p = Minutes n /\ 0 <= n) l ->
  sum_durations l = Ok total -> 0 <= total.
Proof.
  intros H. revert total. induction H as [| p l (n & Hn & Hpos) _ IH];
    intros total; cbn [sum_durations].
  - intros E. injection E as <-. lia.
  - rewrite Hn. destruct (sum_durations l) as [s |]; cbn [bind];
      [| discriminate].
    intros E. injection E as <-. specialize (IH s eq_refl). lia.
Qed.

Lemma select_loop_takes_all (target : Z) (sorted : list piece_data) :
  forall (selected : list piece) (total rest_total : Z),
    Forall (fun p => exists n, duration_of p = Minutes n /\ 0 <= n)
      (map pd_piece sorted) ->
    sum_durations (map pd_piece sorted) = Ok rest_total ->
    total + rest_total <= target + 5 ->
    (length selected + length sorted <= 8)%nat ->
    select_loop sorted target selected total
    = Ok (selected ++ map pd_piece sorted)%list.
Proof.
  induction sorted as [| d sorted IH];
    intros selected total rest_total Hpos Hsum Hfit Hlen;
    cbn [select_loop map].
  - rewrite app_nil_r. reflexivity.
  - cbn [map] in Hpos, Hsum. apply Forall_cons in Hpos as [(n & Hn & Hn0) Hpos].
    cbn [sum_durations] in Hsum. rewrite Hn in Hsum |- *.
    destruct (sum_durations (map pd_piece sorted)) as [s |] eqn:Hs;
      cbn [bind] in Hsum; [| discriminate].
    injection Hsum as <-.
    pose proof (sum_of_nonnegative _ s Hpos Hs) as Hs0.
    assert ((total + n <=? target + 5) = true) as E
      by (apply Z.leb_le; lia).
    rewrite E. cbn [length] in Hlen.
    destruct (8 <=? length (selected ++ [pd_piece d]))%nat eqn:E8.
    + apply Nat.leb_le in E8. rewrite length_app in E8. cbn [length] in E8.
      destruct sorted; [reflexivity | cbn [length] in Hlen; lia].
    + rewrite (IH (selected ++ [pd_piece d])%list (total + n) s Hpos eq_refl);
        [rewrite <- app_assoc; reflexivity | lia |].
      rewrite length_app. cbn [length]. lia.
Qed.

(** X26.  When the candidates are at most eight, none with a negative
    duration, and their durations add up to at most the target plus
    five, the selection drops nothing: it is the list of all candidates
    in the order of their ranking. *)
Theorem every_candidate_is_selected_when_all_fit
    (piece_scores : list (string * piece_data)) (r : requirements)
    (total : Z) :
  (length piece_scores <= 8)%nat ->
  Forall (fun p => exists n, duration_of p = Minutes n /\ 0 <= n)
    (ranked_pieces piece_scores) ->
  sum_durations (ranked_pieces piece_scores) = Ok total ->
  total <= duration_minutes r + 5 ->
  _select_pieces_for_setlist piece_scores r = Ok (ranked_pieces piece_scores).
Proof.
  intros Hlen Hpos Hsum Hfit. unfold _select_pieces_for_setlist.
  apply (select_loop_takes_all (duration_minutes r) _ [] 0 total Hpos Hsum);
    [lia |].
  rewrite ranking_length, length_map. cbn [length]. lia.
Qed.

Lemma every_candidate_is_selected_when_all_fit_witness :
  let table :=
    _score_pieces
      (evaluations_of (agents llm_unavailable) sample_requirements) in
  sum_durations (ranked_pieces table) = Ok 15
  /\ _select_pieces_for_setlist table sample_requirements
     = Ok (ranked_pieces table)
  /\ length (ranked_pieces table) = 3%nat.
Proof.
  cbv zeta.
  assert (sum_durations
            (ranked_pieces
               (_score_pieces
                  (evaluations_of (agents llm_unavailable)
                     sample_requirements))) = Ok 15) as Hsum
    by (vm_compute; reflexivity).
  split; [exact Hsum |]. split; [| vm_compute; reflexivity].
  apply (every_candidate_is_selected_when_all_fit _ sample_requirements 15).
  - vm_compute. lia.
  - apply List.Forall_forall. intros p Hp. vm_compute in Hp.
    destruct Hp as [<- | [<- | [<- | []]]]; exists 5;
      (split; [reflexivity | lia]).
  - exact Hsum.
  - cbn. lia.
Defined.

End RankFacts.
